(** * Coverage aggregation: a shallow embedding of [coverage_aggregate.py]

    The development follows the Python module function by function:
    the report parser ([parse_gcov_source_path], [parse_gcov_coverage],
    [parse_gcov_lines]), the merger and reconstructor
    ([write_cumulative_gcov]), the two exporters ([gcov_to_lcov_info],
    [gcov_to_gcovr_json]), the directory converter
    ([convert_dir_to_tracefiles]) and the grouping helpers
    ([group_gcov_paths_by_source], [_source_to_dirname]).

    Modelling conventions.
    - A Python [str] is a [string]; a character is a code point below 256
      (the Latin-1 range).  On that range the regular-expression class
      [\d] is exactly the ten ASCII digits, and [\s] and [str.strip] use
      the interpreter's white-space table restricted to it.
    - A Python [int] is a [Z]; the conversion [int(...)] is the
      mathematical one (the interpreter's optional limit on the number of
      digits of a literal is not modelled).
    - A [dict] is a [gmap], a [set] is a [gset]; loops are left folds of
      their body over the iterated sequence.
    - The file system is a finite map from paths to file contents. *)

From Stdlib Require Import ZArith Ascii String List Lia.
From stdpp Require Import gmap strings list fin_maps sorting.

#[local] Set Warnings "-clear-no-such-hyp".

(** ** Characters and the string primitives of the Python runtime *)

Module Py.

Definition code (c : ascii) : N := N_of_ascii c.

Definition newline : ascii := "010"%char.

(** [str.isspace] on one character, which is also the class [\s]. *)
Definition is_space (c : ascii) : bool :=
  let n := code c in
  ((9 <=? n) && (n <=? 13) || (28 <=? n) && (n <=? 32)
   || (n =? 133) || (n =? 160))%N.

(** The class [\d]. *)
Definition is_digit (c : ascii) : bool :=
  let n := code c in ((48 <=? n) && (n <=? 57))%N.

Definition digit_value (c : ascii) : Z := Z.of_N (code c) - 48.

Definition digit_char (d : N) : ascii := ascii_of_N (48 + d).

(** Every character of [s] is in the class [p]. *)
Fixpoint all_chars (p : ascii -> bool) (s : string) : bool :=
  match s with
  | EmptyString => true
  | String c s' => p c && all_chars p s'
  end.

(** [s.split(sep)] for a one-character separator. *)
Fixpoint split (sep : ascii) (s : string) : list string :=
  match s with
  | EmptyString => [EmptyString]
  | String c s' =>
      if Ascii.eqb c sep then EmptyString :: split sep s'
      else match split sep s' with
           | [] => [String c EmptyString]
           | l :: ls => String c l :: ls
           end
  end.

(** [sep.join(ls)]. *)
Fixpoint join (sep : string) (ls : list string) : string :=
  match ls with
  | [] => ""
  | [l] => l
  | l :: ls' => l +:+ sep +:+ join sep ls'
  end.

(** [s.startswith(p)]. *)
Fixpoint startswith (s p : string) {struct p} : bool :=
  match p, s with
  | EmptyString, _ => true
  | String a p', String b s' => Ascii.eqb a b && startswith s' p'
  | String _ _, EmptyString => false
  end.

(** [s.endswith(p)]. *)
Fixpoint endswith (s p : string) : bool :=
  if String.eqb s p then true
  else match s with
       | EmptyString => false
       | String _ s' => endswith s' p
       end.

(** [s.find(sub)]: the least index at which [sub] occurs, or [-1]. *)
Fixpoint find_from (i : Z) (s sub : string) : Z :=
  if startswith s sub then i
  else match s with
       | EmptyString => (-1)%Z
       | String _ s' => find_from (i + 1) s' sub
       end.

Definition find (s sub : string) : Z := find_from 0 s sub.

(** [sub in s]. *)
Fixpoint contains (s sub : string) : bool :=
  startswith s sub ||
  match s with
  | EmptyString => false
  | String _ s' => contains s' sub
  end.

Fixpoint drop (n : nat) (s : string) : string :=
  match n, s with
  | O, _ => s
  | S n', String _ s' => drop n' s'
  | S _, EmptyString => EmptyString
  end.

(** [s[i:]], with Python's reading of a negative start index. *)
Definition slice_from (i : Z) (s : string) : string :=
  let len := Z.of_nat (String.length s) in
  let start := if (i <? 0)%Z then Z.max 0 (len + i) else i in
  drop (Z.to_nat start) s.

Fixpoint lstrip_by (p : ascii -> bool) (s : string) : string :=
  match s with
  | EmptyString => EmptyString
  | String c s' => if p c then lstrip_by p s' else s
  end.

Fixpoint rstrip_by (p : ascii -> bool) (s : string) : string :=
  match s with
  | EmptyString => EmptyString
  | String c s' =>
      match rstrip_by p s' with
      | EmptyString => if p c then EmptyString else String c EmptyString
      | r => String c r
      end
  end.

(** [s.strip()] and [s.strip(chars)] for a one-character [chars]. *)
Definition strip_by (p : ascii -> bool) (s : string) : string :=
  rstrip_by p (lstrip_by p s).

Definition strip (s : string) : string := strip_by is_space s.

Definition strip_char (c : ascii) (s : string) : string :=
  strip_by (Ascii.eqb c) s.

(** [s.replace(old, new)] for a one-character [old]. *)
Fixpoint replace (old : ascii) (new : string) (s : string) : string :=
  match s with
  | EmptyString => EmptyString
  | String c s' =>
      if Ascii.eqb c old then new +:+ replace old new s'
      else String c (replace old new s')
  end.

(** *** Integers and text *)

(** The digits of a decimal literal, read left to right.  Python allows
    single underscores between digits; [prev] tells whether the previous
    character was a digit. *)
Fixpoint int_digits (acc : Z) (prev : bool) (s : string) : option Z :=
  match s with
  | EmptyString => if prev then Some acc else None
  | String c s' =>
      if is_digit c then int_digits (10 * acc + digit_value c) true s'
      else if Ascii.eqb c "_" then
             if prev then
               match s' with
               | String d _ => if is_digit d then int_digits acc false s'
                               else None
               | EmptyString => None
               end
             else None
           else None
  end.

(** The white space that [int] skips around a literal: the C locale's,
    and the non-ASCII spaces. *)
Definition is_int_space (c : ascii) : bool :=
  let n := code c in
  ((9 <=? n) && (n <=? 13) || (n =? 32) || (n =? 133) || (n =? 160))%N.

(** [int(s)] in base ten: [None] stands for [ValueError]. *)
Definition int (s : string) : option Z :=
  match strip_by is_int_space s with
  | String c r =>
      if Ascii.eqb c "-" then Z.opp <$> int_digits 0 false r
      else if Ascii.eqb c "+" then int_digits 0 false r
      else int_digits 0 false (String c r)
  | EmptyString => None
  end.

Fixpoint str_N_aux (fuel : nat) (n : N) (acc : string) : string :=
  match fuel with
  | O => acc
  | S f =>
      let acc' := String (digit_char (n mod 10)) acc in
      if (n <? 10)%N then acc' else str_N_aux f (n / 10) acc'
  end.

(** [str(n)] for a natural number: its decimal digits. *)
Definition str_N (n : N) : string :=
  str_N_aux (S (N.to_nat (N.log2 n))) n "".

(** [str(z)], the text that an f-string field [{z}] produces. *)
Definition str (z : Z) : string :=
  if (z <? 0)%Z then String "-" (str_N (Z.to_N (- z)))
  else str_N (Z.to_N z).

Fixpoint repeat_char (c : ascii) (n : nat) : string :=
  match n with
  | O => EmptyString
  | S n' => String c (repeat_char c n')
  end.

(** The format field [{z:>w}]: right-aligned in width [w]. *)
Definition rjust (w : nat) (s : string) : string :=
  repeat_char " " (w - String.length s) +:+ s.

(** The format field [{n:0wd}] for a count [n >= 0]. *)
Definition zfill (w : nat) (n : nat) : string :=
  let s := str_N (N.of_nat n) in
  repeat_char "0" (w - String.length s) +:+ s.

End Py.

(** ** The fragment of [re] used by the parser

    Both patterns of the module are sequences of character classes under
    a greedy quantifier, closed by [$] in one case.  [re_match] is the
    backtracking matcher of [re.match] on that fragment: it is anchored
    at the start of the text, each starred class first takes as many
    characters as it can and gives them back one by one when the rest of
    the pattern fails.  A successful match returns the text taken by
    each item, in pattern order. *)

Module Re.

Inductive quant := One | Star | Plus.

Inductive item :=
  | Cls (p : ascii -> bool) (q : quant)
  | Eol.

Definition lit (c : ascii) : item := Cls (Ascii.eqb c) One.

(** The class [.]: everything but a newline. *)
Definition dot (c : ascii) : bool := negb (Ascii.eqb c Py.newline).

(** Prepends a character to the text taken by the first item. *)
Definition grow (c : ascii) (r : option (list string)) : option (list string) :=
  match r with
  | Some (piece :: rest) => Some (String c piece :: rest)
  | _ => None
  end.

(** A greedy starred class followed by the continuation [k]. *)
Fixpoint star (p : ascii -> bool) (k : string -> option (list string))
    (s : string) : option (list string) :=
  let stop := cons EmptyString <$> k s in
  match s with
  | String c s' =>
      if p c then
        match grow c (star p k s') with
        | Some r => Some r
        | None => stop
        end
      else stop
  | EmptyString => stop
  end.

Fixpoint re_match (items : list item) (s : string) : option (list string) :=
  match items with
  | [] => Some []
  | Cls p One :: r =>
      match s with
      | String c s' =>
          if p c then cons (String c EmptyString) <$> re_match r s' else None
      | EmptyString => None
      end
  | Cls p Star :: r => star p (re_match r) s
  | Cls p Plus :: r =>
      match s with
      | String c s' => if p c then grow c (star p (re_match r) s') else None
      | EmptyString => None
      end
  | Eol :: r =>
      (* [$]: the end of the text, or just before a final newline *)
      match s with
      | EmptyString => cons EmptyString <$> re_match r s
      | String c EmptyString =>
          if Ascii.eqb c Py.newline then cons EmptyString <$> re_match r s
          else None
      | _ => None
      end
  end.

(** What a successful match says of the text taken by one item. *)
Definition piece_ok (it : item) (piece : string) : Prop :=
  match it with
  | Cls p One => ∃ c, piece = String c EmptyString ∧ p c = true
  | Cls p Star => Py.all_chars p piece = true
  | Cls p Plus => piece ≠ EmptyString ∧ Py.all_chars p piece = true
  | Eol => piece = EmptyString
  end.

End Re.

(** ** Exceptions

    A Python call that may raise returns an [option]; [None] is the
    exception leaving the function.  [foldM] is a [for] loop whose body
    may raise. *)

Fixpoint foldM {A B} (f : B -> A -> option B) (b : B) (l : list A) : option B :=
  match l with
  | [] => Some b
  | x :: l' => b' ← f b x; foldM f b' l'
  end.

(** ** Report parser *)

Definition lines_of (content : string) : list string :=
  Py.split Py.newline content.

(** [parse_gcov_source_path]: the text after the first [Source:] of the
    first line that contains [:Source:]. *)
Fixpoint source_path_of_lines (lines : list string) : option string :=
  match lines with
  | [] => None
  | line :: rest =>
      if Py.contains line ":Source:" then
        let idx := Py.find line "Source:" in
        if negb (idx =? -1)%Z then Some (Py.strip (Py.slice_from (idx + 7) line))
        else source_path_of_lines rest
      else source_path_of_lines rest
  end.

Definition parse_gcov_source_path (content : string) : option string :=
  source_path_of_lines (lines_of content).

(** The class [[-0-9#]]. *)
Definition is_marker (c : ascii) : bool :=
  Ascii.eqb c "-" || Py.is_digit c || Ascii.eqb c "#".

(** The pattern "^\s*([-0-9#]+):\s*(\d+):". *)
Definition coverage_pattern : list Re.item :=
  [ Re.Cls Py.is_space Re.Star; Re.Cls is_marker Re.Plus; Re.lit ":";
    Re.Cls Py.is_space Re.Star; Re.Cls Py.is_digit Re.Plus; Re.lit ":" ].

(** The two groups of [coverage_pattern]. *)
Definition coverage_groups (line : string) : option (string * string) :=
  match Re.re_match coverage_pattern line with
  | Some [_; g1; _; _; g2; _] => Some (g1, g2)
  | _ => None
  end.

(** The body of the loop of [parse_gcov_coverage]. *)
Definition coverage_step (coverage : gmap Z Z) (line : string)
    : option (gmap Z Z) :=
  match coverage_groups line with
  | None => Some coverage
  | Some (g1, g2) =>
      let cov_str := Py.strip g1 in
      line_num ← Py.int g2;
      if String.eqb cov_str "-" then Some coverage
      else if String.eqb cov_str "#####" then Some (<[line_num := 0%Z]> coverage)
      else match Py.int cov_str with
           | Some n => Some (<[line_num := n]> coverage)
           | None => Some (<[line_num := 0%Z]> coverage)
           end
  end.

Definition parse_gcov_coverage (content : string) : option (gmap Z Z) :=
  foldM coverage_step ∅ (lines_of content).

(** One element of the list returned by [parse_gcov_lines]. *)
Record gcov_line := GcovLine {
  count_str : string;
  line_num : Z;
  rest : string
}.

(** The pattern "^(\s* )([-0-9#]+)(\s* ):\s*(\d+):(.* )$", written here
    with a blank before each closing parenthesis that follows a star. *)
Definition lines_pattern : list Re.item :=
  [ Re.Cls Py.is_space Re.Star; Re.Cls is_marker Re.Plus;
    Re.Cls Py.is_space Re.Star; Re.lit ":"; Re.Cls Py.is_space Re.Star;
    Re.Cls Py.is_digit Re.Plus; Re.lit ":"; Re.Cls Re.dot Re.Star; Re.Eol ].

(** The five groups of [lines_pattern]. *)
Definition lines_groups (line : string)
    : option (string * string * string * string * string) :=
  match Re.re_match lines_pattern line with
  | Some [lead; cs; gap; _; _; ln; _; tail; _] => Some (lead, cs, gap, ln, tail)
  | _ => None
  end.

(** The record that one iteration of [parse_gcov_lines] appends. *)
Definition parse_line (line : string) : option gcov_line :=
  match lines_groups line with
  | None => Some (GcovLine "-" 0 line)
  | Some (_lead, cs, _gap, ln, tail) =>
      n ← Py.int ln; Some (GcovLine (Py.strip cs) n tail)
  end.

Definition parse_gcov_lines (content : string) : option (list gcov_line) :=
  mapM parse_line (lines_of content).

(** ** Coverage merger and cumulative reconstructor *)

(** The two sets that [write_cumulative_gcov] accumulates. *)
Record MergedCoverage := Merged {
  merged_covered : gset Z;
  merged_executable : gset Z
}.

Definition empty_merged : MergedCoverage := Merged ∅ ∅.

(** The body of the loop over [cov.items()]. *)
Definition merge_entry (ln count : Z) (m : MergedCoverage) : MergedCoverage :=
  let executable := {[ln]} ∪ merged_executable m in
  if (0 <? count)%Z then Merged ({[ln]} ∪ merged_covered m) executable
  else Merged (merged_covered m) executable.

(** Folding one ExecutionMap into the accumulated sets. *)
Definition merge_coverage (m : MergedCoverage) (cov : gmap Z Z) : MergedCoverage :=
  map_fold merge_entry m cov.

(** Folding a sequence of ExecutionMaps, starting from the empty sets. *)
Definition fold_coverage (covs : list (gmap Z Z)) : MergedCoverage :=
  foldl merge_coverage empty_merged covs.

(** The body of the loop over [gcov_paths]: the state is the merged sets
    and [template_lines]. *)
Definition cumulative_step (fs : gmap string string)
    (st : MergedCoverage * list gcov_line) (p : string)
    : option (MergedCoverage * list gcov_line) :=
  match fs !! p with
  | None => Some st
  | Some content =>
      cov ← parse_gcov_coverage content;
      let m := merge_coverage st.1 cov in
      match st.2 with
      | [] => template_lines ← parse_gcov_lines content; Some (m, template_lines)
      | _ :: _ => Some (m, st.2)
      end
  end.

Definition cumulative_prefix (m : MergedCoverage) (r : gcov_line) : string :=
  if String.eqb (count_str r) "-" then "        -"
  else if bool_decide (line_num r ∈ merged_covered m) then "        +"
  else if bool_decide (line_num r ∈ merged_executable m) then "    #####"
  else "        -".

(** One output line: the prefix, the line number right-aligned in four
    columns, and the template's text. *)
Definition cumulative_line (m : MergedCoverage) (r : gcov_line) : string :=
  cumulative_prefix m r +:+ ": " +:+ Py.rjust 4 (Py.str (line_num r))
    +:+ ":" +:+ rest r.

Definition cumulative_lines (m : MergedCoverage) (template_lines : list gcov_line)
    : list string :=
  map (cumulative_line m) template_lines.

Definition nl : string := String Py.newline EmptyString.

(** [write_cumulative_gcov]: the returned flag and the file system after
    the call. *)
Definition write_cumulative_gcov (fs : gmap string string)
    (gcov_paths : list string) (output_path : string)
    : option (bool * gmap string string) :=
  match gcov_paths with
  | [] => Some (false, fs)
  | _ :: _ =>
      st ← foldM (cumulative_step fs) (empty_merged, []) gcov_paths;
      match st.2 with
      | [] => Some (false, fs)
      | _ :: _ =>
          let out_lines := cumulative_lines st.1 st.2 in
          Some (true, <[output_path := Py.join nl out_lines +:+ nl]> fs)
      end
  end.

(** ** Tracefile exporters *)

(** Python's [a or b] on an optional text: [None] and the empty text are
    false. *)
Definition or_else (a : option string) (b : string) : string :=
  match a with
  | Some (String c s) => String c s
  | _ => b
  end.

Definition or_opt (a b : option string) : option string :=
  match a with
  | Some (String c s) => a
  | _ => b
  end.

(** [sorted(cov.keys())]. *)
Definition sorted_keys (cov : gmap Z Z) : list Z :=
  merge_sort Z.le (elements (dom cov)).

Definition da_record (cov : gmap Z Z) (ln : Z) : option string :=
  count ← cov !! ln;
  Some ("DA:" +:+ Py.str ln +:+ "," +:+ Py.str count).

Definition gcov_to_lcov_info (content : string) (source_path : option string)
    : option string :=
  let path := or_else (or_opt source_path (parse_gcov_source_path content))
                      "unknown.c" in
  cov ← parse_gcov_coverage content;
  das ← mapM (da_record cov) (sorted_keys cov);
  Some (Py.join nl (("SF:" +:+ path) :: das ++ ["end_of_record"])).

(** The value that [json.dumps] serialises. *)
#[local] Unset Elimination Schemes.
Inductive json :=
  | JStr (s : string)
  | JInt (z : Z)
  | JList (l : list json)
  | JDict (l : list (string * json)).
#[local] Set Elimination Schemes.

Definition line_entry (cov : gmap Z Z) (ln : Z) : option json :=
  count ← cov !! ln;
  Some (JDict [("line_number", JInt ln); ("function_name", JStr "");
               ("count", JInt count); ("branches", JList [])]).

Section Paths.

(** What the operating system decides: [resolve_relative root p] is the
    text of [(root / "coreutils" / "coreutils-8.32" / "obj-gcov" / p)],
    resolved and taken relative to [root], or [None] when that raises;
    [joinpath d n] is the path [d / n]. *)
Variable resolve_relative : string -> string -> option string.
Variable joinpath : string -> string -> string.

Definition normalize_gcovr_file_path (source_path workspace_root : string) : string :=
  if String.eqb source_path "" || String.eqb source_path "unknown.c"
  then or_else (Some source_path) "unknown.c"
  else match resolve_relative workspace_root source_path with
       | Some r => Py.replace "\" "/" r
       | None => source_path
       end.

Definition gcov_to_gcovr_json (content : string) (source_path : option string)
    (workspace_root : option string) : option json :=
  let raw_path := or_else (or_opt source_path (parse_gcov_source_path content))
                          "unknown.c" in
  let path := match workspace_root with
              | Some root => normalize_gcovr_file_path raw_path root
              | None => raw_path
              end in
  cov ← parse_gcov_coverage content;
  line_entries ← mapM (line_entry cov) (sorted_keys cov);
  Some (JDict [("gcovr/format_version", JStr "0.14");
               ("files", JList [JDict [("file", JStr path);
                                       ("lines", JList line_entries);
                                       ("functions", JList [])]])]).

(** What [convert_dir_to_tracefiles] writes into [out_dir]. *)
Inductive artifact :=
  | InfoFile (text : string)
  | JsonFile (j : json).

Record convert_state := ConvertState {
  info_paths : list string;
  json_paths : list string;
  idx : nat;
  written : gmap string artifact
}.

Definition is_c_source (source_path : option string) : bool :=
  match source_path with
  | Some (String c s) => Py.endswith (String c s) ".c"
  | _ => false
  end.

Definition trace_name (base_name : string) (i : nat) (ext : string) : string :=
  base_name +:+ "_" +:+ Py.zfill 5 i +:+ ext.

(** The body of the loop of [convert_dir_to_tracefiles]. *)
Definition convert_step (fs : gmap string string) (out_dir base_name : string)
    (workspace_root : option string) (only_c_sources : bool)
    (st : convert_state) (gcov_path : string) : option convert_state :=
  content ← fs !! gcov_path;
  let source_path := parse_gcov_source_path content in
  if only_c_sources && negb (is_c_source source_path) then Some st
  else
    info_content ← gcov_to_lcov_info content source_path;
    let info_path := joinpath out_dir (trace_name base_name (idx st) ".info") in
    j ← gcov_to_gcovr_json content source_path workspace_root;
    let json_path := joinpath out_dir (trace_name base_name (idx st) ".json") in
    Some (ConvertState (info_paths st ++ [info_path])
                       (json_paths st ++ [json_path])
                       (S (idx st))
                       (<[json_path := JsonFile j]>
                          (<[info_path := InfoFile info_content]> (written st)))).

(** [convert_dir_to_tracefiles]; [gcov_files] is the sorted listing of
    the reports of [gcov_dir], [out] the artifacts already in [out_dir]. *)
Definition convert_dir_to_tracefiles (fs : gmap string string)
    (gcov_files : list string) (out : gmap string artifact)
    (out_dir base_name : string) (workspace_root : option string)
    (only_c_sources : bool) : option convert_state :=
  foldM (convert_step fs out_dir base_name workspace_root only_c_sources)
        (ConvertState [] [] 0 out) gcov_files.

End Paths.

(** ** Grouping by source file *)

Definition _source_to_dirname (source_path : string) : string :=
  if String.eqb source_path "" || String.eqb source_path "unknown.c"
  then "unknown"
  else
    let s := Py.strip (Py.replace "\" "/" source_path) in
    let s := if Py.startswith s "../" then Py.drop 3 s
             else if Py.startswith s "./" then Py.drop 2 s
             else s in
    or_else (Some (Py.strip_char "_" (Py.replace "/" "_" s))) "unknown".

(** The key under which [group_gcov_paths_by_source] files a report. *)
Definition source_key (content : string) : string :=
  let source := or_else (parse_gcov_source_path content) "unknown.c" in
  Py.strip (Py.replace "\" "/" source).

Definition group_step (fs : gmap string string)
    (groups : gmap string (list string)) (p : string)
    : gmap string (list string) :=
  match fs !! p with
  | None => groups
  | Some content =>
      let key := source_key content in
      <[key := default [] (groups !! key) ++ [p]]> groups
  end.

Definition group_gcov_paths_by_source (fs : gmap string string)
    (gcov_paths : list string) : gmap string (list string) :=
  foldl (group_step fs) ∅ gcov_paths.

(** ** Specification-side definitions *)

(** The three markers of a cumulative report. *)
Inductive Marker := NonExecutable | Covered | NeverCovered.

Definition marker_prefix (k : Marker) : string :=
  match k with
  | NonExecutable => "        -"
  | Covered => "        +"
  | NeverCovered => "    #####"
  end.

(** The marker as the specification words it: decided by the merged sets
    alone. *)
Definition spec_marker (m : MergedCoverage) (r : gcov_line) : Marker :=
  if bool_decide (line_num r ∈ merged_executable m) then
    if bool_decide (line_num r ∈ merged_covered m) then Covered
    else NeverCovered
  else NonExecutable.

(** The marker with the template's own ["-"] taken into account. *)
Definition template_marker (m : MergedCoverage) (r : gcov_line) : Marker :=
  if String.eqb (count_str r) "-" then NonExecutable else spec_marker m r.

Definition report_line (k : Marker) (r : gcov_line) : string :=
  marker_prefix k +:+ ": " +:+ Py.rjust 4 (Py.str (line_num r))
    +:+ ":" +:+ rest r.

(** The invariant of a MergedCoverage. *)
Definition merged_wf (m : MergedCoverage) : Prop :=
  merged_covered m ⊆ merged_executable m.

(** The lines of an ExecutionMap with a positive count. *)
Definition covered_of (cov : gmap Z Z) : gset Z :=
  dom (filter (λ kv, (0 < kv.2)%Z) cov).

(** The count that [parse_gcov_coverage] stores for a marker other than
    ["-"]. *)
Definition marker_count (cov_str : string) : Z :=
  if String.eqb cov_str "#####" then 0%Z else default 0%Z (Py.int cov_str).

(** A line that makes [parse_gcov_coverage] store an entry for [n]:
    it matches the pattern, carries the number [n] and a marker other
    than ["-"]. *)
Definition assigns (line : string) (n : Z) (cov_str : string) : Prop :=
  ∃ g2, coverage_groups line = Some (cov_str, g2) ∧ Py.int g2 = Some n
        ∧ cov_str ≠ "-".

(** [s] does not contain the character [sep]. *)
Definition lacks (sep : ascii) (s : string) : Prop :=
  Py.all_chars (λ c, negb (Ascii.eqb c sep)) s = true.

Definition no_newline (s : string) : Prop := lacks Py.newline s.

(** Modelled from the spec: the reader of the line-trace grammar (a
    source-file declaration, one [DA:line,count] record per executable
    line, the end marker).  The repository only writes this format. *)
Definition read_da (line : string) : option (Z * Z) :=
  if Py.startswith line "DA:" then
    match Py.split "," (Py.drop 3 line) with
    | [a; b] => ln ← Py.int a; count ← Py.int b; Some (ln, count)
    | _ => None
    end
  else None.

Fixpoint read_records (lines : list string) : option (list (Z * Z)) :=
  match lines with
  | [] => None
  | l :: ls =>
      if String.eqb l "end_of_record" then
        match ls with [] => Some [] | _ :: _ => None end
      else r ← read_da l; rs ← read_records ls; Some (r :: rs)
  end.

Definition read_lcov_info (text : string) : option (string * gmap Z Z) :=
  match lines_of text with
  | sf :: records =>
      if Py.startswith sf "SF:" then
        rs ← read_records records;
        Some (Py.drop 3 sf, list_to_map rs)
      else None
  | [] => None
  end.

(** Modelled from the spec: the reader of the structured trace (one
    file entry whose [lines] array holds [line_number] and [count]).
    The repository only writes this format. *)
Fixpoint assoc (k : string) (l : list (string * json)) : option json :=
  match l with
  | [] => None
  | (k', v) :: l' => if String.eqb k k' then Some v else assoc k l'
  end.

Definition read_line_entry (j : json) : option (Z * Z) :=
  match j with
  | JDict l =>
      match assoc "line_number" l, assoc "count" l with
      | Some (JInt ln), Some (JInt count) => Some (ln, count)
      | _, _ => None
      end
  | _ => None
  end.

Definition read_gcovr_json (j : json) : option (gmap Z Z) :=
  match j with
  | JDict top =>
      match assoc "files" top with
      | Some (JList [JDict file]) =>
          match assoc "lines" file with
          | Some (JList entries) =>
              list_to_map <$> mapM read_line_entry entries
          | _ => None
          end
      | _ => None
      end
  | _ => None
  end.

(** The entry that one line makes [parse_gcov_coverage] store, if any. *)
Definition coverage_entry (line : string) : option (Z * Z) :=
  match coverage_groups line with
  | Some (g1, g2) =>
      if String.eqb g1 "-" then None
      else n ← Py.int g2; Some (n, marker_count g1)
  | None => None
  end.

Definition store_entry (cov : gmap Z Z) (e : Z * Z) : gmap Z Z :=
  <[e.1 := e.2]> cov.

(** The parsers' results, once they are known not to raise. *)
Definition coverage_of (content : string) : gmap Z Z :=
  default ∅ (parse_gcov_coverage content).

Definition records_of (content : string) : list gcov_line :=
  default [] (parse_gcov_lines content).

(** The contents of the reports of [gcov_paths] that exist, in order. *)
Definition snapshots (fs : gmap string string) (gcov_paths : list string)
    : list string :=
  omap (λ p, fs !! p) gcov_paths.

(** The [(line, count)] pairs of an ExecutionMap in ascending order of
    line number: what both exporters iterate over. *)
Definition entries (cov : gmap Z Z) : list (Z * Z) :=
  (λ ln, (ln, default 0%Z (cov !! ln))) <$> sorted_keys cov.

(** The [DA] record of one entry. *)
Definition da_line (e : Z * Z) : string :=
  "DA:" +:+ Py.str e.1 +:+ "," +:+ Py.str e.2.

(** The element of the [lines] array for one entry. *)
Definition json_entry (e : Z * Z) : json :=
  JDict [("line_number", JInt e.1); ("function_name", JStr "");
         ("count", JInt e.2); ("branches", JList [])].

(** The path that an exporter writes: the argument, else the embedded
    path, else ["unknown.c"]. *)
Definition export_path (content : string) (source_path : option string) : string :=
  or_else (or_opt source_path (parse_gcov_source_path content)) "unknown.c".

(** A report has a [Source:] line when some line contains [:Source:]. *)
Definition has_source_line (content : string) : Prop :=
  Exists (λ line, Py.contains line ":Source:" = true) (lines_of content).

(** The reports that [convert_dir_to_tracefiles] keeps by default:
    those whose embedded source path ends in [.c]. *)
Definition retained (fs : gmap string string) (p : string) : bool :=
  match fs !! p with
  | Some content => is_c_source (parse_gcov_source_path content)
  | None => false
  end.

Definition kept_files (fs : gmap string string) (gcov_files : list string)
    : list string :=
  filter (λ p, retained fs p = true) gcov_files.

(** A group only holds reports of its own key. *)
Definition groups_sound (fs : gmap string string)
    (groups : gmap string (list string)) : Prop :=
  ∀ k ps q, groups !! k = Some ps → q ∈ ps →
            ∃ content, fs !! q = Some content ∧ source_key content = k.

(** ** Further specification-side definitions *)

(** The texts taken by the items of a match, put back together. *)
Definition flatten (pieces : list string) : string :=
  foldr (λ a b, a +:+ b) "" pieces.

(** The class [p] cannot take the next character of [s]. *)
Definition stops_at (p : ascii → bool) (s : string) : Prop :=
  match s with
  | EmptyString => True
  | String c _ => p c = false
  end.

(** What is left of the text after a match: anything, unless the pattern
    ends in [$]. *)
Definition tail_ok (items : list Re.item) (tail : string) : Prop :=
  match last items with
  | Some Re.Eol => tail = "" ∨ tail = nl
  | _ => True
  end.

(** A report that exists and whose grouping key is [k]. *)
Definition keyed (fs : gmap string string) (k p : string) : bool :=
  match fs !! p with
  | Some content => String.eqb (source_key content) k
  | None => false
  end.

(** The text that [write_cumulative_gcov] writes for the merged sets [m]
    and the template records [tl]. *)
Definition cumulative_text (m : MergedCoverage) (tl : list gcov_line) : string :=
  Py.join nl (cumulative_lines m tl) +:+ nl.

(** What [parse_gcov_lines] makes of a line of a cumulative report. *)
Definition reparsed (m : MergedCoverage) (r : gcov_line) : gcov_line :=
  if String.eqb (cumulative_prefix m r) "        +"
  then GcovLine "-" 0 (cumulative_line m r)
  else GcovLine (Py.strip (cumulative_prefix m r)) (line_num r) (rest r).

(** The reports that [convert_dir_to_tracefiles] converts: all of them,
    or with [only_c_sources] those of a C source. *)
Definition converted (only_c_sources : bool) (fs : gmap string string)
    (gcov_files : list string) : list string :=
  if only_c_sources then kept_files fs gcov_files else gcov_files.

(** The line trace of the report at path [p]. *)
Definition info_of (fs : gmap string string) (p : string) : string :=
  default "" (content ← fs !! p;
              gcov_to_lcov_info content (parse_gcov_source_path content)).

(** The structured trace of the report at path [p]. *)
Definition json_of (resolve_relative : string → string → option string)
    (fs : gmap string string) (workspace_root : option string) (p : string)
    : json :=
  default (JList [])
    (content ← fs !! p;
     gcov_to_gcovr_json resolve_relative content
       (parse_gcov_source_path content) workspace_root).

(** ** The summarizer's report: [_strip_gcovr_missing_column] *)

(** [re.search]: the leftmost position at which the pattern matches;
    the result is the text before the match and the matched pieces.
    (The patterns searched for have no anchor at the start, so matching
    at a position is matching the text from that position on.) *)
Fixpoint re_search (items : list Re.item) (s : string)
    : option (string * list string) :=
  match Re.re_match items s with
  | Some pieces => Some (EmptyString, pieces)
  | None =>
      match s with
      | EmptyString => None
      | String c s' =>
          (λ m : string * list string, (String c m.1, m.2)) <$> re_search items s'
      end
  end.

(** [re.sub] for a pattern whose matches are never empty: every match,
    from left to right, is replaced by [repl] of its pieces. *)
Fixpoint re_sub (fuel : nat) (items : list Re.item)
    (repl : list string → string) (s : string) : string :=
  match fuel with
  | O => s
  | S fuel' =>
      match re_search items s with
      | None => s
      | Some (pre, pieces) =>
          let matched := flatten pieces in
          let after := Py.drop (String.length pre + String.length matched) s in
          match matched with
          | EmptyString => s
          | String _ _ => pre +:+ repl pieces +:+ re_sub fuel' items repl after
          end
      end
  end.

(** The pattern "\s+Missing\s*$". *)
Definition missing_header_pattern : list Re.item :=
  [ Re.Cls Py.is_space Re.Plus; Re.lit "M"; Re.lit "i"; Re.lit "s"; Re.lit "s";
    Re.lit "i"; Re.lit "n"; Re.lit "g"; Re.Cls Py.is_space Re.Star; Re.Eol ].

(** The class "[\d,\s\-]". *)
Definition is_missing_char (c : ascii) : bool :=
  Py.is_digit c || Ascii.eqb c "," || Py.is_space c || Ascii.eqb c "-".

(** The pattern "\d+%\s+[\d,\s\-]+$". *)
Definition data_row_pattern : list Re.item :=
  [ Re.Cls Py.is_digit Re.Plus; Re.lit "%"; Re.Cls Py.is_space Re.Plus;
    Re.Cls is_missing_char Re.Plus; Re.Eol ].

(** The pattern "(\s+\d+%)\s+[\d,\s\-]+$". *)
Definition data_row_sub_pattern : list Re.item :=
  [ Re.Cls Py.is_space Re.Plus; Re.Cls Py.is_digit Re.Plus; Re.lit "%";
    Re.Cls Py.is_space Re.Plus; Re.Cls is_missing_char Re.Plus; Re.Eol ].

(** The replacement "\1" of [data_row_sub_pattern]: its first three
    pieces. *)
Definition keep_group1 (pieces : list string) : string :=
  flatten (take 3 pieces).

(** The body of the loop of [_strip_gcovr_missing_column]. *)
Definition strip_missing_line (line : string) : string :=
  let stripped := Py.strip line in
  if Py.contains line "Missing" && Py.startswith stripped "File" then
    Py.rstrip_by Py.is_space
      (re_sub (S (String.length line)) missing_header_pattern (λ _, "") line)
  else if bool_decide (is_Some (re_search data_row_pattern line)) then
    Py.rstrip_by Py.is_space
      (re_sub (S (String.length line)) data_row_sub_pattern keep_group1 line)
  else line.

Definition _strip_gcovr_missing_column (text : string) : string :=
  Py.join nl (strip_missing_line <$> lines_of text).

(** [out] is a prefix of [line]. *)
Definition is_prefix (out line : string) : Prop :=
  ∃ suffix, line = out +:+ suffix.

(** ** Base names of the artifacts of one results directory *)

(** The base name that [aggregate_directories] and
    [get_merged_line_coverage_pct] give the directory of index [idx]
    and name [name]. *)
Definition dir_base (idx : nat) (name : string) : string :=
  Py.replace "-" "_" (Py.zfill 4 idx +:+ "_" +:+ name).

(** ** External tools and the orchestrator *)

(** What [subprocess.run] can do: raise [FileNotFoundError] (the tool is
    not installed), raise [TimeoutExpired] (no caller catches it, nor
    any other exception, which [TimedOut] stands for as well), or return
    the exit code and the captured output.  The files a tool writes are
    outside the model, and so are the directories: [mkdir] and
    [write_text] are taken to succeed. *)
Inductive run_outcome :=
  | NotInstalled
  | TimedOut
  | Exited (returncode : Z) (stdout stderr : string).

(** The texts written to the two standard streams, in order. *)
Inductive event :=
  | Out (text : string)
  | Err (text : string).

Definition dash_a (paths : list string) : list string :=
  mjoin ((λ p, ["-a"; p]) <$> paths).

Definition add_tracefile (paths : list string) : list string :=
  mjoin ((λ p, ["--add-tracefile"; p]) <$> paths).

Section Tools.

(** [run cwd argv] stands for [subprocess.run(argv, cwd=cwd, ...)]. *)
Variable run : option string → list string → run_outcome.

(** [merge_lcov]: [None] is an exception leaving the function; the
    value is Python's [Optional[bool]]. *)
Definition merge_lcov (info_paths : list string) (merged_path : string)
    : option (option bool * list event) :=
  match info_paths with
  | [] => Some (Some false, [])
  | _ :: _ =>
      let args := dash_a info_paths ++ ["-o"; merged_path] in
      match run None ("lcov" :: args) with
      | NotInstalled => Some (None, [])
      | TimedOut => None
      | Exited rc _ stderr =>
          if bool_decide (rc ≠ 0%Z)
          then Some (Some false, [Err ("lcov merge failed: " +:+ stderr +:+ nl)])
          else Some (Some true, [])
      end
  end.

(** [summary_lcov], which catches nothing. *)
Definition summary_lcov (merged_path : string) : option (bool * list event) :=
  match run None ["lcov"; "--summary"; merged_path] with
  | NotInstalled => None
  | TimedOut => None
  | Exited rc stdout stderr =>
      if bool_decide (rc ≠ 0%Z)
      then Some (false, [Err ("lcov summary failed: " +:+ stderr +:+ nl)])
      else Some (true, [Out (stdout +:+ nl)])
  end.

Definition merge_and_summary_gcovr (json_paths : list string)
    (output_dir : string) (root : option string) (hide_missing : bool)
    : option (bool * list event) :=
  match json_paths with
  | [] => Some (false, [])
  | _ :: _ =>
      let args :=
        add_tracefile json_paths
        ++ match root with Some r => ["--root"; r] | None => [] end
        ++ ["--txt"; "-"] in
      match run (Some output_dir) ("gcovr" :: args) with
      | NotInstalled =>
          Some (true,
                [Err ("gcovr not installed, skipping gcovr summary (pip install gcovr)"
                      +:+ nl)])
      | TimedOut => None
      | Exited rc stdout stderr =>
          if bool_decide (rc ≠ 0%Z)
          then Some (false, [Err ("gcovr failed: " +:+ stderr +:+ nl)])
          else
            let stdout := if hide_missing then _strip_gcovr_missing_column stdout
                          else stdout in
            Some (true, [Out (stdout +:+ nl)])
      end
  end.

(** The part of [aggregate_directories] that runs [lcov]: the value is
    what the stage leaves in [ok]. *)
Definition lcov_stage (joinpath : string → string → string)
    (use_lcov : bool) (all_info : list string) (output_dir : string)
    : option (bool * list event) :=
  match use_lcov, all_info with
  | true, _ :: _ =>
      let merged_info := joinpath output_dir "merged.info" in
      '(lcov_result, ev) ← merge_lcov all_info merged_info;
      match lcov_result with
      | None =>
          Some (true,
                ev ++ [Err ("lcov not installed, skipping lcov merge/summary (install lcov)"
                            +:+ nl)])
      | Some true =>
          '(ok, ev') ← summary_lcov merged_info;
          Some (ok, ev ++ [Out ("--- lcov merged summary ---" +:+ nl)] ++ ev')
      | Some false => Some (false, ev)
      end
  | _, _ => Some (true, [])
  end.

(** The part that runs [gcovr]. *)
Definition gcovr_stage (use_gcovr : bool) (all_json : list string)
    (output_dir workspace_root : string) : option (bool * list event) :=
  match use_gcovr, all_json with
  | true, _ :: _ =>
      '(ok, ev) ← merge_and_summary_gcovr all_json output_dir
                    (Some workspace_root) true;
      Some (ok, Out ("--- gcovr merged summary ---" +:+ nl) :: ev)
  | _, _ => Some (true, [])
  end.

End Tools.

(** What the first loop of [aggregate_directories] accumulates. *)
Record collected := Collected {
  all_info : list string;
  all_json : list string;
  all_gcov_paths : list string;
  artifacts : gmap string artifact
}.

(** The order of [sorted(by_source.items())]: by key. *)
Definition item_le (a b : string * list string) : Prop := String.le a.1 b.1.

#[global] Instance item_le_dec : RelDecision item_le.
Proof. intros a b. unfold item_le. apply _. Defined.

Definition sorted_items (by_source : gmap string (list string))
    : list (string * list string) :=
  merge_sort item_le (map_to_list by_source).

Section Orchestrator.

Variable resolve_relative : string → string → option string.
Variable joinpath : string → string → string.
(** The directories: [res_dir.exists()], [res_dir.resolve()], the last
    component of a path, and the sorted listing of the reports. *)
Variable dir_exists : string → bool.
Variable dir_resolve : string → string.
Variable dir_name : string → string.
Variable dir_gcov_files : string → list string.
Variable run : option string → list string → run_outcome.

(** The body of the loop over [enumerate(results_dirs)]. *)
Definition collect_step (fs : gmap string string)
    (workspace_root output_dir : string)
    (acc : collected) (entry : nat * string) : option collected :=
  let '(i, res_dir) := entry in
  if negb (dir_exists res_dir) then Some acc
  else
    let res_dir := dir_resolve res_dir in
    let base := dir_base i (dir_name res_dir) in
    st ← convert_dir_to_tracefiles resolve_relative joinpath fs
           (dir_gcov_files res_dir) (artifacts acc) output_dir base
           (Some workspace_root) true;
    Some (Collected (all_info acc ++ info_paths st)
                    (all_json acc ++ json_paths st)
                    (all_gcov_paths acc ++ kept_files fs (dir_gcov_files res_dir))
                    (written st)).

(** The body of the loop over the groups. *)
Definition source_step (output_dir : string)
    (st : gmap string string * list event) (item : string * list string)
    : option (gmap string string * list event) :=
  let '(source_key, paths) := item in
  if negb (Py.endswith source_key ".c") then Some st
  else
    let dir_name := _source_to_dirname source_key in
    let source_out_dir := joinpath output_dir dir_name in
    let cumulative_path := joinpath source_out_dir "cumulative.gcov.txt" in
    '(ok, fs') ← write_cumulative_gcov st.1 paths cumulative_path;
    Some (fs',
          st.2 ++ if ok : bool
                  then [Out ("  " +:+ dir_name +:+ "/cumulative.gcov.txt ("
                             +:+ Py.str (Z.of_nat (length paths)) +:+ " runs)"
                             +:+ nl)]
                  else []).

(** [aggregate_directories]: the returned flag, the file system and the
    artifacts after the call, and what was printed. *)
Definition aggregate_directories (fs : gmap string string)
    (arts : gmap string artifact) (results_dirs : list string)
    (workspace_root output_dir : string) (use_lcov use_gcovr : bool)
    : option (bool * gmap string string * gmap string artifact * list event) :=
  acc ← foldM (collect_step fs workspace_root output_dir)
              (Collected [] [] [] arts)
              (zip (seq 0 (length results_dirs)) results_dirs);
  match all_info acc, all_json acc with
  | [], [] => Some (false, fs, artifacts acc, [Err ("No .gcov.txt files found." +:+ nl)])
  | _, _ =>
      let by_source := group_gcov_paths_by_source fs (all_gcov_paths acc) in
      '(fs1, ev1) ← foldM (source_step output_dir) (fs, []) (sorted_items by_source);
      let global_cumulative_path := joinpath output_dir "cumulative.gcov.txt" in
      '(ok_global, fs2) ← write_cumulative_gcov fs1 (all_gcov_paths acc)
                            global_cumulative_path;
      let ev2 := if ok_global : bool
                 then [Out ("Global cumulative: " +:+ global_cumulative_path +:+ nl)]
                 else [] in
      '(ok1, ev3) ← lcov_stage run joinpath use_lcov (all_info acc) output_dir;
      '(ok2, ev4) ← gcovr_stage run use_gcovr (all_json acc) output_dir workspace_root;
      Some (ok1 && ok2, fs2, artifacts acc, ev1 ++ ev2 ++ ev3 ++ ev4)
  end.

(** *** What the orchestrator works on *)

(** The directories that exist, each with its position in the list. *)
Definition snapshot_dirs (results_dirs : list string) : list (nat * string) :=
  filter (λ e, dir_exists e.2 = true)
         (zip (seq 0 (length results_dirs)) results_dirs).

(** The reports of a directory that the first loop keeps. *)
Definition dir_reports (fs : gmap string string) (d : string) : list string :=
  kept_files fs (dir_gcov_files (dir_resolve d)).

(** The path of the artifact of the [j]-th kept report of a directory. *)
Definition dir_trace (output_dir ext : string) (e : nat * string) (j : nat)
    : string :=
  joinpath output_dir (trace_name (dir_base e.1 (dir_name (dir_resolve e.2))) j ext).

Definition dir_traces (fs : gmap string string) (output_dir ext : string)
    (e : nat * string) : list string :=
  dir_trace output_dir ext e <$> seq 0 (length (dir_reports fs e.2)).

Definition all_reports (fs : gmap string string) (results_dirs : list string)
    : list string :=
  mjoin ((λ e, dir_reports fs e.2) <$> snapshot_dirs results_dirs).

Definition all_traces (fs : gmap string string) (output_dir ext : string)
    (results_dirs : list string) : list string :=
  mjoin (dir_traces fs output_dir ext <$> snapshot_dirs results_dirs).

(** A directory that exists and lists a report that cannot be read. *)
Definition unreadable_dir (fs : gmap string string) (d : string) : Prop :=
  dir_exists d = true
  ∧ Exists (λ p, fs !! p = None) (dir_gcov_files (dir_resolve d)).

(** The three commands of a run and what they do. *)
Definition lcov_merge_outcome (fs : gmap string string)
    (results_dirs : list string) (output_dir : string) : run_outcome :=
  run None ("lcov" :: dash_a (all_traces fs output_dir ".info" results_dirs)
                      ++ ["-o"; joinpath output_dir "merged.info"]).

Definition lcov_summary_outcome (output_dir : string) : run_outcome :=
  run None ["lcov"; "--summary"; joinpath output_dir "merged.info"].

Definition gcovr_outcome (fs : gmap string string)
    (results_dirs : list string) (workspace_root output_dir : string)
    : run_outcome :=
  run (Some output_dir)
      ("gcovr" :: add_tracefile (all_traces fs output_dir ".json" results_dirs)
                  ++ ["--root"; workspace_root] ++ ["--txt"; "-"]).

(** The path of the cumulative report of a group. *)
Definition source_report_path (output_dir source_key : string) : string :=
  joinpath (joinpath output_dir (_source_to_dirname source_key))
           "cumulative.gcov.txt".

End Orchestrator.

(** A command that ran and exited with code 0. *)
Definition exit_ok (o : run_outcome) : bool :=
  match o with
  | Exited rc _ _ => bool_decide (rc = 0%Z)
  | _ => false
  end.

Definition absent (o : run_outcome) : bool :=
  match o with NotInstalled => true | _ => false end.



(** ** A sample run

    Two directories with the same name, one report of a C source in
    each, a directory with a report of a header only, and a directory
    that does not exist; [gcovr] is installed, [lcov] is not. *)
Module Sample.

Definition files : gmap string string :=
  {[ "r1/a.gcov.txt" :=
       "        -:    0:Source:../src/cat.c" +:+ nl +:+ "        1:    5:int main";
     "r2/a.gcov.txt" :=
       "        -:    0:Source:../src/ls.c" +:+ nl +:+ "    #####:    7:  return 1;";
     "r2/b.gcov.txt" := "        -:    0:Source:../lib/stat.h";
     "r3/h.gcov.txt" := "        -:    0:Source:../lib/stat.h" ]}.

Definition exists_ (d : string) : bool := negb (String.eqb d "r4").

Definition listing (d : string) : list string :=
  if String.eqb d "r1" then ["r1/a.gcov.txt"]
  else if String.eqb d "r2" then ["r2/a.gcov.txt"; "r2/b.gcov.txt"]
  else if String.eqb d "r3" then ["r3/h.gcov.txt"]
  else [].

Definition join (d n : string) : string := d +:+ "/" +:+ n.

Definition tools (cwd : option string) (argv : list string) : run_outcome :=
  match argv with
  | "gcovr" :: _ => Exited 0 "TOTAL 2 1 50%" ""
  | _ => NotInstalled
  end.

Definition aggregate (results_dirs : list string) :=
  aggregate_directories (λ _ _, None) join exists_ (λ d, d) (λ _, "cov") listing
    tools files ∅ results_dirs "/w" "out" true true.

End Sample.

(** * Properties *)

(** ** The merger *)

Section Merger.

Implicit Types (m : MergedCoverage) (cov : gmap Z Z).

Lemma merged_eq m1 m2 :
  merged_covered m1 = merged_covered m2 →
  merged_executable m1 = merged_executable m2 → m1 = m2.
Proof. destruct m1, m2; simpl; congruence. Qed.

Lemma elem_of_covered_of cov n :
  n ∈ covered_of cov ↔ ∃ c, cov !! n = Some c ∧ (0 < c)%Z.
Proof.
  unfold covered_of. rewrite elem_of_dom. split.
  - intros [c Hc]. apply map_lookup_filter_Some in Hc as [Hc Hpos]. eauto.
  - intros (c & Hc & Hpos). exists c. by apply map_lookup_filter_Some.
Qed.

Lemma merge_entry_covered ln count m :
  merged_covered (merge_entry ln count m) =
    if (0 <? count)%Z then {[ln]} ∪ merged_covered m else merged_covered m.
Proof. unfold merge_entry. by destruct (0 <? count)%Z. Qed.

Lemma merge_entry_executable ln count m :
  merged_executable (merge_entry ln count m) = {[ln]} ∪ merged_executable m.
Proof. unfold merge_entry. by destruct (0 <? count)%Z. Qed.

(** One ExecutionMap adds its keys to the executable lines and its keys
    of positive count to the covered lines. *)
Lemma merge_coverage_union m cov :
  merge_coverage m cov =
    Merged (merged_covered m ∪ covered_of cov) (merged_executable m ∪ dom cov).
Proof.
  unfold merge_coverage.
  apply (map_fold_weak_ind (λ r cov,
    r = Merged (merged_covered m ∪ covered_of cov) (merged_executable m ∪ dom cov))).
  - apply merged_eq; simpl.
    + unfold covered_of. rewrite map_filter_empty, dom_empty_L. set_solver.
    + rewrite dom_empty_L. set_solver.
  - intros ln count cov' r Hfresh ->. apply merged_eq.
    + rewrite merge_entry_covered. simpl. apply set_eq. intros n.
      destruct (0 <? count)%Z eqn:Hc.
      * apply Z.ltb_lt in Hc.
        rewrite !elem_of_union, elem_of_singleton, !elem_of_covered_of.
        split.
        -- intros [->|[?|(c & Hn & ?)]]; [right; exists count|by left|].
           ++ by rewrite lookup_insert_eq.
           ++ right. exists c. split; [|done].
              rewrite lookup_insert_ne; [done|]. intros ->. congruence.
        -- intros [?|(c & Hn & ?)]; [by right; left|].
           destruct (decide (ln = n)) as [->|Hne]; [by left|].
           rewrite lookup_insert_ne in Hn by done. right; right; eauto.
      * apply Z.ltb_ge in Hc.
        rewrite !elem_of_union, !elem_of_covered_of.
        split.
        -- intros [?|(c & Hn & ?)]; [by left|]. right. exists c. split; [|done].
           rewrite lookup_insert_ne; [done|]. intros ->. congruence.
        -- intros [?|(c & Hn & ?)]; [by left|].
           destruct (decide (ln = n)) as [->|Hne].
           ++ rewrite lookup_insert_eq in Hn. simplify_eq. lia.
           ++ rewrite lookup_insert_ne in Hn by done. right; eauto.
    + rewrite merge_entry_executable. simpl. rewrite dom_insert_L. set_solver.
Qed.

Lemma foldl_merge_coverage m covs :
  foldl merge_coverage m covs =
    Merged (merged_covered m ∪ ⋃ (covered_of <$> covs))
           (merged_executable m ∪ ⋃ (dom <$> covs)).
Proof.
  revert m. induction covs as [|cov covs IH]; intros m; simpl.
  - apply merged_eq; simpl; set_solver.
  - rewrite IH, merge_coverage_union. apply merged_eq; simpl; set_solver.
Qed.

Lemma covered_of_subseteq cov : covered_of cov ⊆ dom cov.
Proof. apply dom_filter_subseteq. Qed.

(** The invariant [covered ⊆ executable] is kept by every fold. *)
Lemma merge_coverage_wf m cov : merged_wf m → merged_wf (merge_coverage m cov).
Proof.
  unfold merged_wf. rewrite merge_coverage_union. simpl.
  pose proof (covered_of_subseteq cov). set_solver.
Qed.

Lemma fold_coverage_wf covs : merged_wf (fold_coverage covs).
Proof.
  unfold fold_coverage.
  assert (Hgen : ∀ m, merged_wf m → merged_wf (foldl merge_coverage m covs)).
  { induction covs as [|cov covs IH]; intros m Hm; simpl; [done|].
    by apply IH, merge_coverage_wf. }
  apply Hgen. unfold merged_wf. simpl. set_solver.
Qed.

(** The order of the folded maps does not matter. *)
Lemma foldl_merge_coverage_perm m covs1 covs2 :
  covs1 ≡ₚ covs2 → foldl merge_coverage m covs1 = foldl merge_coverage m covs2.
Proof.
  intros Hp. rewrite !foldl_merge_coverage.
  apply merged_eq; simpl; f_equal; apply set_eq; intros n;
    rewrite !elem_of_union_list; split; intros (X & HX & Hn); exists X;
    (split; [|done]); revert HX; rewrite !list_elem_of_fmap;
    intros (c & -> & Hc); exists c; (split; [done|]);
    [by rewrite <- Hp|by rewrite Hp|by rewrite <- Hp|by rewrite Hp].
Qed.

(** C1: folding ExecutionMaps is commutative ([A, B] against [B, A]),
    associative (folding [A, B, C] against folding [A] into the fold of
    [B, C]) and idempotent (folding [A] twice against once); the same
    holds from any accumulated state, not only from the empty one. *)
Theorem fold_coverage_comm_assoc_idem (A B C : gmap Z Z) :
  fold_coverage [A; B] = fold_coverage [B; A]
  ∧ fold_coverage [A; B; C] = merge_coverage (fold_coverage [B; C]) A
  ∧ fold_coverage [A; A] = fold_coverage [A]
  ∧ ∀ m, merge_coverage (merge_coverage m A) B = merge_coverage (merge_coverage m B) A
       ∧ merge_coverage (merge_coverage m A) A = merge_coverage m A.
Proof.
  unfold fold_coverage. simpl.
  split; [|split; [|split; [|intros m; split]]];
    rewrite !merge_coverage_union; apply merged_eq; simpl; set_solver.
Qed.

(** C4: folding one more ExecutionMap only grows the executable and the
    covered lines, and so does folding any number of further maps. *)
Theorem merge_coverage_monotone m cov :
  merged_executable m ⊆ merged_executable (merge_coverage m cov)
  ∧ merged_covered m ⊆ merged_covered (merge_coverage m cov)
  ∧ ∀ covs,
      merged_executable m ⊆ merged_executable (foldl merge_coverage m covs)
      ∧ merged_covered m ⊆ merged_covered (foldl merge_coverage m covs).
Proof.
  rewrite merge_coverage_union. simpl.
  split; [set_solver|split; [set_solver|]].
  intros covs. rewrite foldl_merge_coverage. simpl. set_solver.
Qed.

End Merger.

(** ** Texts, integers and lines *)

Section Strings.

Implicit Types (s t : string) (c : ascii) (p : ascii → bool).

Lemma append_nil_l s : "" +:+ s = s.
Proof. reflexivity. Qed.

Lemma append_cons c s t : String c s +:+ t = String c (s +:+ t).
Proof. reflexivity. Qed.

Lemma append_assoc s t u : (s +:+ t) +:+ u = s +:+ t +:+ u.
Proof. induction s as [|c s IH]; [done|]. by rewrite !append_cons, IH. Qed.

Lemma all_chars_app p s t :
  Py.all_chars p (s +:+ t) = Py.all_chars p s && Py.all_chars p t.
Proof.
  induction s as [|c s IH]; [done|].
  rewrite append_cons. simpl. rewrite IH. by destruct (p c).
Qed.

Lemma all_chars_weaken p q s :
  (∀ c, p c = true → q c = true) →
  Py.all_chars p s = true → Py.all_chars q s = true.
Proof.
  intros Hpq. induction s as [|c s IH]; simpl; [done|].
  intros [Hc Hs]%andb_prop. rewrite (Hpq _ Hc). by apply IH.
Qed.

(** *** Stripping *)

Lemma lstrip_by_id p s :
  Py.all_chars (λ c, negb (p c)) s = true → Py.lstrip_by p s = s.
Proof.
  destruct s as [|c s]; simpl; [done|].
  intros [Hc _]%andb_prop. by apply negb_true_iff in Hc as ->.
Qed.

Lemma rstrip_by_id p s :
  Py.all_chars (λ c, negb (p c)) s = true → Py.rstrip_by p s = s.
Proof.
  induction s as [|c s IH]; simpl; [done|].
  intros [Hc Hs]%andb_prop. rewrite (IH Hs).
  apply negb_true_iff in Hc as ->. by destruct s.
Qed.

Lemma strip_by_id p s :
  Py.all_chars (λ c, negb (p c)) s = true → Py.strip_by p s = s.
Proof.
  intros H. unfold Py.strip_by. rewrite lstrip_by_id by done.
  by apply rstrip_by_id.
Qed.

Lemma all_chars_lstrip_by p q s :
  Py.all_chars q s = true → Py.all_chars q (Py.lstrip_by p s) = true.
Proof.
  induction s as [|c s IH]; simpl; [done|].
  intros [Hc Hs]%andb_prop. destruct (p c); [by apply IH|].
  simpl. by rewrite Hc, Hs.
Qed.

Lemma all_chars_rstrip_by p q s :
  Py.all_chars q s = true → Py.all_chars q (Py.rstrip_by p s) = true.
Proof.
  induction s as [|c s IH]; simpl; [done|].
  intros [Hc Hs]%andb_prop. specialize (IH Hs).
  destruct (Py.rstrip_by p s) as [|d r].
  - destruct (p c); simpl; [done|]. by rewrite Hc.
  - simpl in *. by rewrite Hc, IH.
Qed.

Lemma all_chars_strip_by p q s :
  Py.all_chars q s = true → Py.all_chars q (Py.strip_by p s) = true.
Proof. intros. by apply all_chars_rstrip_by, all_chars_lstrip_by. Qed.

Lemma all_chars_drop q n s :
  Py.all_chars q s = true → Py.all_chars q (Py.drop n s) = true.
Proof.
  revert s. induction n as [|n IH]; intros [|c s]; simpl; try done.
  intros [_ Hs]%andb_prop. by apply IH.
Qed.

Lemma all_chars_slice_from q i s :
  Py.all_chars q s = true → Py.all_chars q (Py.slice_from i s) = true.
Proof. apply all_chars_drop. Qed.

(** *** Decimal digits *)

(** Decides a goal about character classes by cases on the comparisons
    of the character's code. *)
Ltac class_cases :=
  repeat match goal with
    | |- context [(?a <=? ?b)%N] => destruct (N.leb_spec a b)
    | |- context [(?a =? ?b)%N] => destruct (N.eqb_spec a b)
    end;
  simpl; try done; try lia.

Lemma is_digit_not_int_space c :
  Py.is_digit c = true → negb (Py.is_int_space c) = true.
Proof.
  unfold Py.is_digit, Py.is_int_space. generalize (Py.code c). intros n.
  simpl. class_cases.
Qed.

Lemma is_digit_not_space c :
  Py.is_digit c = true → negb (Py.is_space c) = true.
Proof.
  unfold Py.is_digit, Py.is_space. generalize (Py.code c). intros n.
  simpl. class_cases.
Qed.

Lemma is_digit_not_sign c :
  Py.is_digit c = true → Ascii.eqb c "-" = false ∧ Ascii.eqb c "+" = false.
Proof.
  intros H. split; apply Ascii.eqb_neq; intros ->; discriminate.
Qed.

Lemma digit_value_nonneg c : Py.is_digit c = true → (0 ≤ Py.digit_value c)%Z.
Proof.
  unfold Py.is_digit, Py.digit_value. generalize (Py.code c). intros n.
  simpl. class_cases.
Qed.

(** A run of digits is a literal: [int] cannot raise on it. *)
Lemma int_digits_all_digits s acc prev :
  Py.all_chars Py.is_digit s = true → (0 ≤ acc)%Z → s ≠ "" ∨ prev = true →
  ∃ n, Py.int_digits acc prev s = Some n ∧ (0 ≤ n)%Z.
Proof.
  revert acc prev. induction s as [|c s IH]; intros acc prev Hs Hacc Hne; simpl.
  - destruct Hne as [?| ->]; [done|]. eauto.
  - simpl in Hs. apply andb_prop in Hs as [Hc Hs]. rewrite Hc.
    apply IH; [done| |by right].
    pose proof (digit_value_nonneg c Hc). lia.
Qed.

Lemma int_digits_run s :
  Py.all_chars Py.is_digit s = true → s ≠ "" →
  ∃ n, Py.int s = Some n ∧ (0 ≤ n)%Z.
Proof.
  intros Hs Hne. unfold Py.int.
  rewrite strip_by_id
    by (eapply all_chars_weaken; [apply is_digit_not_int_space|done]).
  destruct s as [|c s]; [done|].
  pose proof Hs as [Hc _]%andb_prop.
  destruct (is_digit_not_sign c Hc) as [-> ->].
  apply int_digits_all_digits; [done|lia|by left].
Qed.

Lemma digit_char_spec d :
  (d < 10)%N →
  Py.is_digit (Py.digit_char d) = true
  ∧ Py.digit_value (Py.digit_char d) = Z.of_N d
  ∧ Re.dot (Py.digit_char d) = true
  ∧ Ascii.eqb (Py.digit_char d) "," = false.
Proof.
  intros Hd.
  assert (d = 0 ∨ d = 1 ∨ d = 2 ∨ d = 3 ∨ d = 4 ∨ d = 5 ∨ d = 6 ∨ d = 7
          ∨ d = 8 ∨ d = 9)%N as Hcases by lia.
  repeat destruct Hcases as [->|Hcases]; try subst d; by vm_compute.
Qed.

Lemma str_N_aux_S fuel n acc :
  Py.str_N_aux (S fuel) n acc =
    if (n <? 10)%N then String (Py.digit_char (n mod 10)) acc
    else Py.str_N_aux fuel (n / 10) (String (Py.digit_char (n mod 10)) acc).
Proof. reflexivity. Qed.

Lemma all_digits_str_N_aux fuel n acc :
  Py.all_chars Py.is_digit acc = true →
  Py.all_chars Py.is_digit (Py.str_N_aux fuel n acc) = true.
Proof.
  revert n acc. induction fuel as [|f IH]; intros n acc Hacc; [done|].
  rewrite str_N_aux_S.
  assert (Py.all_chars Py.is_digit (String (Py.digit_char (n mod 10)) acc) = true)
    as Hacc'.
  { simpl. rewrite Hacc.
    destruct (digit_char_spec (n mod 10)) as [-> _]; [|done].
    apply N.mod_lt. lia. }
  destruct (n <? 10)%N; [done|]. by apply IH.
Qed.

Lemma str_N_aux_nonempty fuel n acc :
  Py.str_N_aux (S fuel) n acc ≠ "".
Proof.
  revert n acc. induction fuel as [|f IH]; intros n acc;
    rewrite str_N_aux_S; destruct (n <? 10)%N; try done; apply IH.
Qed.

Lemma int_digits_digit_char prev d acc :
  (d < 10)%N →
  Py.int_digits 0 prev (String (Py.digit_char d) acc)
  = Py.int_digits (Z.of_N d) true acc.
Proof.
  intros Hd. simpl. destruct (digit_char_spec d Hd) as (-> & -> & _).
  f_equal; lia.
Qed.

Lemma int_digits_next a d acc :
  (d < 10)%N →
  Py.int_digits a true (String (Py.digit_char d) acc)
  = Py.int_digits (10 * a + Z.of_N d) true acc.
Proof.
  intros Hd. simpl. by destruct (digit_char_spec d Hd) as (-> & -> & _).
Qed.

Lemma int_digits_str_N_aux fuel n acc prev :
  (n < 2 ^ N.of_nat (S fuel))%N →
  Py.int_digits 0 prev (Py.str_N_aux (S fuel) n acc)
  = Py.int_digits (Z.of_N n) true acc.
Proof.
  revert n acc prev. induction fuel as [|f IH]; intros n acc prev Hn;
    rewrite str_N_aux_S; destruct (n <? 10)%N eqn:Hb.
  - apply N.ltb_lt in Hb. rewrite N.mod_small by done.
    by apply int_digits_digit_char.
  - apply N.ltb_ge in Hb. simpl in Hn. lia.
  - apply N.ltb_lt in Hb. rewrite N.mod_small by done.
    by apply int_digits_digit_char.
  - apply N.ltb_ge in Hb. rewrite IH.
    + assert (n mod 10 < 10)%N as Hm by (apply N.mod_lt; lia).
      rewrite int_digits_next by done. f_equal.
      pose proof (N.div_mod n 10). lia.
    + rewrite !Nat2N.inj_succ, !N.pow_succ_r' in Hn.
      rewrite Nat2N.inj_succ, N.pow_succ_r'.
      assert (n / 10 ≤ n / 2)%N.
      { apply N.div_le_compat_l. lia. }
      assert (n / 2 < 2 * 2 ^ N.of_nat f)%N.
      { apply N.Div0.div_lt_upper_bound. lia. }
      lia.
Qed.

Lemma str_N_fuel n : (n < 2 ^ N.of_nat (S (N.to_nat (N.log2 n))))%N.
Proof.
  rewrite Nat2N.inj_succ, N2Nat.id.
  destruct (decide (n = 0%N)) as [->|Hn]; [done|].
  apply N.log2_spec. lia.
Qed.

Lemma all_digits_str_N n : Py.all_chars Py.is_digit (Py.str_N n) = true.
Proof. by apply all_digits_str_N_aux. Qed.

Lemma str_N_nonempty n : Py.str_N n ≠ "".
Proof. apply str_N_aux_nonempty. Qed.

Lemma all_chars_str p z :
  (∀ c, Py.is_digit c = true → p c = true) → p "-"%char = true →
  Py.all_chars p (Py.str z) = true.
Proof.
  intros Hd Hm. unfold Py.str. destruct (z <? 0)%Z; simpl.
  - rewrite Hm. simpl. eapply all_chars_weaken; [exact Hd|apply all_digits_str_N].
  - eapply all_chars_weaken; [exact Hd|apply all_digits_str_N].
Qed.

(** Reading back a printed integer. *)
Lemma int_str z : Py.int (Py.str z) = Some z.
Proof.
  unfold Py.int.
  rewrite strip_by_id.
  2:{ apply all_chars_str; [apply is_digit_not_int_space|done]. }
  unfold Py.str. destruct (z <? 0)%Z eqn:Hz.
  - apply Z.ltb_lt in Hz. simpl.
    unfold Py.str_N. rewrite int_digits_str_N_aux by apply str_N_fuel.
    simpl. f_equal. lia.
  - apply Z.ltb_ge in Hz.
    pose proof (str_N_nonempty (Z.to_N z)) as Hne.
    pose proof (all_digits_str_N (Z.to_N z)) as Hall.
    destruct (Py.str_N (Z.to_N z)) as [|c r] eqn:Hstr; [done|].
    pose proof Hall as [Hc _]%andb_prop.
    destruct (is_digit_not_sign c Hc) as [-> ->].
    rewrite <- Hstr. unfold Py.str_N.
    rewrite int_digits_str_N_aux by apply str_N_fuel.
    simpl. f_equal. lia.
Qed.

End Strings.

(** ** Splitting and joining lines *)

Section Lines.

Implicit Types (s t : string) (c sep : ascii) (ls : list string).

Lemma split_nonempty sep s : Py.split sep s ≠ [].
Proof.
  induction s as [|c s IH]; simpl; [done|].
  destruct (Ascii.eqb c sep); [done|]. by destruct (Py.split sep s).
Qed.

Lemma split_lacks sep s : Forall (lacks sep) (Py.split sep s).
Proof.
  induction s as [|c s IH]; simpl.
  - by constructor.
  - destruct (Ascii.eqb c sep) eqn:Hc.
    + by constructor.
    + destruct (Py.split sep s) as [|l ls'].
      * constructor; [|done]. unfold lacks. simpl. by rewrite Hc.
      * inversion IH as [|? ? Hl Hls]; subst. constructor; [|done].
        unfold lacks in *. simpl. by rewrite Hc.
Qed.

Lemma split_app_sep sep s t :
  lacks sep s → Py.split sep (s +:+ String sep t) = s :: Py.split sep t.
Proof.
  unfold lacks. induction s as [|c s IH]; simpl.
  - intros _. rewrite ?append_nil_l. simpl. by rewrite Ascii.eqb_refl.
  - intros [Hc Hs]%andb_prop. rewrite ?append_cons. simpl.
    apply negb_true_iff in Hc. rewrite Hc. by rewrite (IH Hs).
Qed.

Lemma split_one sep s : lacks sep s → Py.split sep s = [s].
Proof.
  unfold lacks. induction s as [|c s IH]; simpl; [done|].
  intros [Hc Hs]%andb_prop. apply negb_true_iff in Hc. rewrite Hc.
  by rewrite (IH Hs).
Qed.

Lemma join_cons sepstr l l' ls :
  Py.join sepstr (l :: l' :: ls) = l +:+ sepstr +:+ Py.join sepstr (l' :: ls).
Proof. reflexivity. Qed.

(** Splitting a joined list of separator-free texts gives the list back. *)
Lemma split_join sep ls :
  ls ≠ [] → Forall (lacks sep) ls →
  Py.split sep (Py.join (String sep "") ls) = ls.
Proof.
  induction ls as [|l ls IH]; [done|]. intros _ Hall.
  inversion Hall as [|? ? Hl Hls]; subst.
  destruct ls as [|l' ls].
  - simpl. by apply split_one.
  - rewrite join_cons, ?append_cons, ?append_nil_l; simpl.
    rewrite split_app_sep by done. f_equal. by apply IH.
Qed.

Lemma lines_of_no_newline content :
  Forall no_newline (lines_of content).
Proof. apply split_lacks. Qed.

Lemma lines_of_join ls :
  ls ≠ [] → Forall no_newline ls → lines_of (Py.join nl ls) = ls.
Proof. apply split_join. Qed.


Lemma lines_of_join_nl ls :
  ls ≠ [] → Forall no_newline ls →
  lines_of (Py.join nl ls +:+ nl) = ls ++ [""].
Proof.
  unfold lines_of, nl.
  induction ls as [|l ls IH]; [done|]. intros _ Hall.
  inversion Hall as [|? ? Hl Hls]; subst. destruct ls as [|l' ls].
  - simpl. by rewrite split_app_sep.
  - rewrite join_cons, !append_assoc, ?append_cons, ?append_nil_l; simpl.
    rewrite split_app_sep by done. simpl. f_equal. by apply IH.
Qed.

End Lines.

(** ** The matcher *)

Section Matcher.

Implicit Types (s : string) (p : ascii → bool) (items : list Re.item).

Lemma grow_Some c r x :
  Re.grow c r = Some x →
  ∃ piece rest, r = Some (piece :: rest) ∧ x = String c piece :: rest.
Proof.
  destruct r as [[|piece rest]|]; simpl; intros; simplify_eq. eauto.
Qed.

Lemma star_pieces p k (Q : list string → Prop) s r :
  (∀ s' r', k s' = Some r' → Q r') →
  Re.star p k s = Some r →
  ∃ piece rest, r = piece :: rest ∧ Py.all_chars p piece = true ∧ Q rest.
Proof.
  intros Hk. revert r. induction s as [|c s IH]; intros r; simpl.
  - destruct (k "") as [r'|] eqn:Hr; simpl; intros; simplify_eq.
    exists "", r'. eauto.
  - assert (cons "" <$> k (String c s) = Some r →
            ∃ piece rest, r = piece :: rest ∧ Py.all_chars p piece = true ∧ Q rest)
      as Hstop.
    { destruct (k (String c s)) as [r'|] eqn:Hr; simpl; intros; simplify_eq.
      exists "", r'. eauto. }
    destruct (p c) eqn:Hc; [|done].
    destruct (Re.grow c (Re.star p k s)) as [x|] eqn:Hg; [|done].
    intros; simplify_eq.
    apply grow_Some in Hg as (piece & rest & Hs & ->).
    destruct (IH _ Hs) as (piece' & rest' & ? & Hall & HQ); simplify_eq.
    exists (String c piece'), rest'. simpl. by rewrite Hc, Hall.
Qed.

(** Each item of a matched pattern took a text of its class. *)
Lemma re_match_pieces items s pieces :
  Re.re_match items s = Some pieces → Forall2 Re.piece_ok items pieces.
Proof.
  revert s pieces. induction items as [|it items IH]; intros s pieces; simpl.
  - intros; simplify_eq. constructor.
  - destruct it as [p [| |]|].
    + destruct s as [|c s]; [done|]. destruct (p c) eqn:Hc; [|done].
      destruct (Re.re_match items s) as [r|] eqn:Hr; simpl; intros; simplify_eq.
      constructor; [|by eapply IH]. simpl. eauto.
    + intros Hs.
      eapply (star_pieces _ _ (Forall2 Re.piece_ok items)) in Hs
        as (piece & rest & -> & Hall & HQ); [|by eauto].
      by constructor.
    + destruct s as [|c s]; [done|]. destruct (p c) eqn:Hc; [|done].
      intros Hg. apply grow_Some in Hg as (piece & rest & Hs & ->).
      eapply (star_pieces _ _ (Forall2 Re.piece_ok items)) in Hs
        as (piece' & rest' & ? & Hall & HQ); [|by eauto]. simplify_eq.
      constructor; [|done]. simpl. by rewrite Hc, Hall.
    + assert (cons "" <$> Re.re_match items s = Some pieces →
              Forall2 Re.piece_ok (Re.Eol :: items) pieces) as Hend.
      { destruct (Re.re_match items s) as [r|] eqn:Hr; simpl; intros; simplify_eq.
        constructor; [done|by eapply IH]. }
      destruct s as [|c [|d s]]; [done| |done].
      destruct (Ascii.eqb c Py.newline); [done|done].
Qed.

Lemma is_marker_not_space c :
  is_marker c = true → negb (Py.is_space c) = true.
Proof.
  unfold is_marker. intros H.
  apply orb_prop in H as [H|H]; [apply orb_prop in H as [H|H]|].
  - apply Ascii.eqb_eq in H as ->. done.
  - by apply is_digit_not_space.
  - apply Ascii.eqb_eq in H as ->. done.
Qed.

Lemma strip_marker s : Py.all_chars is_marker s = true → Py.strip s = s.
Proof.
  intros H. apply strip_by_id. eapply all_chars_weaken; [|done].
  apply is_marker_not_space.
Qed.

(** The groups of the coverage pattern: a non-empty marker and a
    non-empty run of digits. *)
Lemma coverage_groups_spec line g1 g2 :
  coverage_groups line = Some (g1, g2) →
  g1 ≠ "" ∧ Py.all_chars is_marker g1 = true
  ∧ g2 ≠ "" ∧ Py.all_chars Py.is_digit g2 = true.
Proof.
  unfold coverage_groups.
  destruct (Re.re_match coverage_pattern line) as [pieces|] eqn:Hm; [|done].
  apply re_match_pieces in Hm. unfold coverage_pattern in Hm.
  repeat (match goal with
          | H : Forall2 _ (_ :: _) _ |- _ =>
              apply Forall2_cons_inv_l in H as (? & ? & ? & H & ->)
          | H : Forall2 _ [] _ |- _ => apply Forall2_nil_inv_l in H as ->
          end).
  intros; simplify_eq. simpl in *. naive_solver.
Qed.

(** The groups of the line pattern. *)
Lemma lines_groups_spec line lead cs gap ln tail :
  lines_groups line = Some (lead, cs, gap, ln, tail) →
  cs ≠ "" ∧ Py.all_chars is_marker cs = true
  ∧ ln ≠ "" ∧ Py.all_chars Py.is_digit ln = true
  ∧ no_newline tail.
Proof.
  unfold lines_groups.
  destruct (Re.re_match lines_pattern line) as [pieces|] eqn:Hm; [|done].
  apply re_match_pieces in Hm. unfold lines_pattern in Hm.
  repeat (match goal with
          | H : Forall2 _ (_ :: _) _ |- _ =>
              apply Forall2_cons_inv_l in H as (? & ? & ? & H & ->)
          | H : Forall2 _ [] _ |- _ => apply Forall2_nil_inv_l in H as ->
          end).
  intros; simplify_eq. simpl in *. unfold no_newline. naive_solver.
Qed.

End Matcher.

(** ** The report parser *)

Section Parser.

Implicit Types (line content : string) (cov : gmap Z Z).

Lemma parse_line_passthrough line :
  lines_groups line = None → parse_line line = Some (GcovLine "-" 0 line).
Proof. unfold parse_line. by intros ->. Qed.

Lemma parse_line_match line lead cs gap ln tail :
  lines_groups line = Some (lead, cs, gap, ln, tail) →
  ∃ n, Py.int ln = Some n ∧ (0 ≤ n)%Z
       ∧ parse_line line = Some (GcovLine cs n tail).
Proof.
  intros Hg. unfold parse_line. rewrite Hg.
  apply lines_groups_spec in Hg as (Hcs & Hmark & Hln & Hdig & _).
  destruct (int_digits_run ln Hdig Hln) as (n & Hn & Hpos).
  exists n. rewrite Hn. simpl. by rewrite strip_marker.
Qed.

Lemma parse_line_total line : is_Some (parse_line line).
Proof.
  destruct (lines_groups line) as [[[[[lead cs] gap] ln] tail]|] eqn:Hg.
  - destruct (parse_line_match _ _ _ _ _ _ Hg) as (n & _ & _ & ->). eauto.
  - rewrite parse_line_passthrough by done. eauto.
Qed.

Lemma parse_line_no_newline line r :
  no_newline line → parse_line line = Some r → no_newline (rest r).
Proof.
  intros Hline. unfold parse_line.
  destruct (lines_groups line) as [[[[[lead cs] gap] ln] tail]|] eqn:Hg.
  - apply lines_groups_spec in Hg as (_ & _ & _ & _ & Htail).
    destruct (Py.int ln); simpl; intros; by simplify_eq.
  - intros; by simplify_eq.
Qed.

Lemma parse_gcov_lines_total content :
  parse_gcov_lines content = Some (records_of content).
Proof.
  unfold records_of.
  destruct (parse_gcov_lines content) as [recs|] eqn:Hp; [done|].
  exfalso. assert (is_Some (parse_gcov_lines content)) as [? ?]; [|congruence].
  apply mapM_is_Some, Forall_forall. intros line _. apply parse_line_total.
Qed.

Lemma records_of_lines content :
  Forall2 (λ line r, parse_line line = Some r) (lines_of content)
          (records_of content).
Proof. apply mapM_Some, parse_gcov_lines_total. Qed.

Lemma records_of_length content :
  length (records_of content) = length (lines_of content).
Proof. symmetry. eapply Forall2_length, records_of_lines. Qed.

Lemma records_of_nonempty content : records_of content ≠ [].
Proof.
  intros H. pose proof (records_of_length content) as Hlen.
  rewrite H in Hlen. pose proof (split_nonempty Py.newline content).
  unfold lines_of in Hlen. by destruct (Py.split Py.newline content).
Qed.


(** *** The execution map *)

Lemma coverage_groups_number line g1 g2 :
  coverage_groups line = Some (g1, g2) →
  ∃ n, Py.int g2 = Some n ∧ (0 ≤ n)%Z.
Proof.
  intros (_ & _ & Hne & Hdig)%coverage_groups_spec. by apply int_digits_run.
Qed.

Lemma coverage_groups_strip line g1 g2 :
  coverage_groups line = Some (g1, g2) → Py.strip g1 = g1.
Proof.
  intros (_ & Hmark & _)%coverage_groups_spec. by apply strip_marker.
Qed.

Lemma int_sentinel : Py.int "#####" = None.
Proof. reflexivity. Qed.

(** One iteration of the loop stores the line's entry, if it has one. *)
Lemma coverage_step_entry cov line :
  coverage_step cov line =
    Some (match coverage_entry line with
          | Some e => store_entry cov e
          | None => cov
          end).
Proof.
  unfold coverage_step, coverage_entry, store_entry, marker_count.
  destruct (coverage_groups line) as [[g1 g2]|] eqn:Hg; [|done].
  rewrite (coverage_groups_strip _ _ _ Hg).
  destruct (coverage_groups_number _ _ _ Hg) as (n & -> & _). simpl.
  destruct (String.eqb g1 "-"); [done|].
  destruct (String.eqb g1 "#####"); [done|].
  by destruct (Py.int g1).
Qed.

Lemma foldM_coverage_step cov lines :
  foldM coverage_step cov lines =
    Some (foldl store_entry cov (omap coverage_entry lines)).
Proof.
  revert cov. induction lines as [|line lines IH]; intros cov; simpl; [done|].
  rewrite coverage_step_entry. simpl. rewrite IH.
  by destruct (coverage_entry line).
Qed.

Lemma parse_gcov_coverage_entries content :
  parse_gcov_coverage content =
    Some (foldl store_entry ∅ (omap coverage_entry (lines_of content))).
Proof. apply foldM_coverage_step. Qed.

Lemma parse_gcov_coverage_total content :
  parse_gcov_coverage content = Some (coverage_of content).
Proof. unfold coverage_of. by rewrite parse_gcov_coverage_entries. Qed.

Lemma elem_of_dom_store_entries (es : list (Z * Z)) cov n :
  n ∈ dom (foldl store_entry cov es) ↔ n ∈ dom cov ∨ ∃ c, (n, c) ∈ es.
Proof.
  revert cov. induction es as [|[k v] es IH]; intros cov; simpl.
  - split; [by left|]. intros [?|[c Hc]]; [done|]. by apply elem_of_nil in Hc.
  - rewrite IH. unfold store_entry. simpl. rewrite dom_insert.
    rewrite elem_of_union, elem_of_singleton. split.
    + intros [[->|?]|[c Hc]]; [right; exists v; left|by left|].
      right. exists c. by right.
    + intros [?|[c Hc]]; [by left; right|].
      apply elem_of_cons in Hc as [?|?]; simplify_eq; [by left; left|].
      right. by exists c.
Qed.

Lemma lookup_store_entries_later (es : list (Z * Z)) cov n :
  n ∉ es.*1 → foldl store_entry cov es !! n = cov !! n.
Proof.
  revert cov. induction es as [|[k v] es IH]; intros cov Hn; simpl; [done|].
  rewrite fmap_cons in Hn. apply not_elem_of_cons in Hn as [Hk Hes].
  rewrite IH by done. unfold store_entry. simpl. by rewrite lookup_insert_ne.
Qed.

Lemma lookup_store_entries_last (pre post : list (Z * Z)) cov n c :
  n ∉ post.*1 →
  foldl store_entry cov (pre ++ (n, c) :: post) !! n = Some c.
Proof.
  intros Hn. rewrite foldl_app. simpl.
  rewrite lookup_store_entries_later by done.
  unfold store_entry. simpl. by rewrite lookup_insert_eq.
Qed.

Lemma assigns_entry line n g1 :
  assigns line n g1 ↔ coverage_entry line = Some (n, marker_count g1)
                      ∧ ∃ g2, coverage_groups line = Some (g1, g2).
Proof.
  unfold assigns, coverage_entry. split.
  - intros (g2 & Hg & Hn & Hne). rewrite Hg. split; [|eauto].
    apply String.eqb_neq in Hne. rewrite Hne, Hn. done.
  - intros [He (g2 & Hg)]. rewrite Hg in He. exists g2.
    destruct (String.eqb g1 "-") eqn:Hd; [done|].
    apply String.eqb_neq in Hd.
    destruct (Py.int g2) as [k|]; simpl in He; [|done]. by simplify_eq.
Qed.

Lemma coverage_entry_assigns line n c :
  coverage_entry line = Some (n, c) →
  ∃ g1, assigns line n g1 ∧ c = marker_count g1.
Proof.
  unfold assigns, coverage_entry.
  destruct (coverage_groups line) as [[g1 g2]|] eqn:Hg; [|done].
  destruct (String.eqb g1 "-") eqn:Hd; [done|].
  apply String.eqb_neq in Hd.
  destruct (Py.int g2) as [k|] eqn:Hk; simpl; [|done].
  intros; simplify_eq. exists g1. split; [|done]. by exists g2.
Qed.

(** The domain of the execution map: the numbers of the lines that
    store an entry. *)
Lemma coverage_of_dom content n :
  n ∈ dom (coverage_of content) ↔
  ∃ line g1, line ∈ lines_of content ∧ assigns line n g1.
Proof.
  unfold coverage_of. rewrite parse_gcov_coverage_entries. simpl.
  rewrite elem_of_dom_store_entries, dom_empty, elem_of_empty. split.
  - intros [[]|[c Hc]]. apply list_elem_of_omap in Hc as (line & Hline & He).
    apply coverage_entry_assigns in He as (g1 & Ha & _). eauto.
  - intros (line & g1 & Hline & Ha). right. exists (marker_count g1).
    apply list_elem_of_omap. exists line. split; [done|].
    by apply assigns_entry in Ha as [? _].
Qed.

(** The value of the execution map at [n]: the count of the last line
    that stores an entry for [n]. *)
Lemma coverage_of_last content pre line post n g1 :
  lines_of content = pre ++ line :: post →
  assigns line n g1 →
  (∀ l g, l ∈ post → ¬ assigns l n g) →
  coverage_of content !! n = Some (marker_count g1).
Proof.
  intros Hlines Ha Hpost.
  unfold coverage_of. rewrite parse_gcov_coverage_entries. simpl.
  rewrite Hlines, omap_app. simpl.
  apply assigns_entry in Ha as [-> _].
  apply lookup_store_entries_last.
  intros Hin. apply list_elem_of_fmap in Hin as ([k c] & -> & Hin).
  apply list_elem_of_omap in Hin as (l & Hl & He).
  apply coverage_entry_assigns in He as (g & Hg & _). by eapply Hpost.
Qed.

End Parser.

(** ** Which lines the execution map records *)

Section ExecutionMap.

Implicit Types (line content : string) (cov : gmap Z Z).


Lemma marker_count_other g : Py.int g = None → marker_count g = 0%Z.
Proof.
  intros Hk. unfold marker_count. rewrite Hk. by destruct (String.eqb g "#####").
Qed.



(** C10, as the code has it: a line of the grammar whose marker is
    neither ["-"] nor the sentinel and does not read as an integer is
    stored with count [0]: by the iteration that meets it, and in the
    final map unless a later line stores the same number. *)
Theorem irregular_marker_counts_zero line n g1 cov :
  assigns line n g1 → g1 ≠ "#####" → Py.int g1 = None →
  Py.all_chars is_marker g1 = true
  ∧ coverage_step cov line = Some (<[n := 0%Z]> cov)
  ∧ ∀ content pre post,
      lines_of content = pre ++ line :: post →
      (∀ l g, l ∈ post → ¬ assigns l n g) →
      ∃ cov', parse_gcov_coverage content = Some cov'
              ∧ cov' !! n = Some 0%Z.
Proof.
  intros Ha Hsent Hint. split; [|split].
  - destruct Ha as (g2 & Hg & _). by apply coverage_groups_spec in Hg as (_ & ? & _).
  - rewrite coverage_step_entry.
    apply assigns_entry in Ha as [-> _].
    by rewrite marker_count_other.
  - intros content pre post Hlines Hpost. exists (coverage_of content).
    split; [apply parse_gcov_coverage_total|].
    rewrite (coverage_of_last _ _ _ _ _ _ Hlines Ha Hpost).
    by rewrite marker_count_other.
Qed.

Lemma irregular_marker_counts_zero_witness :
  Py.all_chars is_marker "1-2" = true
  ∧ coverage_step ∅ "1-2:10:x" = Some (<[10%Z := 0%Z]> ∅)
  ∧ ∀ content pre post,
      lines_of content = pre ++ "1-2:10:x" :: post →
      (∀ l g, l ∈ post → ¬ assigns l 10 g) →
      ∃ cov', parse_gcov_coverage content = Some cov'
              ∧ cov' !! 10%Z = Some 0%Z.
Proof.
  apply (irregular_marker_counts_zero "1-2:10:x" 10 "1-2" ∅).
  - exists "10". split; [by vm_compute|]. split; [by vm_compute|done].
  - done.
  - by vm_compute.
Defined.

(** C10 as stated fails: the marker ["-5"] is in the marker class and is
    neither ["-"], nor the sentinel, nor a non-negative integer, yet its
    line is stored with count [-5]. *)
Lemma irregular_marker_counterexample :
  let line := "-5:8:" in
  assigns line 8 "-5"
  ∧ Py.all_chars is_marker "-5" = true
  ∧ "-5" ≠ "-" ∧ "-5" ≠ "#####"
  ∧ (¬ ∃ k, Py.int "-5" = Some k ∧ (0 ≤ k)%Z)
  ∧ ∃ cov, parse_gcov_coverage line = Some cov
           ∧ cov !! 8%Z = Some (-5)%Z ∧ cov !! 8%Z ≠ Some 0%Z.
Proof.
  cbv zeta. split.
  { exists "8". split; [by vm_compute|]. split; [by vm_compute|done]. }
  split; [by vm_compute|]. split; [done|]. split; [done|]. split.
  - intros (k & Hk & Hpos). vm_compute in Hk. simplify_eq. lia.
  - exists {[8%Z := (-5)%Z]}. split; [by vm_compute|]. by split.
Qed.

End ExecutionMap.

(** ** The cumulative reconstructor *)

Section Reconstructor.

Implicit Types (m : MergedCoverage) (r : gcov_line) (fs : gmap string string).


Lemma cumulative_step_spec fs m tl p :
  cumulative_step fs (m, tl) p =
    Some (match fs !! p with
          | None => (m, tl)
          | Some content =>
              (merge_coverage m (coverage_of content),
               match tl with [] => records_of content | _ :: _ => tl end)
          end).
Proof.
  unfold cumulative_step. destruct (fs !! p) as [content|]; [|done].
  rewrite parse_gcov_coverage_total. simpl.
  destruct tl; [|done]. by rewrite parse_gcov_lines_total.
Qed.

Lemma foldM_cons {A B} (f : B → A → option B) b x l :
  foldM f b (x :: l) = f b x ≫= λ b', foldM f b' l.
Proof. reflexivity. Qed.

(** The loop over the reports never raises: it folds the execution maps
    of the reports that exist and keeps the records of the first of them
    as template. *)
Lemma foldM_cumulative_step fs m tl paths :
  foldM (cumulative_step fs) (m, tl) paths =
    Some (foldl merge_coverage m (coverage_of <$> snapshots fs paths),
          match tl, snapshots fs paths with
          | [], content :: _ => records_of content
          | _, _ => tl
          end).
Proof.
  revert m tl. induction paths as [|p paths IH]; intros m tl.
  - simpl. by destruct tl.
  - rewrite foldM_cons, cumulative_step_spec. unfold snapshots. simpl.
    destruct (fs !! p) as [content|] eqn:Hp; simpl.
    + rewrite IH. destruct tl as [|r tl]; [|done].
      pose proof (records_of_nonempty content).
      by destruct (records_of content).
    + by rewrite IH.
Qed.

(** The whole of [write_cumulative_gcov]. *)
Lemma write_cumulative_gcov_spec fs paths out :
  write_cumulative_gcov fs paths out =
    Some (match snapshots fs paths with
          | [] => (false, fs)
          | content :: _ =>
              let m := fold_coverage (coverage_of <$> snapshots fs paths) in
              (true,
               <[out := Py.join nl (cumulative_lines m (records_of content)) +:+ nl]> fs)
          end).
Proof.
  unfold write_cumulative_gcov. destruct paths as [|p paths]; [done|].
  rewrite foldM_cumulative_step.
  destruct (snapshots fs (p :: paths)) as [|content rest]; [done|].
  simpl. pose proof (records_of_nonempty content).
  by destruct (records_of content).
Qed.

Lemma no_newline_app s t : no_newline s → no_newline t → no_newline (s +:+ t).
Proof.
  unfold no_newline, lacks. intros Hs Ht. by rewrite all_chars_app, Hs, Ht.
Qed.

Lemma no_newline_repeat_char c n :
  c ≠ Py.newline → no_newline (Py.repeat_char c n).
Proof.
  intros Hc. unfold no_newline, lacks. induction n as [|n IH]; simpl; [done|].
  rewrite IH. by apply Ascii.eqb_neq in Hc as ->.
Qed.

Lemma no_newline_str z : no_newline (Py.str z).
Proof.
  apply all_chars_str; [|done]. intros c Hc.
  destruct (Ascii.eqb_spec c Py.newline) as [->|]; done.
Qed.

Lemma no_newline_cumulative_line m r :
  no_newline (rest r) → no_newline (cumulative_line m r).
Proof.
  intros Hr. unfold cumulative_line.
  apply no_newline_app.
  { unfold cumulative_prefix.
    repeat match goal with |- context [if ?b then _ else _] => destruct b end;
      done. }
  apply no_newline_app; [done|]. apply no_newline_app.
  { unfold Py.rjust. apply no_newline_app; [by apply no_newline_repeat_char|].
    apply no_newline_str. }
  by apply no_newline_app.
Qed.

Lemma no_newline_records content :
  Forall (λ r, no_newline (rest r)) (records_of content).
Proof.
  pose proof (records_of_lines content) as Hall.
  pose proof (lines_of_no_newline content) as Hnl.
  induction Hall as [|line r ls rs Hp _ IH]; [constructor|].
  inversion Hnl; subst. constructor; [|by apply IH].
  by eapply parse_line_no_newline.
Qed.


Lemma cumulative_prefix_template m r :
  merged_wf m → cumulative_prefix m r = marker_prefix (template_marker m r).
Proof.
  unfold merged_wf, cumulative_prefix, template_marker, spec_marker.
  intros Hwf. destruct (String.eqb (count_str r) "-"); [done|].
  repeat case_bool_decide; try done. set_solver.
Qed.



(** The report that [write_cumulative_gcov] writes, marker by marker:
    the sets it folds are well formed, so the previous theorem applies
    to the file it produces. *)
Lemma write_cumulative_gcov_markers fs paths out content others :
  snapshots fs paths = content :: others →
  write_cumulative_gcov fs paths out =
    Some (true,
          <[out := Py.join nl
                     (map (λ r, report_line
                                  (template_marker
                                     (fold_coverage (coverage_of <$> content :: others)) r) r)
                          (records_of content))
                   +:+ nl]> fs).
Proof.
  intros Hs. rewrite write_cumulative_gcov_spec, Hs. cbv zeta.
  assert (cumulative_lines (fold_coverage (coverage_of <$> content :: others))
            (records_of content)
          = map (λ r, report_line
                        (template_marker
                           (fold_coverage (coverage_of <$> content :: others)) r) r)
                (records_of content)) as ->; [|done].
  unfold cumulative_lines. apply map_ext. intros r.
  unfold cumulative_line, report_line.
  by rewrite cumulative_prefix_template by apply fold_coverage_wf.
Qed.


End Reconstructor.

(** ** The exporters *)

Section Exporters.

Implicit Types (cov : gmap Z Z) (content : string).

Lemma sorted_keys_perm cov : sorted_keys cov ≡ₚ elements (dom cov).
Proof. apply merge_sort_Permutation. Qed.

Lemma sorted_keys_sorted cov : Sorted Z.le (sorted_keys cov).
Proof. apply (Sorted_merge_sort Z.le). Qed.

Lemma sorted_keys_NoDup cov : NoDup (sorted_keys cov).
Proof. rewrite sorted_keys_perm. apply NoDup_elements. Qed.

Lemma elem_of_sorted_keys cov ln : ln ∈ sorted_keys cov ↔ is_Some (cov !! ln).
Proof. by rewrite sorted_keys_perm, elem_of_elements, elem_of_dom. Qed.

Lemma entries_fst cov : (entries cov).*1 = sorted_keys cov.
Proof.
  unfold entries. rewrite <- list_fmap_compose.
  rewrite <- (list_fmap_id (sorted_keys cov)) at 2. by apply list_fmap_ext.
Qed.

Lemma elem_of_entries cov ln count :
  (ln, count) ∈ entries cov ↔ cov !! ln = Some count.
Proof.
  unfold entries. rewrite list_elem_of_fmap. split.
  - intros (k & Heq & Hk). simplify_eq.
    apply elem_of_sorted_keys in Hk as [c ->]. done.
  - intros Hc. exists ln. rewrite Hc. split; [done|].
    apply elem_of_sorted_keys. eauto.
Qed.

(** The entries are the map. *)
Lemma list_to_map_entries cov : list_to_map (entries cov) = cov.
Proof.
  apply map_eq. intros ln. apply option_eq. intros count.
  rewrite <- elem_of_list_to_map.
  - apply elem_of_entries.
  - rewrite entries_fst. apply sorted_keys_NoDup.
Qed.

Lemma mapM_da_record cov :
  mapM (da_record cov) (sorted_keys cov) = Some (da_line <$> entries cov).
Proof.
  apply mapM_Some. unfold entries. rewrite <- list_fmap_compose.
  apply Forall2_fmap_r, Forall_Forall2_diag, Forall_forall.
  intros ln Hln. apply elem_of_sorted_keys in Hln as [c Hc].
  unfold da_record, da_line. simpl. by rewrite Hc.
Qed.

Lemma mapM_line_entry cov :
  mapM (line_entry cov) (sorted_keys cov) = Some (json_entry <$> entries cov).
Proof.
  apply mapM_Some. unfold entries. rewrite <- list_fmap_compose.
  apply Forall2_fmap_r, Forall_Forall2_diag, Forall_forall.
  intros ln Hln. apply elem_of_sorted_keys in Hln as [c Hc].
  unfold line_entry, json_entry. simpl. by rewrite Hc.
Qed.

(** The exporters never raise; their results, spelled out. *)
Lemma gcov_to_lcov_info_spec content source_path :
  gcov_to_lcov_info content source_path =
    Some (Py.join nl (("SF:" +:+ export_path content source_path)
                      :: (da_line <$> entries (coverage_of content))
                      ++ ["end_of_record"])).
Proof.
  unfold gcov_to_lcov_info. rewrite parse_gcov_coverage_total. simpl.
  by rewrite mapM_da_record.
Qed.

Lemma gcov_to_gcovr_json_spec resolve_relative content source_path workspace_root :
  gcov_to_gcovr_json resolve_relative content source_path workspace_root =
    Some (JDict
      [("gcovr/format_version", JStr "0.14");
       ("files", JList [JDict
          [("file", JStr
              match workspace_root with
              | Some root =>
                  normalize_gcovr_file_path resolve_relative
                    (export_path content source_path) root
              | None => export_path content source_path
              end);
           ("lines", JList (json_entry <$> entries (coverage_of content)));
           ("functions", JList [])]])]).
Proof.
  unfold gcov_to_gcovr_json. rewrite parse_gcov_coverage_total. simpl.
  by rewrite mapM_line_entry.
Qed.

(** *** Reading the line trace back *)

Lemma lacks_comma_str z : lacks "," (Py.str z).
Proof.
  apply all_chars_str; [|done]. intros c Hc.
  destruct (Ascii.eqb_spec c ",") as [->|]; done.
Qed.

Lemma read_da_line e : read_da (da_line e) = Some e.
Proof.
  destruct e as [ln count]. unfold read_da, da_line. cbn [fst snd].
  change (Py.startswith ("DA:" +:+ Py.str ln +:+ "," +:+ Py.str count) "DA:")
    with true.
  change (Py.drop 3 ("DA:" +:+ Py.str ln +:+ "," +:+ Py.str count))
    with (Py.str ln +:+ String "," (Py.str count)).
  rewrite split_app_sep by apply lacks_comma_str.
  rewrite split_one by apply lacks_comma_str.
  cbv iota. by rewrite !int_str.
Qed.

Lemma da_line_not_end e : String.eqb (da_line e) "end_of_record" = false.
Proof. reflexivity. Qed.

Lemma read_records_cons l ls :
  read_records (l :: ls) =
    if String.eqb l "end_of_record" then
      match ls with [] => Some [] | _ :: _ => None end
    else r ← read_da l; rs ← read_records ls; Some (r :: rs).
Proof. reflexivity. Qed.

Lemma read_records_da es :
  read_records ((da_line <$> es) ++ ["end_of_record"]) = Some es.
Proof.
  induction es as [|e es IH]; [done|].
  rewrite fmap_cons, <- app_comm_cons, read_records_cons.
  rewrite da_line_not_end, read_da_line, IH. done.
Qed.

Lemma no_newline_da_line e : no_newline (da_line e).
Proof.
  unfold da_line. apply no_newline_app; [done|].
  apply no_newline_app; [apply no_newline_str|].
  apply no_newline_app; [done|apply no_newline_str].
Qed.

Lemma source_path_of_lines_no_newline lines p :
  Forall no_newline lines → source_path_of_lines lines = Some p → no_newline p.
Proof.
  induction 1 as [|line lines Hline _ IH]; simpl; [done|].
  destruct (Py.contains line ":Source:"); [|done].
  destruct (negb (Py.find line "Source:" =? -1)%Z); [|done].
  intros; simplify_eq.
  by apply all_chars_strip_by, all_chars_slice_from.
Qed.

Lemma parse_gcov_source_path_no_newline content p :
  parse_gcov_source_path content = Some p → no_newline p.
Proof. apply source_path_of_lines_no_newline, lines_of_no_newline. Qed.

Lemma export_path_no_newline content source_path :
  (∀ p, source_path = Some p → no_newline p) →
  no_newline (export_path content source_path).
Proof.
  intros Hsp. unfold export_path, or_else, or_opt.
  destruct source_path as [[|c s]|].
  - destruct (parse_gcov_source_path content) as [[|c s]|] eqn:Hp; try done.
    by eapply parse_gcov_source_path_no_newline.
  - by apply Hsp.
  - destruct (parse_gcov_source_path content) as [[|c s]|] eqn:Hp; try done.
    by eapply parse_gcov_source_path_no_newline.
Qed.

Lemma read_lcov_info_join path es :
  no_newline path →
  read_lcov_info (Py.join nl (("SF:" +:+ path) :: (da_line <$> es)
                              ++ ["end_of_record"]))
  = Some (path, list_to_map es).
Proof.
  intros Hpath. unfold read_lcov_info.
  rewrite lines_of_join; [|done|].
  - change (Py.startswith ("SF:" +:+ path) "SF:") with true. cbv iota.
    rewrite read_records_da. done.
  - constructor; [by apply no_newline_app|].
    apply Forall_app. split; [|by repeat constructor].
    apply Forall_fmap, Forall_forall. intros e _. apply no_newline_da_line.
Qed.

(** *** Reading the structured trace back *)

Lemma mapM_read_line_entry es :
  mapM read_line_entry (json_entry <$> es) = Some es.
Proof.
  apply mapM_Some, Forall2_fmap_l, Forall_Forall2_diag, Forall_forall.
  by intros [ln count] _.
Qed.

(** C5: both exporters are round-trip stable.  The line trace is the
    [SF] header, one [DA:line,count] record per entry of the execution
    map in ascending order of line number, and [end_of_record]; the
    structured trace holds one [lines] element per entry in the same
    order; reading either artifact back gives the execution map of the
    snapshot. *)
Theorem exporters_round_trip resolve_relative content source_path workspace_root :
  (∀ p, source_path = Some p → no_newline p) →
  ∃ cov text j,
    parse_gcov_coverage content = Some cov
    ∧ Sorted Z.le (entries cov).*1 ∧ NoDup (entries cov).*1
    ∧ (∀ ln count, (ln, count) ∈ entries cov ↔ cov !! ln = Some count)
    ∧ gcov_to_lcov_info content source_path = Some text
    ∧ text = Py.join nl (("SF:" +:+ export_path content source_path)
                         :: (da_line <$> entries cov) ++ ["end_of_record"])
    ∧ read_lcov_info text = Some (export_path content source_path, cov)
    ∧ gcov_to_gcovr_json resolve_relative content source_path workspace_root
      = Some j
    ∧ (∃ file,
         j = JDict [("gcovr/format_version", JStr "0.14");
                    ("files", JList [JDict
                       [("file", JStr file);
                        ("lines", JList (json_entry <$> entries cov));
                        ("functions", JList [])]])])
    ∧ read_gcovr_json j = Some cov.
Proof.
  intros Hsp. eexists (coverage_of content), _, _.
  split; [apply parse_gcov_coverage_total|].
  split; [rewrite entries_fst; apply sorted_keys_sorted|].
  split; [rewrite entries_fst; apply sorted_keys_NoDup|].
  split; [apply elem_of_entries|].
  split; [apply gcov_to_lcov_info_spec|].
  split; [done|].
  split.
  { rewrite read_lcov_info_join by by apply export_path_no_newline.
    by rewrite list_to_map_entries. }
  split; [apply gcov_to_gcovr_json_spec|].
  split; [by eexists|].
  simpl. rewrite mapM_read_line_entry. simpl. by rewrite list_to_map_entries.
Qed.

Lemma exporters_round_trip_witness :
  ∃ cov text j,
    parse_gcov_coverage "    #####:    4:y" = Some cov
    ∧ Sorted Z.le (entries cov).*1 ∧ NoDup (entries cov).*1
    ∧ (∀ ln count, (ln, count) ∈ entries cov ↔ cov !! ln = Some count)
    ∧ gcov_to_lcov_info "    #####:    4:y" (Some "src/y.c") = Some text
    ∧ text = Py.join nl (("SF:" +:+ export_path "    #####:    4:y" (Some "src/y.c"))
                         :: (da_line <$> entries cov) ++ ["end_of_record"])
    ∧ read_lcov_info text
      = Some (export_path "    #####:    4:y" (Some "src/y.c"), cov)
    ∧ gcov_to_gcovr_json (λ _ _, None) "    #####:    4:y" (Some "src/y.c") None
      = Some j
    ∧ (∃ file,
         j = JDict [("gcovr/format_version", JStr "0.14");
                    ("files", JList [JDict
                       [("file", JStr file);
                        ("lines", JList (json_entry <$> entries cov));
                        ("functions", JList [])]])])
    ∧ read_gcovr_json j = Some cov.
Proof.
  apply (exporters_round_trip (λ _ _, None) "    #####:    4:y"
           (Some "src/y.c") None).
  intros p Hp. injection Hp as <-. by vm_compute.
Defined.

End Exporters.

(** ** The source resolver and the grouping *)

Section Grouping.

Implicit Types (s sub line content : string) (fs : gmap string string).

Lemma startswith_tail c s sub :
  Py.startswith s (String c sub) = true →
  ∃ s', s = String c s' ∧ Py.startswith s' sub = true.
Proof.
  destruct s as [|d s']; simpl; [done|].
  intros [Hc Hs]%andb_prop. apply Ascii.eqb_eq in Hc as ->. eauto.
Qed.

Lemma contains_tail c s sub :
  Py.contains s (String c sub) = true → Py.contains s sub = true.
Proof.
  induction s as [|d s IH].
  - simpl. by rewrite orb_false_r.
  - change (Py.contains (String d s) (String c sub))
      with (Py.startswith (String d s) (String c sub)
            || Py.contains s (String c sub)).
    change (Py.contains (String d s) sub)
      with (Py.startswith (String d s) sub || Py.contains s sub).
    intros [Hs|Hs]%orb_prop.
    + apply startswith_tail in Hs as (s' & ? & Hs'); simplify_eq.
      apply orb_true_intro. right.
      destruct s'; simpl; by rewrite Hs'.
    + rewrite (IH Hs). by rewrite orb_true_r.
Qed.

Lemma find_from_found i s sub :
  (0 ≤ i)%Z → Py.contains s sub = true → (0 ≤ Py.find_from i s sub)%Z.
Proof.
  revert i. induction s as [|d s IH]; intros i Hi.
  - simpl. rewrite orb_false_r. by intros ->.
  - change (Py.contains (String d s) sub)
      with (Py.startswith (String d s) sub || Py.contains s sub).
    change (Py.find_from i (String d s) sub)
      with (if Py.startswith (String d s) sub then i
            else Py.find_from (i + 1) s sub).
    destruct (Py.startswith (String d s) sub); [done|]. simpl.
    intros Hs. apply IH; [lia|done].
Qed.

(** The resolver finds no path exactly when no line contains
    [:Source:]. *)
Lemma source_path_of_lines_None lines :
  source_path_of_lines lines = None ↔
  Forall (λ line, Py.contains line ":Source:" = false) lines.
Proof.
  induction lines as [|line lines IH]; simpl.
  - split; [constructor|done].
  - destruct (Py.contains line ":Source:") eqn:Hc.
    + pose proof (find_from_found 0 line "Source:" ltac:(done)
                    (contains_tail _ _ _ Hc)) as Hfind.
      fold (Py.find line "Source:") in Hfind.
      destruct (Z.eqb_spec (Py.find line "Source:") (-1)) as [Heq|_]; [lia|].
      simpl. split; [done|]. intros Hall. inversion Hall; congruence.
    + rewrite IH. split; [by constructor|]. by inversion 1.
Qed.

Lemma parse_gcov_source_path_None content :
  parse_gcov_source_path content = None ↔ ¬ has_source_line content.
Proof.
  unfold parse_gcov_source_path, has_source_line.
  rewrite source_path_of_lines_None, <- Forall_Exists_neg.
  apply Forall_iff. intros line. by destruct (Py.contains line ":Source:").
Qed.

Lemma group_step_keeps fs groups p k ps q :
  groups !! k = Some ps → q ∈ ps →
  ∃ ps', group_step fs groups p !! k = Some ps' ∧ q ∈ ps'.
Proof.
  intros Hk Hq. unfold group_step. destruct (fs !! p) as [content|]; [|eauto].
  destruct (decide (source_key content = k)) as [->|Hne].
  - rewrite lookup_insert_eq, Hk. simpl. eexists. split; [done|].
    apply elem_of_app. by left.
  - rewrite lookup_insert_ne by done. eauto.
Qed.

Lemma foldl_group_step_keeps fs paths groups k ps q :
  groups !! k = Some ps → q ∈ ps →
  ∃ ps', foldl (group_step fs) groups paths !! k = Some ps' ∧ q ∈ ps'.
Proof.
  revert groups ps. induction paths as [|p paths IH]; intros groups ps Hk Hq.
  - simpl. eauto.
  - simpl. destruct (group_step_keeps fs groups p k ps q Hk Hq) as (ps' & ? & ?).
    by eapply IH.
Qed.

(** Every report that exists is filed under its source key. *)
Lemma group_gcov_paths_by_source_files fs paths groups p content :
  p ∈ paths → fs !! p = Some content →
  ∃ ps, foldl (group_step fs) groups paths !! source_key content = Some ps
        ∧ p ∈ ps.
Proof.
  revert groups. induction paths as [|q paths IH]; intros groups Hp Hc.
  - by apply elem_of_nil in Hp.
  - simpl. apply elem_of_cons in Hp as [->|Hp]; [|by apply IH].
    eapply foldl_group_step_keeps.
    + unfold group_step. rewrite Hc. apply lookup_insert_eq.
    + apply elem_of_app. right. by apply list_elem_of_singleton.
Qed.

Lemma group_step_sound fs groups p :
  groups_sound fs groups → groups_sound fs (group_step fs groups p).
Proof.
  intros Hs k ps q. unfold group_step.
  destruct (fs !! p) as [content|] eqn:Hp; [|by apply Hs].
  destruct (decide (source_key content = k)) as [<-|Hne].
  - rewrite lookup_insert_eq. intros ? Hq; simplify_eq.
    apply elem_of_app in Hq as [Hq|Hq].
    + destruct (groups !! source_key content) as [ps|] eqn:Hk; simpl in Hq.
      * by eapply Hs.
      * by apply elem_of_nil in Hq.
    + apply list_elem_of_singleton in Hq as ->. eauto.
  - rewrite lookup_insert_ne by done. by apply Hs.
Qed.

Lemma group_gcov_paths_by_source_sound fs paths :
  groups_sound fs (group_gcov_paths_by_source fs paths).
Proof.
  unfold group_gcov_paths_by_source.
  assert (∀ groups, groups_sound fs groups →
                    groups_sound fs (foldl (group_step fs) groups paths)) as Hgen.
  { induction paths as [|p paths IH]; intros groups Hg; simpl; [done|].
    by apply IH, group_step_sound. }
  apply Hgen. intros k ps q Hk. by rewrite lookup_empty in Hk.
Qed.

(** C8, as the code has it: when no line of a snapshot contains
    [:Source:] the resolver returns no path without failing; the
    grouping then files the snapshot under the literal key
    ["unknown.c"] (and under no other key), the exporters write that
    same path, and the artifact-naming operation turns that key into
    the directory name ["unknown"]. *)
Theorem missing_source_falls_back content :
  ¬ has_source_line content →
  parse_gcov_source_path content = None
  ∧ source_key content = "unknown.c"
  ∧ export_path content None = "unknown.c"
  ∧ _source_to_dirname (source_key content) = "unknown"
  ∧ ∀ fs paths p,
      p ∈ paths → fs !! p = Some content →
      (∃ ps, group_gcov_paths_by_source fs paths !! "unknown.c" = Some ps
             ∧ p ∈ ps)
      ∧ ∀ k ps, group_gcov_paths_by_source fs paths !! k = Some ps →
                p ∈ ps → k = "unknown.c".
Proof.
  intros Hnone%parse_gcov_source_path_None.
  assert (source_key content = "unknown.c") as Hkey.
  { unfold source_key. by rewrite Hnone. }
  split; [done|]. split; [done|].
  split; [unfold export_path; by rewrite Hnone|].
  split; [by rewrite Hkey|].
  intros fs paths p Hp Hc. split.
  - rewrite <- Hkey. by apply group_gcov_paths_by_source_files.
  - intros k ps Hk Hin.
    destruct (group_gcov_paths_by_source_sound fs paths k ps p Hk Hin)
      as (content' & Hc' & <-).
    congruence.
Qed.

Lemma missing_source_falls_back_witness :
  parse_gcov_source_path "int main(void);" = None
  ∧ source_key "int main(void);" = "unknown.c"
  ∧ export_path "int main(void);" None = "unknown.c"
  ∧ _source_to_dirname (source_key "int main(void);") = "unknown"
  ∧ ∀ fs paths p,
      p ∈ paths → fs !! p = Some "int main(void);" →
      (∃ ps, group_gcov_paths_by_source fs paths !! "unknown.c" = Some ps
             ∧ p ∈ ps)
      ∧ ∀ k ps, group_gcov_paths_by_source fs paths !! k = Some ps →
                p ∈ ps → k = "unknown.c".
Proof.
  apply (missing_source_falls_back "int main(void);").
  unfold has_source_line. change (lines_of "int main(void);") with ["int main(void);"].
  intros H. apply Exists_cons in H as [H|H]; [by vm_compute in H|].
  by apply Exists_nil in H.
Defined.

(** C8 as stated fails: a snapshot without a [Source:] line is grouped
    under ["unknown.c"], and the key ["unknown"] holds nothing. *)
Lemma unknown_key_counterexample :
  let content := "int main(void);" in
  let fs : gmap string string := {[ "run/a.gcov.txt" := content ]} in
  ¬ has_source_line content
  ∧ parse_gcov_source_path content = None
  ∧ source_key content = "unknown.c"
  ∧ group_gcov_paths_by_source fs ["run/a.gcov.txt"]
    = {[ "unknown.c" := ["run/a.gcov.txt"] ]}
  ∧ group_gcov_paths_by_source fs ["run/a.gcov.txt"] !! "unknown" = None.
Proof.
  cbv zeta. split.
  { unfold has_source_line.
    change (lines_of "int main(void);") with ["int main(void);"].
    intros H. apply Exists_cons in H as [H|H]; [by vm_compute in H|].
    by apply Exists_nil in H. }
  split; [by vm_compute|]. split; [by vm_compute|].
  split; by vm_compute.
Qed.

End Grouping.

(** ** The directory converter *)

Section Converter.

Variable resolve_relative : string → string → option string.
Variable joinpath : string → string → string.
Variable fs : gmap string string.
Variables out_dir base_name : string.
Variable workspace_root : option string.

Implicit Types (st : convert_state) (p content : string).

#[local] Abbreviation step := (convert_step resolve_relative joinpath fs out_dir base_name
                    workspace_root true).
#[local] Abbreviation info_name := (λ i, joinpath out_dir (trace_name base_name i ".info")).
#[local] Abbreviation json_name := (λ i, joinpath out_dir (trace_name base_name i ".json")).

Lemma convert_step_skip st p content :
  fs !! p = Some content →
  is_c_source (parse_gcov_source_path content) = false →
  step st p = Some st.
Proof.
  intros Hp Hc. unfold convert_step. rewrite Hp. simpl. by rewrite Hc.
Qed.

Lemma convert_step_keep st p content :
  fs !! p = Some content →
  is_c_source (parse_gcov_source_path content) = true →
  ∃ info j,
    step st p =
      Some (ConvertState (info_paths st ++ [info_name (idx st)])
                         (json_paths st ++ [json_name (idx st)])
                         (S (idx st))
                         (<[json_name (idx st) := JsonFile j]>
                            (<[info_name (idx st) := InfoFile info]> (written st)))).
Proof.
  intros Hp Hc. unfold convert_step. rewrite Hp. simpl. rewrite Hc. simpl.
  rewrite gcov_to_lcov_info_spec, gcov_to_gcovr_json_spec. simpl. eauto.
Qed.

Lemma kept_files_cons p files :
  kept_files fs (p :: files) =
    if retained fs p then p :: kept_files fs files else kept_files fs files.
Proof.
  unfold kept_files. rewrite filter_cons.
  destruct (retained fs p); by case_decide.
Qed.

Lemma foldM_convert_step files st :
  Forall (λ p, is_Some (fs !! p)) files →
  ∃ st',
    foldM step st files = Some st'
    ∧ foldM step st (kept_files fs files) = Some st'
    ∧ idx st' = (idx st + length (kept_files fs files))%nat
    ∧ info_paths st' =
        info_paths st ++ (info_name <$> seq (idx st) (length (kept_files fs files)))
    ∧ json_paths st' =
        json_paths st ++ (json_name <$> seq (idx st) (length (kept_files fs files)))
    ∧ dom (written st') =
        dom (written st)
        ∪ list_to_set (info_name <$> seq (idx st) (length (kept_files fs files)))
        ∪ list_to_set (json_name <$> seq (idx st) (length (kept_files fs files))).
Proof.
  intros Hall. revert st.
  induction Hall as [|p files [content Hp] _ IH]; intros st.
  - exists st. simpl. rewrite !app_nil_r, Nat.add_0_r.
    repeat split; try done. set_solver.
  - rewrite kept_files_cons.
    assert (retained fs p = is_c_source (parse_gcov_source_path content)) as ->.
    { unfold retained. by rewrite Hp. }
    destruct (is_c_source (parse_gcov_source_path content)) eqn:Hc.
    + destruct (convert_step_keep st p content Hp Hc) as (info & j & Hstep).
      rewrite !foldM_cons, Hstep. simpl.
      destruct (IH (ConvertState (info_paths st ++ [info_name (idx st)])
                      (json_paths st ++ [json_name (idx st)]) (S (idx st))
                      (<[json_name (idx st) := JsonFile j]>
                         (<[info_name (idx st) := InfoFile info]> (written st)))))
        as (st' & H1 & H2 & H3 & H4 & H5 & H6).
      simpl in *. exists st'. rewrite H1, H2, H3, H4, H5, H6.
      rewrite <- !app_assoc. simpl.
      repeat split; try done; try lia.
      rewrite !dom_insert_L. set_solver.
    + rewrite foldM_cons, (convert_step_skip st p content Hp Hc). simpl.
      apply IH.
Qed.

End Converter.

(** C9: with the default [only_c_sources] a snapshot whose embedded
    source path is missing or does not end in [.c] changes nothing: the
    iteration that meets it leaves the lists, the index and the written
    artifacts as they were.  The conversion of a directory is therefore
    the conversion of its retained snapshots alone, which receive the
    consecutive indices [0], [1], ... in order, and nothing but their
    [.info] and [.json] artifacts is written. *)
Theorem convert_skips_other_sources resolve_relative joinpath
    (fs : gmap string string) gcov_files out out_dir base_name workspace_root :
  Forall (λ p, is_Some (fs !! p)) gcov_files →
  (∀ st p content,
     fs !! p = Some content →
     is_c_source (parse_gcov_source_path content) = false →
     convert_step resolve_relative joinpath fs out_dir base_name workspace_root
       true st p = Some st)
  ∧ ∃ st,
      convert_dir_to_tracefiles resolve_relative joinpath fs gcov_files out
        out_dir base_name workspace_root true = Some st
      ∧ convert_dir_to_tracefiles resolve_relative joinpath fs
          (kept_files fs gcov_files) out out_dir base_name workspace_root true
        = Some st
      ∧ idx st = length (kept_files fs gcov_files)
      ∧ info_paths st =
          (λ i, joinpath out_dir (trace_name base_name i ".info"))
            <$> seq 0 (length (kept_files fs gcov_files))
      ∧ json_paths st =
          (λ i, joinpath out_dir (trace_name base_name i ".json"))
            <$> seq 0 (length (kept_files fs gcov_files))
      ∧ dom (written st) =
          dom out ∪ list_to_set (info_paths st) ∪ list_to_set (json_paths st).
Proof.
  intros Hall. split; [apply convert_step_skip|].
  destruct (foldM_convert_step resolve_relative joinpath fs out_dir base_name
              workspace_root gcov_files (ConvertState [] [] 0 out) Hall)
    as (st & H1 & H2 & H3 & H4 & H5 & H6).
  simpl in *. exists st. unfold convert_dir_to_tracefiles.
  rewrite H1, H2, H3, H4, H5, H6. done.
Qed.

Lemma convert_skips_other_sources_witness :
  let fs : gmap string string :=
    {[ "a.gcov.txt" := "        -:    0:Source:../src/cat.c";
       "b.gcov.txt" := "        -:    0:Source:../lib/stat.h";
       "c.gcov.txt" := "        1:    7:x";
       "d.gcov.txt" := "        -:    0:Source:../src/ls.c" ]} in
  let files := ["a.gcov.txt"; "b.gcov.txt"; "c.gcov.txt"; "d.gcov.txt"] in
  let joinpath := λ d n, d +:+ "/" +:+ n in
  kept_files fs files = ["a.gcov.txt"; "d.gcov.txt"]
  ∧ ∃ st,
      convert_dir_to_tracefiles (λ _ _, None) joinpath fs files ∅ "out" "trace"
        None true = Some st
      ∧ idx st = 2%nat
      ∧ info_paths st = ["out/trace_00000.info"; "out/trace_00001.info"]
      ∧ json_paths st = ["out/trace_00000.json"; "out/trace_00001.json"].
Proof.
  cbv zeta. split; [by vm_compute|].
  destruct (convert_skips_other_sources (λ _ _, None) (λ d n, d +:+ "/" +:+ n)
              {[ "a.gcov.txt" := "        -:    0:Source:../src/cat.c";
                 "b.gcov.txt" := "        -:    0:Source:../lib/stat.h";
                 "c.gcov.txt" := "        1:    7:x";
                 "d.gcov.txt" := "        -:    0:Source:../src/ls.c" ]}
              ["a.gcov.txt"; "b.gcov.txt"; "c.gcov.txt"; "d.gcov.txt"]
              ∅ "out" "trace" None)
    as [_ (st & H1 & _ & H3 & H4 & H5 & _)].
  { repeat constructor; by vm_compute; eauto. }
  exists st. split; [exact H1|]. split; [exact H3|]. split; [exact H4|exact H5].
Defined.

(** ** More on the matcher: what a match takes, and when it succeeds *)

Section MatcherShape.

Implicit Types (s t piece tail : string) (p : ascii → bool).

Lemma append_nil_r s : s +:+ "" = s.
Proof. induction s as [|c s IH]; [done|]. by rewrite append_cons, IH. Qed.

Lemma append_inv_head s t1 t2 : s +:+ t1 = s +:+ t2 → t1 = t2.
Proof.
  induction s as [|c s IH]; [done|]. rewrite !append_cons.
  intros; simplify_eq. by apply IH.
Qed.

Lemma flatten_cons piece (rest : list string) :
  flatten (piece :: rest) = piece +:+ flatten rest.
Proof. reflexivity. Qed.

Lemma star_decompose p k (Q : string → list string → Prop) s r :
  (∀ s' r', k s' = Some r' → Q s' r') →
  Re.star p k s = Some r →
  ∃ piece rest s', r = piece :: rest ∧ s = piece +:+ s' ∧ Q s' rest.
Proof.
  intros Hk. revert r. induction s as [|c s IH]; intros r; simpl.
  - destruct (k "") as [r'|] eqn:Hr; simpl; intros; simplify_eq.
    exists "", r', "". eauto.
  - assert (cons "" <$> k (String c s) = Some r →
            ∃ piece rest s', r = piece :: rest ∧ String c s = piece +:+ s'
                             ∧ Q s' rest) as Hstop.
    { destruct (k (String c s)) as [r'|] eqn:Hr; simpl; intros; simplify_eq.
      exists "", r', (String c s). eauto. }
    destruct (p c) eqn:Hc; [|done].
    destruct (Re.grow c (Re.star p k s)) as [x|] eqn:Hg; [|done].
    intros; simplify_eq.
    apply grow_Some in Hg as (piece & rest & Hs & ->).
    destruct (IH _ Hs) as (piece' & rest' & s' & ? & -> & HQ); simplify_eq.
    exists (String c piece'), rest', s'. by rewrite append_cons.
Qed.

(** The pieces of a match are a prefix of the text, and a pattern that
    ends in [$] leaves at most a final newline. *)
Lemma re_match_decompose items s pieces :
  Re.re_match items s = Some pieces →
  ∃ tail, s = flatten pieces +:+ tail ∧ tail_ok items tail.
Proof.
  revert s pieces. induction items as [|it items IH]; intros s pieces.
  - simpl. intros; simplify_eq. by exists s.
  - assert (∀ tail, tail_ok items tail → it ≠ Re.Eol ∨ items ≠ [] →
                    tail_ok (it :: items) tail) as Hlast.
    { intros tail Ht Hor. unfold tail_ok in *.
      destruct items as [|it' items']; [|done].
      destruct Hor as [?|?]; [|done]. by destruct it. }
    simpl. destruct it as [p [| |]|].
    + destruct s as [|c s]; [done|]. destruct (p c) eqn:Hc; [|done].
      destruct (Re.re_match items s) as [r|] eqn:Hr; simpl; intros; simplify_eq.
      destruct (IH _ _ Hr) as (tail & -> & Ht). exists tail.
      split; [by rewrite flatten_cons, !append_cons|].
      apply Hlast; [done|by left].
    + intros Hs.
      eapply (star_decompose _ _
                (λ s' r', ∃ tail, s' = flatten r' +:+ tail ∧ tail_ok items tail))
        in Hs as (piece & rest & s' & -> & -> & tail & -> & Ht); [|by eauto].
      exists tail. rewrite flatten_cons, append_assoc. split; [done|].
      apply Hlast; [done|by left].
    + destruct s as [|c s]; [done|]. destruct (p c) eqn:Hc; [|done].
      intros Hg. apply grow_Some in Hg as (piece & rest & Hs & ->).
      eapply (star_decompose _ _
                (λ s' r', ∃ tail, s' = flatten r' +:+ tail ∧ tail_ok items tail))
        in Hs as (piece' & rest' & s' & ? & -> & tail & -> & Ht); [|by eauto].
      simplify_eq. exists tail. rewrite flatten_cons, !append_cons, append_assoc.
      split; [done|]. apply Hlast; [done|by left].
    + assert (cons "" <$> Re.re_match items s = Some pieces →
              s = "" ∨ s = nl →
              ∃ tail, s = flatten pieces +:+ tail ∧ tail_ok (Re.Eol :: items) tail)
        as Hend.
      { destruct (Re.re_match items s) as [r|] eqn:Hr; simpl; [|done].
        intros Hp Hsn. injection Hp as <-.
        destruct (IH _ _ Hr) as (tail & Hs & Ht). exists tail.
        rewrite flatten_cons, append_nil_l.
        split; [done|]. destruct items as [|it' items']; [|done].
        simpl in Hr. injection Hr as <-.
        change (s = tail) in Hs. subst tail. exact Hsn. }
      destruct s as [|c [|d s]]; [by auto| |done].
      destruct (Ascii.eqb_spec c Py.newline) as [->|]; [by auto|done].
Qed.

(** A starred class that takes a whole run of its characters, after
    which it cannot go on, never has to give any back. *)
Lemma star_greedy p k piece rest r :
  Py.all_chars p piece = true → stops_at p rest → k rest = Some r →
  Re.star p k (piece +:+ rest) = Some (piece :: r).
Proof.
  intros Hall Hstop Hk. induction piece as [|c piece IH].
  - rewrite append_nil_l. destruct rest as [|c rest]; simpl.
    + by rewrite Hk.
    + simpl in Hstop. by rewrite Hstop, Hk.
  - simpl in Hall. apply andb_prop in Hall as [Hc Hall].
    rewrite append_cons. simpl. by rewrite Hc, (IH Hall).
Qed.

Lemma plus_greedy p k c piece rest r :
  p c = true → Py.all_chars p piece = true → stops_at p rest → k rest = Some r →
  Re.grow c (Re.star p k (piece +:+ rest)) = Some (String c piece :: r).
Proof. intros Hc Hall Hstop Hk. by rewrite (star_greedy _ _ _ _ r). Qed.

(** Two ways of cutting a text after a run of the class [p] agree. *)
Lemma span_unique p a b a' b' :
  a +:+ b = a' +:+ b' →
  Py.all_chars p a = true → Py.all_chars p a' = true →
  stops_at p b → stops_at p b' →
  a = a' ∧ b = b'.
Proof.
  revert a'. induction a as [|c a IH]; intros [|c' a'] Heq Ha Ha' Hb Hb'.
  - done.
  - rewrite append_nil_l, append_cons in Heq. subst b. simpl in *.
    apply andb_prop in Ha' as [Hc _]. congruence.
  - rewrite append_nil_l, append_cons in Heq. subst b'. simpl in *.
    apply andb_prop in Ha as [Hc _]. congruence.
  - rewrite !append_cons in Heq. injection Heq as -> Heq. simpl in *.
    apply andb_prop in Ha as [_ Ha]. apply andb_prop in Ha' as [_ Ha'].
    destruct (IH a' Heq Ha Ha' Hb Hb') as [-> ->]. done.
Qed.

Lemma stops_at_app p s t :
  s ≠ "" → stops_at p s → stops_at p (s +:+ t).
Proof. by destruct s. Qed.

Lemma stops_at_marker_space s :
  s ≠ "" → Py.all_chars is_marker s = true → stops_at Py.is_space s.
Proof.
  destruct s as [|c s]; [done|]. simpl. intros _ [Hc _]%andb_prop.
  by apply negb_true_iff, is_marker_not_space.
Qed.

Lemma stops_at_digit_space s :
  s ≠ "" → Py.all_chars Py.is_digit s = true → stops_at Py.is_space s.
Proof.
  destruct s as [|c s]; [done|]. simpl. intros _ [Hc _]%andb_prop.
  by apply negb_true_iff, is_digit_not_space.
Qed.

Lemma is_space_not_marker c : Py.is_space c = true → is_marker c = false.
Proof.
  intros Hs. destruct (is_marker c) eqn:Hm; [|done].
  apply is_marker_not_space in Hm. by rewrite Hs in Hm.
Qed.

Lemma stops_at_space_marker s :
  Py.all_chars Py.is_space s = true → stops_at is_marker s.
Proof.
  destruct s as [|c s]; [done|]. simpl. intros [Hc _]%andb_prop.
  by apply is_space_not_marker.
Qed.

End MatcherShape.

(** ** The two line patterns, spelled out *)

Section Patterns.

Implicit Types (line lead cs gap sp ln tail : string).

Lemma piece_ok_lit c piece :
  Re.piece_ok (Re.lit c) piece → piece = String c "".
Proof. intros (d & -> & Hd). by apply Ascii.eqb_eq in Hd as <-. Qed.

(** A line that the coverage pattern matches is made of white space, the
    marker, a colon, white space, the digits, a colon and a rest. *)
Lemma coverage_groups_shape line g1 g2 :
  coverage_groups line = Some (g1, g2) →
  ∃ lead sp tail,
    line = lead +:+ g1 +:+ ":" +:+ sp +:+ g2 +:+ ":" +:+ tail
    ∧ Py.all_chars Py.is_space lead = true
    ∧ Py.all_chars Py.is_space sp = true.
Proof.
  unfold coverage_groups.
  destruct (Re.re_match coverage_pattern line) as [pieces|] eqn:Hm; [|done].
  destruct (re_match_decompose _ _ _ Hm) as (tail & Hline & _).
  apply re_match_pieces in Hm. unfold coverage_pattern in Hm.
  apply Forall2_cons_inv_l in Hm as (lead & ? & Hlead & Hm & ->).
  apply Forall2_cons_inv_l in Hm as (cs & ? & _ & Hm & ->).
  apply Forall2_cons_inv_l in Hm as (c1 & ? & ->%piece_ok_lit & Hm & ->).
  apply Forall2_cons_inv_l in Hm as (sp & ? & Hsp & Hm & ->).
  apply Forall2_cons_inv_l in Hm as (ln & ? & _ & Hm & ->).
  apply Forall2_cons_inv_l in Hm as (c2 & ? & ->%piece_ok_lit & Hm & ->).
  apply Forall2_nil_inv_l in Hm as ->.
  intros; simplify_eq. exists lead, sp, tail. split; [|done].
  rewrite !flatten_cons. change (flatten []) with "".
  by rewrite !append_assoc, ?append_nil_l.
Qed.

(** The same for the line pattern, which also allows white space between
    the marker and its colon and reaches the end of the line. *)
Lemma lines_groups_shape line lead cs gap ln tail :
  lines_groups line = Some (lead, cs, gap, ln, tail) →
  ∃ sp e,
    line = lead +:+ cs +:+ gap +:+ ":" +:+ sp +:+ ln +:+ ":" +:+ tail +:+ e
    ∧ (e = "" ∨ e = nl)
    ∧ Py.all_chars Py.is_space lead = true
    ∧ Py.all_chars Py.is_space gap = true
    ∧ Py.all_chars Py.is_space sp = true.
Proof.
  unfold lines_groups.
  destruct (Re.re_match lines_pattern line) as [pieces|] eqn:Hm; [|done].
  destruct (re_match_decompose _ _ _ Hm) as (e & Hline & He).
  apply re_match_pieces in Hm. unfold lines_pattern in Hm.
  apply Forall2_cons_inv_l in Hm as (lead' & ? & Hlead & Hm & ->).
  apply Forall2_cons_inv_l in Hm as (cs' & ? & _ & Hm & ->).
  apply Forall2_cons_inv_l in Hm as (gap' & ? & Hgap & Hm & ->).
  apply Forall2_cons_inv_l in Hm as (c1 & ? & ->%piece_ok_lit & Hm & ->).
  apply Forall2_cons_inv_l in Hm as (sp & ? & Hsp & Hm & ->).
  apply Forall2_cons_inv_l in Hm as (ln' & ? & _ & Hm & ->).
  apply Forall2_cons_inv_l in Hm as (c2 & ? & ->%piece_ok_lit & Hm & ->).
  apply Forall2_cons_inv_l in Hm as (tail' & ? & _ & Hm & ->).
  apply Forall2_cons_inv_l in Hm as (eol & ? & Heol & Hm & ->).
  apply Forall2_nil_inv_l in Hm as ->.
  simpl in Heol. subst eol.
  intros; simplify_eq. exists sp, e. split; [|done].
  rewrite !flatten_cons. change (flatten []) with "".
  by rewrite !append_assoc, ?append_nil_l.
Qed.

Lemma colon_facts :
  Py.is_space ":" = false ∧ is_marker ":" = false ∧ Py.is_digit ":" = false.
Proof. done. Qed.

(** Conversely, a line of that make-up is matched, with these groups. *)
Lemma lines_groups_intro lead cs gap sp ln tail :
  Py.all_chars Py.is_space lead = true →
  cs ≠ "" → Py.all_chars is_marker cs = true →
  Py.all_chars Py.is_space gap = true →
  Py.all_chars Py.is_space sp = true →
  ln ≠ "" → Py.all_chars Py.is_digit ln = true →
  no_newline tail →
  lines_groups (lead +:+ cs +:+ gap +:+ ":" +:+ sp +:+ ln +:+ ":" +:+ tail)
  = Some (lead, cs, gap, ln, tail).
Proof.
  intros Hlead Hcs Hmark Hgap Hsp Hln Hdig Htail.
  unfold lines_groups, lines_pattern.
  set (k8 := Re.re_match [Re.Eol]).
  set (k7 := Re.re_match [Re.Cls Re.dot Re.Star; Re.Eol]).
  set (k6 := Re.re_match [Re.lit ":"; Re.Cls Re.dot Re.Star; Re.Eol]).
  set (k5 := Re.re_match [Re.Cls Py.is_digit Re.Plus; Re.lit ":";
                          Re.Cls Re.dot Re.Star; Re.Eol]).
  set (k4 := Re.re_match [Re.Cls Py.is_space Re.Star;
                          Re.Cls Py.is_digit Re.Plus; Re.lit ":";
                          Re.Cls Re.dot Re.Star; Re.Eol]).
  set (k3 := Re.re_match [Re.lit ":"; Re.Cls Py.is_space Re.Star;
                          Re.Cls Py.is_digit Re.Plus; Re.lit ":";
                          Re.Cls Re.dot Re.Star; Re.Eol]).
  set (k2 := Re.re_match [Re.Cls Py.is_space Re.Star; Re.lit ":";
                          Re.Cls Py.is_space Re.Star;
                          Re.Cls Py.is_digit Re.Plus; Re.lit ":";
                          Re.Cls Re.dot Re.Star; Re.Eol]).
  set (k1 := Re.re_match [Re.Cls is_marker Re.Plus;
                          Re.Cls Py.is_space Re.Star; Re.lit ":";
                          Re.Cls Py.is_space Re.Star;
                          Re.Cls Py.is_digit Re.Plus; Re.lit ":";
                          Re.Cls Re.dot Re.Star; Re.Eol]).
  assert (k7 tail = Some [tail; ""]) as H7.
  { unfold k7. change (Re.star Re.dot k8 tail = Some [tail; ""]).
    rewrite <- (append_nil_r tail) at 1. by apply star_greedy. }
  assert (k6 (":" +:+ tail) = Some [":"; tail; ""]) as H6.
  { unfold k6. change (cons ":" <$> k7 tail = Some [":"; tail; ""]).
    by rewrite H7. }
  assert (k5 (ln +:+ ":" +:+ tail) = Some [ln; ":"; tail; ""]) as H5.
  { destruct ln as [|c ln']; [done|]. simpl in Hdig.
    apply andb_prop in Hdig as [Hc Hdig].
    unfold k5. rewrite append_cons.
    change (Re.re_match (Re.Cls Py.is_digit Re.Plus :: ?r) (String c ?s))
      with (if Py.is_digit c then Re.grow c (Re.star Py.is_digit (Re.re_match r) s)
            else None).
    rewrite Hc. fold k6. by apply plus_greedy. }
  assert (k4 (sp +:+ ln +:+ ":" +:+ tail) = Some [sp; ln; ":"; tail; ""]) as H4.
  { unfold k4. change (Re.star Py.is_space k5 (sp +:+ ln +:+ ":" +:+ tail)
                       = Some [sp; ln; ":"; tail; ""]).
    apply star_greedy; [done| |done].
    apply stops_at_app; [done|]. by apply stops_at_digit_space. }
  assert (k3 (":" +:+ sp +:+ ln +:+ ":" +:+ tail)
          = Some [":"; sp; ln; ":"; tail; ""]) as H3.
  { unfold k3. change (cons ":" <$> k4 (sp +:+ ln +:+ ":" +:+ tail)
                       = Some [":"; sp; ln; ":"; tail; ""]).
    by rewrite H4. }
  assert (k2 (gap +:+ ":" +:+ sp +:+ ln +:+ ":" +:+ tail)
          = Some [gap; ":"; sp; ln; ":"; tail; ""]) as H2.
  { unfold k2. change (Re.star Py.is_space k3 (gap +:+ ":" +:+ sp +:+ ln +:+ ":" +:+ tail)
                       = Some [gap; ":"; sp; ln; ":"; tail; ""]).
    by apply star_greedy. }
  assert (k1 (cs +:+ gap +:+ ":" +:+ sp +:+ ln +:+ ":" +:+ tail)
          = Some [cs; gap; ":"; sp; ln; ":"; tail; ""]) as H1.
  { destruct cs as [|c cs']; [done|]. simpl in Hmark.
    apply andb_prop in Hmark as [Hc Hmark].
    unfold k1. rewrite append_cons.
    change (Re.re_match (Re.Cls is_marker Re.Plus :: ?r) (String c ?s))
      with (if is_marker c then Re.grow c (Re.star is_marker (Re.re_match r) s)
            else None).
    rewrite Hc. fold k2. apply plus_greedy; [done|done| |done].
    destruct gap as [|g gap']; [done|]. simpl in *.
    apply andb_prop in Hgap as [Hg _]. by apply is_space_not_marker. }
  change (Re.re_match _ ?s) with (Re.star Py.is_space k1 s).
  rewrite (star_greedy _ _ _ _ [cs; gap; ":"; sp; ln; ":"; tail; ""]); try done.
  apply stops_at_app; [done|]. by apply stops_at_marker_space.
Qed.

Lemma coverage_groups_intro lead cs sp ln tail :
  Py.all_chars Py.is_space lead = true →
  cs ≠ "" → Py.all_chars is_marker cs = true →
  Py.all_chars Py.is_space sp = true →
  ln ≠ "" → Py.all_chars Py.is_digit ln = true →
  coverage_groups (lead +:+ cs +:+ ":" +:+ sp +:+ ln +:+ ":" +:+ tail)
  = Some (cs, ln).
Proof.
  intros Hlead Hcs Hmark Hsp Hln Hdig.
  unfold coverage_groups, coverage_pattern.
  set (k6 := Re.re_match [Re.lit ":"]).
  set (k5 := Re.re_match [Re.Cls Py.is_digit Re.Plus; Re.lit ":"]).
  set (k4 := Re.re_match [Re.Cls Py.is_space Re.Star;
                          Re.Cls Py.is_digit Re.Plus; Re.lit ":"]).
  set (k3 := Re.re_match [Re.lit ":"; Re.Cls Py.is_space Re.Star;
                          Re.Cls Py.is_digit Re.Plus; Re.lit ":"]).
  set (k1 := Re.re_match [Re.Cls is_marker Re.Plus; Re.lit ":";
                          Re.Cls Py.is_space Re.Star;
                          Re.Cls Py.is_digit Re.Plus; Re.lit ":"]).
  assert (k6 (":" +:+ tail) = Some [":"]) as H6 by done.
  assert (k5 (ln +:+ ":" +:+ tail) = Some [ln; ":"]) as H5.
  { destruct ln as [|c ln']; [done|]. simpl in Hdig.
    apply andb_prop in Hdig as [Hc Hdig].
    unfold k5. rewrite append_cons.
    change (Re.re_match (Re.Cls Py.is_digit Re.Plus :: ?r) (String c ?s))
      with (if Py.is_digit c then Re.grow c (Re.star Py.is_digit (Re.re_match r) s)
            else None).
    rewrite Hc. fold k6. by apply plus_greedy. }
  assert (k4 (sp +:+ ln +:+ ":" +:+ tail) = Some [sp; ln; ":"]) as H4.
  { unfold k4. change (Re.star Py.is_space k5 (sp +:+ ln +:+ ":" +:+ tail)
                       = Some [sp; ln; ":"]).
    apply star_greedy; [done| |done].
    apply stops_at_app; [done|]. by apply stops_at_digit_space. }
  assert (k3 (":" +:+ sp +:+ ln +:+ ":" +:+ tail) = Some [":"; sp; ln; ":"]) as H3.
  { unfold k3. change (cons ":" <$> k4 (sp +:+ ln +:+ ":" +:+ tail)
                       = Some [":"; sp; ln; ":"]).
    by rewrite H4. }
  assert (k1 (cs +:+ ":" +:+ sp +:+ ln +:+ ":" +:+ tail)
          = Some [cs; ":"; sp; ln; ":"]) as H1.
  { destruct cs as [|c cs']; [done|]. simpl in Hmark.
    apply andb_prop in Hmark as [Hc Hmark].
    unfold k1. rewrite append_cons.
    change (Re.re_match (Re.Cls is_marker Re.Plus :: ?r) (String c ?s))
      with (if is_marker c then Re.grow c (Re.star is_marker (Re.re_match r) s)
            else None).
    rewrite Hc. fold k3. by apply plus_greedy. }
  change (Re.re_match _ ?s) with (Re.star Py.is_space k1 s).
  rewrite (star_greedy _ _ _ _ [cs; ":"; sp; ln; ":"]); try done.
  apply stops_at_app; [done|]. by apply stops_at_marker_space.
Qed.

End Patterns.

(** ** The two parsers side by side *)

Section ParserAgreement.

Implicit Types (line content : string) (r : gcov_line).

Lemma no_newline_app_inv s t :
  no_newline (s +:+ t) → no_newline s ∧ no_newline t.
Proof.
  unfold no_newline, lacks. rewrite all_chars_app. by intros ?%andb_prop.
Qed.

Lemma no_newline_not_nl s e : no_newline (s +:+ e) → e = "" ∨ e = nl → e = "".
Proof.
  intros [_ He]%no_newline_app_inv [->| ->]; [done|]. by vm_compute in He.
Qed.

(** Every line that the coverage pattern matches is matched by the line
    pattern too, with the same marker and digits and no white space
    before the colon. *)
Lemma coverage_groups_lines_groups line g1 g2 :
  no_newline line → coverage_groups line = Some (g1, g2) →
  ∃ lead tail, lines_groups line = Some (lead, g1, "", g2, tail).
Proof.
  intros Hnl Hg.
  destruct (coverage_groups_spec _ _ _ Hg) as (Hg1 & Hmark & Hg2 & Hdig).
  destruct (coverage_groups_shape _ _ _ Hg) as (lead & sp & tail & -> & Hlead & Hsp).
  exists lead, tail.
  assert (no_newline tail) as Htail.
  { repeat (apply no_newline_app_inv in Hnl as [_ Hnl]). done. }
  by apply (lines_groups_intro lead g1 "" sp g2 tail).
Qed.

Lemma records_of_lookup content i line :
  lines_of content !! i = Some line →
  ∃ r, records_of content !! i = Some r ∧ parse_line line = Some r.
Proof.
  intros Hi. pose proof (records_of_lines content) as Hall.
  destruct (Forall2_lookup_l _ _ _ _ _ Hall Hi) as (r & Hr & Hp). eauto.
Qed.

Lemma lines_of_lookup_no_newline content i line :
  lines_of content !! i = Some line → no_newline line.
Proof.
  intros Hi. pose proof (lines_of_no_newline content) as Hall.
  by eapply Forall_lookup_1 in Hall.
Qed.

(** X1: the two parsers agree on executable lines.  A line that gives
    the execution map an entry for [n] with marker [g1] is the line of a
    record of [parse_gcov_lines], at the same position, whose marker is
    [g1] (never ["-"]) and whose number is [n]; so every key of the
    execution map of a snapshot is the number of one of its records. *)
Theorem execution_map_lines_are_records content :
  (∀ i line n g1,
     lines_of content !! i = Some line → assigns line n g1 →
     ∃ tail, records_of content !! i = Some (GcovLine g1 n tail))
  ∧ (∀ n, n ∈ dom (coverage_of content) →
          ∃ r, r ∈ records_of content ∧ line_num r = n ∧ count_str r ≠ "-").
Proof.
  assert (∀ i line n g1,
     lines_of content !! i = Some line → assigns line n g1 →
     ∃ tail, records_of content !! i = Some (GcovLine g1 n tail)) as Hfirst.
  { intros i line n g1 Hi (g2 & Hg & Hn & Hne).
    pose proof (lines_of_lookup_no_newline _ _ _ Hi) as Hnl.
    destruct (coverage_groups_lines_groups _ _ _ Hnl Hg) as (lead & tail & Hl).
    destruct (records_of_lookup _ _ _ Hi) as (r & Hr & Hp).
    destruct (parse_line_match _ _ _ _ _ _ Hl) as (n' & Hn' & _ & Hp').
    exists tail. congruence. }
  split; [done|].
  intros n (line & g1 & Hline & Ha)%coverage_of_dom.
  apply list_elem_of_lookup in Hline as [i Hi].
  destruct (Hfirst i line n g1 Hi Ha) as (tail & Hr).
  exists (GcovLine g1 n tail). split; [by eapply list_elem_of_lookup_2|].
  split; [done|]. by destruct Ha as (? & _ & _ & ?).
Qed.

(** The line pattern accepts more than the coverage pattern: white
    space between the marker and its colon. *)
Lemma gap_line_is_record_only :
  parse_line "    5 :    3:x" = Some (GcovLine "5" 3 "x")
  ∧ coverage_entry "    5 :    3:x" = None.
Proof. by vm_compute. Qed.

(** X2: a record keeps everything of its line.  For a line without
    newline, the record is either the passthrough of a line outside the
    grammar, or the line is white space, the record's marker, white
    space, a colon, white space, digits that read as the record's
    number, a colon and the record's tail. *)
Theorem parse_line_reconstructs line r :
  no_newline line → parse_line line = Some r →
  (lines_groups line = None ∧ r = GcovLine "-" 0 line)
  ∨ ∃ lead gap sp ln,
      line = lead +:+ count_str r +:+ gap +:+ ":" +:+ sp +:+ ln +:+ ":" +:+ rest r
      ∧ Py.all_chars Py.is_space (lead +:+ gap +:+ sp) = true
      ∧ count_str r ≠ "" ∧ Py.all_chars is_marker (count_str r) = true
      ∧ Py.all_chars Py.is_digit ln = true
      ∧ Py.int ln = Some (line_num r) ∧ (0 ≤ line_num r)%Z.
Proof.
  intros Hnl Hp.
  destruct (lines_groups line) as [[[[[lead cs] gap] ln] tail]|] eqn:Hg.
  - right.
    destruct (parse_line_match _ _ _ _ _ _ Hg) as (n & Hn & Hpos & Hp').
    rewrite Hp in Hp'. injection Hp' as ->. simpl.
    destruct (lines_groups_spec _ _ _ _ _ _ Hg) as (Hcs & Hmark & _ & Hdig & _).
    destruct (lines_groups_shape _ _ _ _ _ _ Hg)
      as (sp & e & Hline & He & Hlead & Hgap & Hsp).
    assert (e = "") as ->.
    { rewrite Hline in Hnl.
      repeat (apply no_newline_app_inv in Hnl as [_ Hnl]).
      destruct He as [->| ->]; [done|]. by vm_compute in Hnl. }
    rewrite append_nil_r in Hline.
    exists lead, gap, sp, ln. rewrite !all_chars_app, Hlead, Hgap, Hsp. done.
  - left. rewrite parse_line_passthrough in Hp by done. by injection Hp as <-.
Qed.

Lemma parse_line_reconstructs_witness :
  (lines_groups "    #####:   12:  foo();" = None
   ∧ GcovLine "#####" 12 "  foo();" = GcovLine "-" 0 "    #####:   12:  foo();")
  ∨ ∃ lead gap sp ln,
      "    #####:   12:  foo();"
      = lead +:+ "#####" +:+ gap +:+ ":" +:+ sp +:+ ln +:+ ":" +:+ "  foo();"
      ∧ Py.all_chars Py.is_space (lead +:+ gap +:+ sp) = true
      ∧ "#####" ≠ "" ∧ Py.all_chars is_marker "#####" = true
      ∧ Py.all_chars Py.is_digit ln = true
      ∧ Py.int ln = Some 12%Z ∧ (0 ≤ 12)%Z.
Proof.
  apply (parse_line_reconstructs "    #####:   12:  foo();"
           (GcovLine "#####" 12 "  foo();")); by vm_compute.
Defined.

Lemma records_of_nonneg content :
  Forall (λ r, (0 ≤ line_num r)%Z) (records_of content).
Proof.
  pose proof (records_of_lines content) as Hall.
  induction Hall as [|line r ls rs Hp _ IH]; constructor; [|done].
  unfold parse_line in Hp.
  destruct (lines_groups line) as [[[[[lead cs] gap] ln] tail]|] eqn:Hg.
  - destruct (parse_line_match _ _ _ _ _ _ Hg) as (n & Hn & Hpos & _).
    rewrite Hn in Hp. simpl in Hp. by injection Hp as <-.
  - by injection Hp as <-.
Qed.

End ParserAgreement.

(** ** Reading a cumulative report back *)

Section ReadBack.

Implicit Types (m : MergedCoverage) (r : gcov_line) (content : string).

Lemma cumulative_prefix_cases m r :
  cumulative_prefix m r = "        -"
  ∨ cumulative_prefix m r = "        +"
  ∨ cumulative_prefix m r = "    #####".
Proof.
  unfold cumulative_prefix.
  repeat match goal with |- context [if ?b then _ else _] => destruct b end;
    auto.
Qed.

Lemma str_nonneg z : (0 ≤ z)%Z → Py.str z = Py.str_N (Z.to_N z).
Proof. intros Hz. unfold Py.str. by apply Z.ltb_ge in Hz as ->. Qed.

Lemma all_space_repeat n : Py.all_chars Py.is_space (Py.repeat_char " " n) = true.
Proof. induction n as [|n IH]; [done|]. simpl. by rewrite IH. Qed.

(** An output line, cut where the patterns cut it. *)
Lemma cumulative_line_cut m r :
  cumulative_line m r =
    cumulative_prefix m r +:+ ":"
      +:+ (" " +:+ Py.repeat_char " " (4 - String.length (Py.str (line_num r))))
      +:+ Py.str (line_num r) +:+ ":" +:+ rest r.
Proof.
  unfold cumulative_line, Py.rjust. by rewrite append_assoc.
Qed.

Lemma reparse_marked (lead cs : string) m r :
  cumulative_prefix m r = lead +:+ cs →
  Py.all_chars Py.is_space lead = true →
  cs ≠ "" → Py.all_chars is_marker cs = true →
  no_newline (rest r) → (0 ≤ line_num r)%Z →
  lines_groups (cumulative_line m r)
  = Some (lead, cs, "",  Py.str (line_num r), rest r)
  ∧ coverage_groups (cumulative_line m r) = Some (cs, Py.str (line_num r)).
Proof.
  intros Hpre Hlead Hcs Hmark Hrest Hpos.
  rewrite cumulative_line_cut, Hpre, append_assoc.
  assert (Py.all_chars Py.is_space
            (" " +:+ Py.repeat_char " " (4 - String.length (Py.str (line_num r))))
          = true) as Hsp.
  { rewrite all_chars_app, all_space_repeat. done. }
  assert (Py.str (line_num r) ≠ "") as Hne.
  { rewrite str_nonneg by done. apply str_N_nonempty. }
  assert (Py.all_chars Py.is_digit (Py.str (line_num r)) = true) as Hdig.
  { rewrite str_nonneg by done. apply all_digits_str_N. }
  split.
  - by apply (lines_groups_intro lead cs "").
  - by apply coverage_groups_intro.
Qed.

Lemma plus_line_not_marked (X lead cs Y : string) :
  "        +" +:+ X = lead +:+ cs +:+ Y →
  Py.all_chars Py.is_space lead = true →
  cs ≠ "" → Py.all_chars is_marker cs = true → False.
Proof.
  intros Heq Hlead Hcs Hmark.
  change ("        +" +:+ X) with ("        " +:+ "+" +:+ X) in Heq.
  apply (span_unique Py.is_space) in Heq as [_ Heq]; try done.
  - destruct cs as [|c cs']; [done|]. rewrite append_cons in Heq.
    injection Heq as <- _. done.
  - apply stops_at_app; [done|]. by apply stops_at_marker_space.
Qed.

Lemma reparse_plus m r :
  cumulative_prefix m r = "        +" →
  lines_groups (cumulative_line m r) = None
  ∧ coverage_groups (cumulative_line m r) = None.
Proof.
  intros Hpre. split.
  - destruct (lines_groups (cumulative_line m r))
      as [[[[[lead cs] gap] ln] tail]|] eqn:Hg; [exfalso|done].
    destruct (lines_groups_spec _ _ _ _ _ _ Hg) as (Hcs & Hmark & _).
    destruct (lines_groups_shape _ _ _ _ _ _ Hg) as (sp & e & Hline & _ & Hlead & _).
    unfold cumulative_line in Hline. rewrite Hpre in Hline.
    by eapply plus_line_not_marked.
  - destruct (coverage_groups (cumulative_line m r)) as [[g1 g2]|] eqn:Hg;
      [exfalso|done].
    destruct (coverage_groups_spec _ _ _ Hg) as (Hcs & Hmark & _).
    destruct (coverage_groups_shape _ _ _ Hg) as (lead & sp & tail & Hline & Hlead & _).
    unfold cumulative_line in Hline. rewrite Hpre in Hline.
    by eapply plus_line_not_marked.
Qed.

(** One line of a cumulative report, parsed again. *)
Lemma parse_line_cumulative_line m r :
  no_newline (rest r) → (0 ≤ line_num r)%Z →
  parse_line (cumulative_line m r) = Some (reparsed m r)
  ∧ coverage_entry (cumulative_line m r) =
      if String.eqb (cumulative_prefix m r) "    #####"
      then Some (line_num r, 0%Z) else None.
Proof.
  intros Hrest Hpos. unfold parse_line, coverage_entry, reparsed.
  destruct (cumulative_prefix_cases m r) as [Hpre|[Hpre|Hpre]].
  - destruct (reparse_marked "        " "-" m r) as [-> ->]; try done.
    rewrite int_str, Hpre. done.
  - destruct (reparse_plus m r Hpre) as [-> ->]. by rewrite Hpre.
  - destruct (reparse_marked "    " "#####" m r) as [-> ->]; try done.
    rewrite int_str, Hpre. done.
Qed.

Lemma lookup_store_entries_elem (es : list (Z * Z)) (cov : gmap Z Z) n c :
  foldl store_entry cov es !! n = Some c → cov !! n = Some c ∨ (n, c) ∈ es.
Proof.
  revert cov. induction es as [|[k v] es IH]; intros cov; simpl; [by left|].
  intros [Hc|Hc]%IH; [|right; by right].
  unfold store_entry in Hc. simpl in Hc.
  destruct (decide (k = n)) as [->|Hne].
  - rewrite lookup_insert_eq in Hc. injection Hc as ->. right. by left.
  - rewrite lookup_insert_ne in Hc by done. by left.
Qed.

Lemma lines_of_cumulative_text m content :
  lines_of (cumulative_text m (records_of content))
  = cumulative_lines m (records_of content) ++ [""].
Proof.
  unfold cumulative_text. apply lines_of_join_nl.
  - pose proof (records_of_nonempty content).
    unfold cumulative_lines. by destruct (records_of content).
  - unfold cumulative_lines. apply Forall_fmap.
    eapply Forall_impl; [apply no_newline_records|].
    intros r Hr. by apply no_newline_cumulative_line.
Qed.

Lemma cumulative_entries m content :
  omap coverage_entry (lines_of (cumulative_text m (records_of content)))
  = omap (λ r, if String.eqb (cumulative_prefix m r) "    #####"
               then Some (line_num r, 0%Z) else None) (records_of content).
Proof.
  rewrite lines_of_cumulative_text, omap_app.
  change (omap coverage_entry [""]) with (@nil (Z * Z)). rewrite app_nil_r.
  unfold cumulative_lines.
  pose proof (no_newline_records content) as Hnl.
  pose proof (records_of_nonneg content) as Hpos.
  revert Hnl Hpos. generalize (records_of content). intros rs.
  induction rs as [|r rs IH]; intros Hnl Hpos; [done|].
  inversion Hnl; inversion Hpos; subst.
  rewrite fmap_cons. cbn [omap list_omap].
  destruct (parse_line_cumulative_line m r) as [_ ->]; [done|done|].
  rewrite <- IH by done. done.
Qed.

(** X3: a cumulative report is not a snapshot.  Read back by the parser,
    every line written with ["+"] is outside the grammar (a passthrough
    record), the other lines give back their marker, number and tail;
    its execution map holds exactly the numbers of the lines written
    [#####], each with count [0], so folding a cumulative report into
    the merger never adds a covered line. *)
Theorem cumulative_report_read_back content m :
  parse_gcov_lines (cumulative_text m (records_of content))
  = Some ((reparsed m <$> records_of content) ++ [GcovLine "-" 0 ""])
  ∧ (∀ n, n ∈ dom (coverage_of (cumulative_text m (records_of content))) ↔
          ∃ r, r ∈ records_of content ∧ line_num r = n
               ∧ cumulative_prefix m r = "    #####")
  ∧ (∀ n c, coverage_of (cumulative_text m (records_of content)) !! n = Some c →
            c = 0%Z)
  ∧ covered_of (coverage_of (cumulative_text m (records_of content))) = ∅.
Proof.
  assert (∀ n c, coverage_of (cumulative_text m (records_of content)) !! n = Some c →
                 c = 0%Z) as Hzero.
  { intros n c. unfold coverage_of.
    rewrite parse_gcov_coverage_entries, cumulative_entries. simpl.
    intros [Hc|Hc]%lookup_store_entries_elem; [by rewrite lookup_empty in Hc|].
    apply list_elem_of_omap in Hc as (r & _ & Hr).
    destruct (String.eqb (cumulative_prefix m r) "    #####"); by simplify_eq. }
  split; [|split; [|split; [done|]]].
  - unfold parse_gcov_lines. rewrite lines_of_cumulative_text.
    apply mapM_Some, Forall2_app; [|by repeat constructor].
    unfold cumulative_lines. apply Forall2_fmap, Forall_Forall2_diag.
    pose proof (no_newline_records content) as Hnl.
    pose proof (records_of_nonneg content) as Hpos.
    rewrite Forall_forall in Hnl, Hpos. apply Forall_forall. intros r Hr.
    by apply parse_line_cumulative_line; [apply Hnl|apply Hpos].
  - intros n. unfold coverage_of.
    rewrite parse_gcov_coverage_entries, cumulative_entries. simpl.
    rewrite elem_of_dom_store_entries, dom_empty, elem_of_empty. split.
    + intros [[]|[c Hc]]. apply list_elem_of_omap in Hc as (r & Hr & He).
      destruct (String.eqb_spec (cumulative_prefix m r) "    #####") as [Hp|];
        [|done].
      simplify_eq. eauto.
    + intros (r & Hr & <- & Hp). right. exists 0%Z.
      apply list_elem_of_omap. exists r. split; [done|]. by rewrite Hp.
  - apply set_eq. intros n. rewrite elem_of_covered_of. split; [|set_solver].
    intros (c & Hc & Hpos). apply Hzero in Hc. lia.
Qed.

End ReadBack.

(** ** More on the resolver, the grouping and the directory names *)

Section GroupingMore.

Implicit Types (s sub line content : string) (fs : gmap string string).

Lemma foldl_group_step_lookup fs paths (groups : gmap string (list string)) k :
  foldl (group_step fs) groups paths !! k =
    match filter (λ p, keyed fs k p = true) paths with
    | [] => groups !! k
    | ps => Some (default [] (groups !! k) ++ ps)
    end.
Proof.
  revert groups. induction paths as [|p paths IH]; intros groups; [done|].
  simpl. rewrite IH, filter_cons. case_decide as Hk.
  - unfold keyed in Hk. unfold group_step.
    destruct (fs !! p) as [content|] eqn:Hp; [|done].
    apply String.eqb_eq in Hk as ->. rewrite lookup_insert_eq. simpl.
    destruct (filter _ paths) as [|q qs]; [done|].
    by rewrite <- app_assoc.
  - assert (group_step fs groups p !! k = groups !! k) as ->; [|done].
    unfold keyed in Hk. unfold group_step.
    destruct (fs !! p) as [content|] eqn:Hp; [|done].
    rewrite lookup_insert_ne; [done|].
    intros <-. by rewrite String.eqb_refl in Hk.
Qed.

(** X4: the grouping is a partition in input order.  The group of a key
    lists exactly the reports that exist and have that key, in the
    order of the input (with its repetitions); a key that no existing
    report has gets no group, so no group is empty and a missing report
    is in none. *)
Theorem group_gcov_paths_by_source_partition fs paths k :
  group_gcov_paths_by_source fs paths !! k =
    match filter (λ p, keyed fs k p = true) paths with
    | [] => None
    | ps => Some ps
    end.
Proof.
  unfold group_gcov_paths_by_source. rewrite foldl_group_step_lookup.
  rewrite lookup_empty. by destruct (filter _ paths).
Qed.

(** *** Directory names *)

Lemma lacks_app c s t : lacks c (s +:+ t) ↔ lacks c s ∧ lacks c t.
Proof.
  unfold lacks. rewrite all_chars_app. split.
  - by intros ?%andb_prop.
  - by intros [-> ->].
Qed.

Lemma lacks_replace old new s :
  lacks old new → lacks old (Py.replace old new s).
Proof.
  intros Hnew. induction s as [|c s IH]; [done|]. simpl.
  destruct (Ascii.eqb c old) eqn:Hc.
  - by apply lacks_app.
  - unfold lacks in *. simpl. by rewrite Hc, IH.
Qed.

Lemma lacks_replace_other c old new s :
  lacks c new → lacks c s → lacks c (Py.replace old new s).
Proof.
  intros Hnew. induction s as [|d s IH]; [done|].
  unfold lacks at 1. simpl. intros [Hd Hs]%andb_prop.
  destruct (Ascii.eqb d old).
  - apply lacks_app. split; [done|]. by apply IH.
  - unfold lacks in *. simpl. by rewrite Hd, IH.
Qed.

(** X5: a directory name is one path component.  Whatever the source
    path, [_source_to_dirname] returns a text that is not empty and
    holds neither a slash nor a backslash. *)
Theorem source_to_dirname_component source_path :
  _source_to_dirname source_path ≠ ""
  ∧ lacks "/" (_source_to_dirname source_path)
  ∧ lacks "\" (_source_to_dirname source_path).
Proof.
  unfold _source_to_dirname.
  destruct (String.eqb source_path "" || String.eqb source_path "unknown.c");
    [done|].
  set (s1 := Py.strip (Py.replace "\" "/" source_path)).
  set (s2 := if Py.startswith s1 "../" then Py.drop 3 s1
             else if Py.startswith s1 "./" then Py.drop 2 s1 else s1).
  set (s3 := Py.strip_char "_" (Py.replace "/" "_" s2)).
  assert (lacks "\" s1) as H1.
  { apply all_chars_strip_by. by apply lacks_replace. }
  assert (lacks "\" s2) as H2.
  { unfold s2. destruct (Py.startswith s1 "../"); [by apply all_chars_drop|].
    destruct (Py.startswith s1 "./"); [by apply all_chars_drop|done]. }
  assert (lacks "\" s3 ∧ lacks "/" s3) as [H3 H3'].
  { split; apply all_chars_strip_by.
    - by apply lacks_replace_other.
    - by apply lacks_replace. }
  unfold or_else. by destruct s3.
Qed.

(** The name can still be a reference to the parent directory. *)
Lemma source_to_dirname_parent : _source_to_dirname "../.." = "..".
Proof. reflexivity. Qed.

(** *** The extracted path *)

Lemma rstrip_by_idem p s : Py.rstrip_by p (Py.rstrip_by p s) = Py.rstrip_by p s.
Proof.
  induction s as [|c s IH]; [done|]. simpl.
  destruct (Py.rstrip_by p s) as [|d r] eqn:Hr.
  - destruct (p c) eqn:Hc; [done|]. simpl. by rewrite Hc.
  - simpl. simpl in IH. by rewrite IH.
Qed.

Lemma lstrip_by_head p s :
  Py.lstrip_by p s = "" ∨ ∃ c t, Py.lstrip_by p s = String c t ∧ p c = false.
Proof.
  induction s as [|c s IH]; simpl; [by left|].
  destruct (p c) eqn:Hc; [done|]. right. eauto.
Qed.

Lemma strip_by_idem p s : Py.strip_by p (Py.strip_by p s) = Py.strip_by p s.
Proof.
  unfold Py.strip_by.
  assert (Py.lstrip_by p (Py.rstrip_by p (Py.lstrip_by p s))
          = Py.rstrip_by p (Py.lstrip_by p s)) as ->.
  { destruct (lstrip_by_head p s) as [->|(c & t & -> & Hc)]; [done|].
    simpl. destruct (Py.rstrip_by p t); rewrite ?Hc; simpl; by rewrite Hc. }
  apply rstrip_by_idem.
Qed.

Lemma find_from_spec i s sub j :
  Py.find_from i s sub = j → j ≠ (-1)%Z → (0 ≤ i)%Z →
  ∃ lead tail,
    s = lead +:+ sub +:+ tail
    ∧ j = (i + Z.of_nat (String.length lead))%Z
    ∧ Py.drop (String.length lead + String.length sub) s = tail.
Proof.
  revert i. induction s as [|c s IH]; intros i.
  - simpl. destruct sub as [|d sub]; simpl; [|done].
    intros <- _ _. exists "", "". simpl. split; [done|]. split; [lia|done].
  - change (Py.find_from i (String c s) sub)
      with (if Py.startswith (String c s) sub then i
            else Py.find_from (i + 1) s sub).
    destruct (Py.startswith (String c s) sub) eqn:Hs.
    + intros <- _ _.
      assert (∀ t u, Py.startswith t u = true →
                     ∃ tail, t = u +:+ tail ∧ Py.drop (String.length u) t = tail)
        as Hpre.
      { intros t u. revert t. induction u as [|a u IHu]; intros t.
        - intros _. by exists t.
        - intros (t' & -> & Ht)%startswith_tail.
          destruct (IHu _ Ht) as (tail & -> & Hd). exists tail.
          by rewrite append_cons. }
      destruct (Hpre _ _ Hs) as (tail & Heq & Hd).
      exists "", tail. rewrite append_nil_l. split; [done|].
      split; [simpl; lia|done].
    + intros Hj Hne Hi.
      destruct (IH (i + 1)%Z Hj Hne ltac:(lia)) as (lead & tail & -> & -> & Hd).
      exists (String c lead), tail. rewrite append_cons. split; [done|].
      split; [simpl; lia|done].
Qed.

Lemma source_path_of_lines_Some lines p :
  source_path_of_lines lines = Some p →
  ∃ pre line post lead tail,
    lines = pre ++ line :: post
    ∧ Forall (λ l, Py.contains l ":Source:" = false) pre
    ∧ Py.contains line ":Source:" = true
    ∧ line = lead +:+ "Source:" +:+ tail
    ∧ Py.find line "Source:" = Z.of_nat (String.length lead)
    ∧ p = Py.strip tail.
Proof.
  induction lines as [|l lines IH]; [done|]. simpl.
  destruct (Py.contains l ":Source:") eqn:Hc.
  - pose proof (find_from_found 0 l "Source:" ltac:(done)
                  (contains_tail _ _ _ Hc)) as Hfind.
    fold (Py.find l "Source:") in Hfind.
    destruct (Z.eqb_spec (Py.find l "Source:") (-1)) as [Heq|Hne]; [lia|].
    simpl. intros Hp. injection Hp as <-.
    destruct (find_from_spec 0 l "Source:" _ eq_refl Hne ltac:(done))
      as (lead & tail & Hl & Hj & Hd).
    exists [], l, lines, lead, tail.
    split; [done|]. split; [done|]. split; [done|]. split; [done|].
    split; [unfold Py.find; lia|].
    f_equal. unfold Py.slice_from.
    assert ((Py.find l "Source:" + 7 <? 0)%Z = false) as -> by lia.
    unfold Py.find. rewrite Hj.
    replace (Z.to_nat (0 + Z.of_nat (String.length lead) + 7))
      with (String.length lead + String.length "Source:")%nat by (simpl; lia).
    done.
  - intros (pre & line & post & lead & tail & -> & Hpre & H)%IH.
    exists (l :: pre), line, post, lead, tail.
    split; [done|]. split; [by constructor|done].
Qed.

(** X6: what the resolver returns.  It returns no path exactly when no
    line contains [:Source:]; otherwise the path is the text that
    follows the first [Source:] of the first such line, stripped: it has
    no white space at either end and no newline inside. *)
Theorem parse_gcov_source_path_extracts content :
  (parse_gcov_source_path content = None ↔ ¬ has_source_line content)
  ∧ ∀ p,
      parse_gcov_source_path content = Some p →
      ∃ pre line post lead tail,
        lines_of content = pre ++ line :: post
        ∧ Forall (λ l, Py.contains l ":Source:" = false) pre
        ∧ Py.contains line ":Source:" = true
        ∧ line = lead +:+ "Source:" +:+ tail
        ∧ Py.find line "Source:" = Z.of_nat (String.length lead)
        ∧ p = Py.strip tail
        ∧ Py.strip p = p
        ∧ no_newline p.
Proof.
  split; [apply parse_gcov_source_path_None|].
  intros p Hp.
  destruct (source_path_of_lines_Some _ _ Hp)
    as (pre & line & post & lead & tail & H1 & H2 & H3 & H4 & H5 & H6).
  exists pre, line, post, lead, tail. repeat (split; [done|]).
  split; [rewrite H6; apply strip_by_idem|].
  by eapply parse_gcov_source_path_no_newline.
Qed.

End GroupingMore.

(** ** More on the cumulative report *)

Section CumulativeMore.

Implicit Types (m : MergedCoverage) (r : gcov_line) (fs : gmap string string)
  (covs : list (gmap Z Z)).

Lemma fold_coverage_sets covs :
  merged_covered (fold_coverage covs) = ⋃ (covered_of <$> covs)
  ∧ merged_executable (fold_coverage covs) = ⋃ (dom <$> covs).
Proof.
  unfold fold_coverage. rewrite foldl_merge_coverage. simpl.
  split; set_solver.
Qed.

Lemma elem_of_fold_covered covs n :
  n ∈ merged_covered (fold_coverage covs) ↔
  ∃ cov count, cov ∈ covs ∧ cov !! n = Some count ∧ (0 < count)%Z.
Proof.
  destruct (fold_coverage_sets covs) as [-> _].
  rewrite elem_of_union_list. split.
  - intros (X & HX & Hn). apply list_elem_of_fmap in HX as (cov & -> & Hcov).
    apply elem_of_covered_of in Hn as (count & Hc & Hpos). eauto.
  - intros (cov & count & Hcov & Hc & Hpos). exists (covered_of cov).
    split; [by apply list_elem_of_fmap_2|]. apply elem_of_covered_of. eauto.
Qed.

Lemma elem_of_fold_executable covs n :
  n ∈ merged_executable (fold_coverage covs) ↔
  ∃ cov, cov ∈ covs ∧ is_Some (cov !! n).
Proof.
  destruct (fold_coverage_sets covs) as [_ ->].
  rewrite elem_of_union_list. split.
  - intros (X & HX & Hn). apply list_elem_of_fmap in HX as (cov & -> & Hcov).
    apply elem_of_dom in Hn. eauto.
  - intros (cov & Hcov & Hn). exists (dom cov).
    split; [by apply list_elem_of_fmap_2|]. by apply elem_of_dom.
Qed.

(** X7: what the three prefixes of a cumulative report mean.  After
    folding the execution maps [covs], a template line is written with
    ["+"] exactly when the template does not mark it ["-"] and some map
    has a positive count for its number; with [#####] exactly when the
    template does not mark it ["-"], some map has an entry for its
    number and no map has a positive count for it; with ["-"] in every
    other case. *)
Theorem cumulative_prefix_meaning covs r :
  (cumulative_prefix (fold_coverage covs) r = "        +" ↔
     count_str r ≠ "-"
     ∧ ∃ cov count, cov ∈ covs ∧ cov !! line_num r = Some count ∧ (0 < count)%Z)
  ∧ (cumulative_prefix (fold_coverage covs) r = "    #####" ↔
       count_str r ≠ "-"
       ∧ (∃ cov, cov ∈ covs ∧ is_Some (cov !! line_num r))
       ∧ ¬ ∃ cov count, cov ∈ covs ∧ cov !! line_num r = Some count
                        ∧ (0 < count)%Z)
  ∧ (cumulative_prefix (fold_coverage covs) r = "        -" ↔
       count_str r = "-"
       ∨ ¬ ∃ cov, cov ∈ covs ∧ is_Some (cov !! line_num r)).
Proof.
  pose proof (elem_of_fold_covered covs (line_num r)) as Hcov.
  pose proof (elem_of_fold_executable covs (line_num r)) as Hexe.
  pose proof (fold_coverage_wf covs) as Hwf. unfold merged_wf in Hwf.
  unfold cumulative_prefix.
  destruct (String.eqb_spec (count_str r) "-") as [Hd|Hd].
  { split; [|split]; split; try done; try (by intros [? _]); by left. }
  case_bool_decide as Hc.
  { split; [|split]; split; try done.
    - intros _. split; [done|]. by apply Hcov.
    - intros (_ & _ & Hno). destruct Hno. by apply Hcov.
    - intros [?|Hno]; [done|]. destruct Hno. apply Hexe. by apply Hwf. }
  case_bool_decide as He.
  { split; [|split]; split; try done.
    - intros (_ & Hyes). destruct Hc. by apply Hcov.
    - intros _. split; [done|]. split; [by apply Hexe|].
      intros Hyes. destruct Hc. by apply Hcov.
    - intros [?|Hno]; [done|]. destruct Hno. by apply Hexe. }
  split; [|split]; split; try done.
  - intros (_ & Hyes). destruct Hc. by apply Hcov.
  - intros (_ & Hyes & _). destruct He. by apply Hexe.
  - intros _. right. intros Hyes. destruct He. by apply Hexe.
Qed.



Lemma union_list_fmap_same {A} (f : A → gset Z) (l1 l2 : list A) :
  (∀ x, x ∈ l1 ↔ x ∈ l2) → ⋃ (f <$> l1) = ⋃ (f <$> l2).
Proof.
  intros Hsame. apply set_eq. intros n. rewrite !elem_of_union_list.
  split; intros (X & HX & Hn); apply list_elem_of_fmap in HX as (x & -> & Hx);
    exists (f x); (split; [apply list_elem_of_fmap_2; by apply Hsame|done]).
Qed.

Lemma fold_coverage_same covs1 covs2 :
  (∀ cov, cov ∈ covs1 ↔ cov ∈ covs2) → fold_coverage covs1 = fold_coverage covs2.
Proof.
  intros Hsame.
  destruct (fold_coverage_sets covs1) as [Hc1 He1].
  destruct (fold_coverage_sets covs2) as [Hc2 He2].
  apply merged_eq.
  - rewrite Hc1, Hc2. by apply union_list_fmap_same.
  - rewrite He1, He2. by apply union_list_fmap_same.
Qed.

(** X9: only the first report's place matters.  Two lists of reports
    that start (among the reports that exist) with the same report and
    hold the same reports, in any order and with any repetitions, make
    [write_cumulative_gcov] write the same file. *)
Theorem write_cumulative_gcov_order fs paths1 paths2 out content others1 others2 :
  snapshots fs paths1 = content :: others1 →
  snapshots fs paths2 = content :: others2 →
  (∀ c, c ∈ content :: others1 ↔ c ∈ content :: others2) →
  write_cumulative_gcov fs paths1 out = write_cumulative_gcov fs paths2 out.
Proof.
  intros H1 H2 Hsame. rewrite !write_cumulative_gcov_spec, H1, H2. cbv zeta.
  rewrite (fold_coverage_same (coverage_of <$> content :: others1)
                              (coverage_of <$> content :: others2)); [done|].
  intros cov. rewrite !list_elem_of_fmap.
  split; intros (c & -> & Hc); exists c; (split; [done|]); by apply Hsame.
Qed.

Lemma write_cumulative_gcov_order_witness :
  write_cumulative_gcov
    {[ "a" := "        1:    1:x"; "b" := "    #####:    1:x";
       "c" := "        -:    1:x" ]}
    ["a"; "b"; "c"] "out"
  = write_cumulative_gcov
      {[ "a" := "        1:    1:x"; "b" := "    #####:    1:x";
         "c" := "        -:    1:x" ]}
      ["missing"; "a"; "c"; "b"; "c"; "a"] "out".
Proof.
  apply (write_cumulative_gcov_order _ _ _ _ "        1:    1:x"
           ["    #####:    1:x"; "        -:    1:x"]
           ["        -:    1:x"; "    #####:    1:x"; "        -:    1:x";
            "        1:    1:x"]).
  - by vm_compute.
  - by vm_compute.
  - intros c. rewrite !elem_of_cons, !elem_of_nil. naive_solver.
Defined.

(** X10: an executable line of the template is never written as
    non-executable.  When the template is the first existing report,
    every line of it that gives its own execution map an entry is
    written with ["+"] or [#####] in the report, with its number and
    tail, and it is written ["+"] exactly when some folded report has a
    positive count for that number. *)
Theorem template_executable_stays_executable fs paths out content others
    i line n g1 :
  snapshots fs paths = content :: others →
  lines_of content !! i = Some line →
  assigns line n g1 →
  ∃ tail text k,
    records_of content !! i = Some (GcovLine g1 n tail)
    ∧ write_cumulative_gcov fs paths out = Some (true, <[out := text]> fs)
    ∧ lines_of text !! i = Some (report_line k (GcovLine g1 n tail))
    ∧ (k = Covered ∨ k = NeverCovered)
    ∧ (k = Covered ↔
       ∃ c count, c ∈ content :: others ∧ coverage_of c !! n = Some count
                  ∧ (0 < count)%Z).
Proof.
  intros Hs Hi Ha.
  destruct (execution_map_lines_are_records content) as [Hrec _].
  destruct (Hrec i line n g1 Hi Ha) as (tail & Hr).
  set (m := fold_coverage (coverage_of <$> content :: others)).
  set (r := GcovLine g1 n tail).
  assert (count_str r ≠ "-") as Hne by (by destruct Ha as (? & _ & _ & ?)).
  assert (n ∈ merged_executable m) as Hexe.
  { apply elem_of_fold_executable. exists (coverage_of content).
    split; [apply list_elem_of_fmap_2; by left|].
    apply elem_of_dom, coverage_of_dom.
    exists line, g1. split; [by eapply list_elem_of_lookup_2|done]. }
  exists tail, (cumulative_text m (records_of content)), (template_marker m r).
  split; [done|]. split.
  { by rewrite write_cumulative_gcov_spec, Hs. }
  split.
  { rewrite lines_of_cumulative_text.
    apply lookup_app_l_Some. unfold cumulative_lines.
    rewrite list_lookup_fmap, Hr. simpl. f_equal.
    unfold cumulative_line, report_line.
    by rewrite cumulative_prefix_template by apply fold_coverage_wf. }
  assert (template_marker m r = spec_marker m r) as Htm.
  { unfold template_marker. by apply String.eqb_neq in Hne as ->. }
  rewrite Htm. unfold spec_marker. change (line_num r) with n.
  rewrite bool_decide_eq_true_2 by done.
  case_bool_decide as Hc.
  - split; [by left|]. split; [|done]. intros _.
    apply elem_of_fold_covered in Hc as (cov & count & Hcov & Hc & Hpos).
    apply list_elem_of_fmap in Hcov as (c & -> & Hcin). eauto.
  - split; [by right|]. split; [done|].
    intros (c & count & Hcin & Hcount & Hpos). destruct Hc.
    apply elem_of_fold_covered. exists (coverage_of c), count.
    split; [by apply list_elem_of_fmap_2|done].
Qed.

Lemma template_executable_stays_executable_witness :
  ∃ tail text k,
    records_of "    #####:    4:y" !! 0%nat = Some (GcovLine "#####" 4 tail)
    ∧ write_cumulative_gcov {[ "a" := "    #####:    4:y" ]} ["a"] "out"
      = Some (true, <["out" := text]> {[ "a" := "    #####:    4:y" ]})
    ∧ lines_of text !! 0%nat = Some (report_line k (GcovLine "#####" 4 tail))
    ∧ (k = Covered ∨ k = NeverCovered)
    ∧ (k = Covered ↔
       ∃ c count, c ∈ ["    #####:    4:y"] ∧ coverage_of c !! 4%Z = Some count
                  ∧ (0 < count)%Z).
Proof.
  apply (template_executable_stays_executable
           {[ "a" := "    #####:    4:y" ]} ["a"] "out" "    #####:    4:y" []
           0 "    #####:    4:y" 4 "#####").
  - by vm_compute.
  - by vm_compute.
  - exists "4". split; [by vm_compute|]. split; [by vm_compute|done].
Defined.

End CumulativeMore.

(** ** More on the directory converter: names and contents *)

Section TraceNames.

Implicit Types (base ext : string) (i j : nat).

Lemma int_digits_zeros k s prev :
  Py.int_digits 0 prev (Py.repeat_char "0" k +:+ s) =
    match k with O => Py.int_digits 0 prev s | S _ => Py.int_digits 0 true s end.
Proof.
  revert prev. induction k as [|k IH]; intros prev; [done|].
  change (Py.repeat_char "0" (S k) +:+ s)
    with (String "0" (Py.repeat_char "0" k +:+ s)).
  change (Py.int_digits 0 prev (String "0" ?t)) with (Py.int_digits 0 true t).
  rewrite IH. by destruct k.
Qed.

Lemma int_digits_zfill w n :
  Py.int_digits 0 false (Py.zfill w n) = Some (Z.of_nat n).
Proof.
  unfold Py.zfill. rewrite int_digits_zeros.
  assert (∀ prev, Py.int_digits 0 prev (Py.str_N (N.of_nat n)) = Some (Z.of_nat n))
    as Hstr.
  { intros prev. unfold Py.str_N.
    rewrite int_digits_str_N_aux by apply str_N_fuel. simpl. f_equal. lia. }
  destruct (w - _)%nat; apply Hstr.
Qed.

Lemma zfill_inj w i j : Py.zfill w i = Py.zfill w j → i = j.
Proof.
  intros Heq. pose proof (int_digits_zfill w i) as Hi.
  rewrite Heq, int_digits_zfill in Hi. injection Hi as Hi. lia.
Qed.

Lemma all_digits_zfill w n : Py.all_chars Py.is_digit (Py.zfill w n) = true.
Proof.
  unfold Py.zfill. rewrite all_chars_app, all_digits_str_N, andb_true_r.
  induction (w - _)%nat as [|k IH]; [done|]. simpl. by rewrite IH.
Qed.

(** The name of an artifact determines its index and its extension, when
    the extension does not start with a digit. *)
Lemma trace_name_inj base i j ext1 ext2 :
  stops_at Py.is_digit ext1 → stops_at Py.is_digit ext2 →
  trace_name base i ext1 = trace_name base j ext2 → i = j ∧ ext1 = ext2.
Proof.
  intros H1 H2. unfold trace_name. intros Heq.
  apply append_inv_head in Heq.
  change ("_" +:+ ?s) with (String "_" s) in Heq. injection Heq as Heq.
  apply (span_unique Py.is_digit) in Heq as [Hz He];
    [|apply all_digits_zfill|apply all_digits_zfill|done|done].
  split; [by eapply zfill_inj|done].
Qed.

End TraceNames.

Section ConverterMore.

Variable resolve_relative : string → string → option string.
Variable joinpath : string → string → string.
Variable fs : gmap string string.
Variables out_dir base_name : string.
Variable workspace_root : option string.
Variable only : bool.

Hypothesis joinpath_inj : ∀ a b, joinpath out_dir a = joinpath out_dir b → a = b.

Implicit Types (st : convert_state) (p content : string).

#[local] Abbreviation step := (convert_step resolve_relative joinpath fs out_dir
                                 base_name workspace_root only).
#[local] Abbreviation info_name :=
  (λ i, joinpath out_dir (trace_name base_name i ".info")).
#[local] Abbreviation json_name :=
  (λ i, joinpath out_dir (trace_name base_name i ".json")).

Lemma info_name_inj i j : info_name i = info_name j → i = j.
Proof. intros H%joinpath_inj. by apply trace_name_inj in H as [? _]. Qed.

Lemma json_name_inj i j : json_name i = json_name j → i = j.
Proof. intros H%joinpath_inj. by apply trace_name_inj in H as [? _]. Qed.

Lemma info_name_json_name i j : info_name i ≠ json_name j.
Proof. intros H%joinpath_inj. by apply trace_name_inj in H as [_ ?]. Qed.

Ltac names_differ H :=
  first [ apply info_name_inj in H; lia
        | apply json_name_inj in H; lia
        | by apply info_name_json_name in H
        | symmetry in H; by apply info_name_json_name in H ].

Lemma converted_cons p files :
  converted only fs (p :: files) =
    if only && negb (retained fs p) then converted only fs files
    else p :: converted only fs files.
Proof.
  unfold converted. destruct only; [|done]. rewrite kept_files_cons. simpl.
  by destruct (retained fs p).
Qed.

Lemma convert_step_gen st p content :
  fs !! p = Some content →
  step st p =
    Some (if only && negb (retained fs p) then st
          else ConvertState (info_paths st ++ [info_name (idx st)])
                 (json_paths st ++ [json_name (idx st)])
                 (S (idx st))
                 (<[json_name (idx st) := JsonFile (json_of resolve_relative fs workspace_root p)]>
                    (<[info_name (idx st) := InfoFile (info_of fs p)]> (written st)))).
Proof.
  intros Hp. unfold convert_step, retained, info_of, json_of. rewrite Hp. simpl.
  destruct (only && negb (is_c_source (parse_gcov_source_path content)));
    [done|].
  by rewrite gcov_to_lcov_info_spec, gcov_to_gcovr_json_spec.
Qed.

Lemma foldM_convert_step_gen files st :
  Forall (λ p, is_Some (fs !! p)) files →
  ∃ st',
    foldM step st files = Some st'
    ∧ idx st' = (idx st + length (converted only fs files))%nat
    ∧ info_paths st' =
        info_paths st ++ (info_name <$> seq (idx st) (length (converted only fs files)))
    ∧ json_paths st' =
        json_paths st ++ (json_name <$> seq (idx st) (length (converted only fs files)))
    ∧ (∀ j p, converted only fs files !! j = Some p →
              written st' !! info_name (idx st + j) = Some (InfoFile (info_of fs p))
              ∧ written st' !! json_name (idx st + j)
                = Some (JsonFile (json_of resolve_relative fs workspace_root p)))
    ∧ (∀ q, (∀ j, (j < length (converted only fs files))%nat →
                  q ≠ info_name (idx st + j) ∧ q ≠ json_name (idx st + j)) →
            written st' !! q = written st !! q).
Proof.
  intros Hall. revert st.
  induction Hall as [|p files [content Hp] _ IH]; intros st.
  - exists st. assert (converted only fs [] = []) as -> by (by destruct only).
    simpl. rewrite !app_nil_r, Nat.add_0_r. repeat split; try done.
  - rewrite foldM_cons, (convert_step_gen st p content Hp), converted_cons.
    simpl. destruct (only && negb (retained fs p)); [apply IH|].
    destruct (IH (ConvertState (info_paths st ++ [info_name (idx st)])
                    (json_paths st ++ [json_name (idx st)]) (S (idx st))
                    (<[json_name (idx st) := JsonFile (json_of resolve_relative fs workspace_root p)]>
                       (<[info_name (idx st) := InfoFile (info_of fs p)]> (written st)))))
      as (st' & H1 & H2 & H3 & H4 & H5 & H6).
    simpl in *. exists st'. split; [done|]. split; [lia|].
    split; [by rewrite H3, <- app_assoc|]. split; [by rewrite H4, <- app_assoc|].
    split.
    + intros [|j] q Hq.
      * simpl in Hq. injection Hq as <-. rewrite Nat.add_0_r.
        rewrite !H6; try (intros j _; split; intros Heq; names_differ Heq).
        rewrite lookup_insert_ne by apply not_eq_sym, info_name_json_name.
        rewrite lookup_insert_eq, lookup_insert_eq. done.
      * simpl in Hq. replace (idx st + S j)%nat with (S (idx st + j)) by lia.
        by apply H5.
    + intros q Hq. rewrite H6.
      * destruct (Hq 0%nat ltac:(lia)) as [Hqi Hqj]. rewrite Nat.add_0_r in Hqi, Hqj.
        by rewrite !lookup_insert_ne.
      * intros j Hj. replace (S (idx st + j)) with (idx st + S j)%nat by lia.
        apply Hq. lia.
Qed.

End ConverterMore.

(** X11: every converted report keeps its artifacts.  When the listed
    reports can be read and [joinpath] gives different names different
    paths, the call converts the reports of [converted] (all of them
    without [only_c_sources], also those without a [Source:] line),
    gives the [j]-th of them the index [j], and after the call the
    [.info] and [.json] paths of index [j] hold the traces of that
    report: no artifact overwrites another, the paths are pairwise
    different, and every other path of the output store is as before. *)
Theorem convert_artifacts_in_place resolve_relative joinpath
    (fs : gmap string string) gcov_files out out_dir base_name workspace_root
    only_c_sources :
  (∀ a b, joinpath out_dir a = joinpath out_dir b → a = b) →
  Forall (λ p, is_Some (fs !! p)) gcov_files →
  ∃ st,
    convert_dir_to_tracefiles resolve_relative joinpath fs gcov_files out
      out_dir base_name workspace_root only_c_sources = Some st
    ∧ idx st = length (converted only_c_sources fs gcov_files)
    ∧ length (info_paths st) = idx st ∧ length (json_paths st) = idx st
    ∧ NoDup (info_paths st ++ json_paths st)
    ∧ (∀ j p, converted only_c_sources fs gcov_files !! j = Some p →
              info_paths st !! j
              = Some (joinpath out_dir (trace_name base_name j ".info"))
              ∧ json_paths st !! j
                = Some (joinpath out_dir (trace_name base_name j ".json"))
              ∧ written st !! joinpath out_dir (trace_name base_name j ".info")
                = Some (InfoFile (info_of fs p))
              ∧ written st !! joinpath out_dir (trace_name base_name j ".json")
                = Some (JsonFile (json_of resolve_relative fs workspace_root p)))
    ∧ (∀ q, q ∉ info_paths st ++ json_paths st → written st !! q = out !! q).
Proof.
  intros Hinj Hall.
  destruct (foldM_convert_step_gen resolve_relative joinpath fs out_dir base_name
              workspace_root only_c_sources Hinj gcov_files
              (ConvertState [] [] 0 out) Hall)
    as (st & H1 & H2 & H3 & H4 & H5 & H6).
  simpl in *. exists st. split; [done|]. split; [done|].
  rewrite H3, H4, H2.
  split; [by rewrite length_fmap, length_seq|].
  split; [by rewrite length_fmap, length_seq|].
  split; [|split].
  - apply NoDup_app. split; [|split].
    + apply NoDup_fmap_2; [|apply NoDup_seq].
      intros i j. by apply info_name_inj.
    + intros q (i & -> & _)%list_elem_of_fmap (j & Heq & _)%list_elem_of_fmap.
      by eapply info_name_json_name.
    + apply NoDup_fmap_2; [|apply NoDup_seq].
      intros i j. by apply json_name_inj.
  - intros j p Hj. destruct (H5 j p Hj) as [Hi Hjs].
    assert (j < length (converted only_c_sources fs gcov_files))%nat as Hlt
      by (by eapply lookup_lt_Some).
    rewrite !list_lookup_fmap, !lookup_seq_lt by done. simpl.
    done.
  - intros q Hq. apply H6. intros j Hj. split; intros ->; apply Hq.
    + apply elem_of_app. left. apply list_elem_of_fmap. exists j.
      split; [done|]. apply elem_of_seq. lia.
    + apply elem_of_app. right. apply list_elem_of_fmap. exists j.
      split; [done|]. apply elem_of_seq. lia.
Qed.

Lemma convert_artifacts_in_place_witness :
  let fs : gmap string string :=
    {[ "a.gcov.txt" := "        -:    0:Source:../src/cat.c";
       "b.gcov.txt" := "        1:    7:x" ]} in
  let joinpath := λ d n, d +:+ "/" +:+ n in
  ∃ st,
    convert_dir_to_tracefiles (λ _ _, None) joinpath fs
      ["a.gcov.txt"; "b.gcov.txt"] ∅ "out" "trace" None false = Some st
    ∧ idx st = 2%nat
    ∧ NoDup (info_paths st ++ json_paths st)
    ∧ written st !! "out/trace_00001.info"
      = Some (InfoFile ("SF:unknown.c" +:+ nl +:+ "DA:7,1" +:+ nl +:+ "end_of_record")).
Proof.
  cbv zeta.
  destruct (convert_artifacts_in_place (λ _ _, None) (λ d n, d +:+ "/" +:+ n)
              {[ "a.gcov.txt" := "        -:    0:Source:../src/cat.c";
                 "b.gcov.txt" := "        1:    7:x" ]}
              ["a.gcov.txt"; "b.gcov.txt"] ∅ "out" "trace" None false)
    as (st & H1 & H2 & _ & _ & H3 & H4 & _).
  { intros a b H. apply append_inv_head in H.
    by apply (append_inv_head "/") in H. }
  { repeat constructor; by vm_compute; eauto. }
  exists st. split; [exact H1|]. split; [exact H2|]. split; [exact H3|].
  destruct (H4 1%nat "b.gcov.txt" eq_refl) as (_ & _ & Hw & _). exact Hw.
Defined.

(** ** The summarizer's report without its last column *)

Section SummaryText.

Implicit Types (s t line out : string) (items : list Re.item).

Lemma drop_length_app s t : Py.drop (String.length s) (s +:+ t) = t.
Proof. induction s as [|c s IH]; [done|]. by rewrite append_cons. Qed.

Lemma length_app s t :
  String.length (s +:+ t) = (String.length s + String.length t)%nat.
Proof.
  induction s as [|c s IH]; [done|]. rewrite append_cons. simpl. by rewrite IH.
Qed.

Lemma re_search_decompose items s pre pieces :
  re_search items s = Some (pre, pieces) →
  ∃ tail, s = pre +:+ flatten pieces +:+ tail ∧ tail_ok items tail
          ∧ Re.re_match items (flatten pieces +:+ tail) = Some pieces.
Proof.
  revert pre. induction s as [|c s IH]; intros pre; simpl.
  - destruct (Re.re_match items "") as [ps|] eqn:Hm; [|done].
    intros; simplify_eq.
    destruct (re_match_decompose _ _ _ Hm) as (tail & Hs & Ht).
    exists tail. rewrite append_nil_l, <- Hs. done.
  - destruct (Re.re_match items (String c s)) as [ps|] eqn:Hm.
    + intros; simplify_eq.
      destruct (re_match_decompose _ _ _ Hm) as (tail & Hs & Ht).
      exists tail. rewrite append_nil_l, <- Hs. done.
    + destruct (re_search items s) as [[pre' ps]|] eqn:Hs; simpl; [|done].
      intros; simplify_eq. destruct (IH _ eq_refl) as (tail & -> & Ht & Hm').
      exists tail. by rewrite append_cons.
Qed.

Lemma re_sub_empty fuel items repl : re_sub fuel items repl "" = "".
Proof.
  destruct fuel as [|fuel]; [done|]. simpl.
  destruct (Re.re_match items "") as [ps|] eqn:Hm; [|done].
  destruct (flatten ps) as [|c m] eqn:Hf; [done|].
  apply re_match_decompose in Hm as (tail & Hs & _).
  rewrite Hf in Hs. done.
Qed.

Lemma is_prefix_refl s : is_prefix s s.
Proof. exists "". by rewrite append_nil_r. Qed.

Lemma is_prefix_trans s t u : is_prefix s t → is_prefix t u → is_prefix s u.
Proof. intros [a ->] [b ->]. exists (a +:+ b). by rewrite append_assoc. Qed.

Lemma is_prefix_app s t : is_prefix s (s +:+ t).
Proof. by exists t. Qed.

Lemma is_prefix_no_newline out line :
  is_prefix out line → no_newline line → no_newline out.
Proof. intros [suffix ->] Hnl. by apply no_newline_app_inv in Hnl as [? _]. Qed.

Lemma rstrip_by_prefix p s : is_prefix (Py.rstrip_by p s) s.
Proof.
  induction s as [|c s IH]; simpl; [apply is_prefix_refl|].
  destruct IH as [suffix Hs].
  destruct (Py.rstrip_by p s) as [|d r].
  - destruct (p c); [by exists (String c s)|].
    exists s. by rewrite append_cons.
  - exists suffix. rewrite append_cons. by rewrite Hs at 1.
Qed.

Lemma flatten_take_drop n (pieces : list string) :
  flatten pieces = flatten (take n pieces) +:+ flatten (drop n pieces).
Proof.
  revert n. induction pieces as [|p ps IH]; intros [|n]; try done.
  change (take (S n) (p :: ps)) with (p :: take n ps).
  change (drop (S n) (p :: ps)) with (drop n ps).
  rewrite !flatten_cons, append_assoc. by rewrite <- IH.
Qed.

(** In a line without newline, a pattern that ends in [$] is replaced at
    most once, and what replaces a match that starts with the
    replacement leaves a prefix of the line. *)
Lemma re_sub_prefix fuel items repl line :
  no_newline line →
  last items = Some Re.Eol →
  (∀ pieces, is_prefix (repl pieces) (flatten pieces)) →
  is_prefix (re_sub fuel items repl line) line.
Proof.
  intros Hnl Hlast Hrepl. destruct fuel as [|fuel]; [apply is_prefix_refl|].
  simpl. destruct (re_search items line) as [[pre pieces]|] eqn:Hs;
    [|apply is_prefix_refl].
  destruct (flatten pieces) as [|c matched] eqn:Hf; [apply is_prefix_refl|].
  destruct (re_search_decompose _ _ _ _ Hs) as (tail & Hline & Ht & _).
  unfold tail_ok in Ht. rewrite Hlast in Ht.
  assert (tail = "") as ->.
  { rewrite Hline in Hnl.
    do 2 apply no_newline_app_inv in Hnl as [_ Hnl].
    destruct Ht as [->| ->]; [done|]. by vm_compute in Hnl. }
  rewrite append_nil_r, Hf in Hline.
  assert (Py.drop (String.length pre + String.length (String c matched)) line
          = "") as ->.
  { rewrite Hline, <- length_app.
    rewrite <- (append_nil_r (pre +:+ String c matched)) at 2.
    apply drop_length_app. }
  rewrite re_sub_empty, append_nil_r, Hline.
  destruct (Hrepl pieces) as [suffix Hsuf]. rewrite Hf in Hsuf. rewrite Hsuf.
  exists suffix. by rewrite append_assoc.
Qed.

Lemma strip_missing_line_prefix line :
  no_newline line → is_prefix (strip_missing_line line) line.
Proof.
  intros Hnl. unfold strip_missing_line.
  destruct (Py.contains line "Missing" && Py.startswith (Py.strip line) "File").
  - eapply is_prefix_trans; [apply rstrip_by_prefix|].
    apply re_sub_prefix; [done|done|]. intros pieces. by exists (flatten pieces).
  - case_bool_decide; [|apply is_prefix_refl].
    eapply is_prefix_trans; [apply rstrip_by_prefix|].
    apply re_sub_prefix; [done|done|]. intros pieces.
    exists (flatten (drop 3 pieces)). apply flatten_take_drop.
Qed.

Lemma re_match_has_lit items1 c items2 s pieces :
  Re.re_match (items1 ++ Re.lit c :: items2) s = Some pieces →
  ¬ lacks c (flatten pieces).
Proof.
  intros Hm Hlacks. apply re_match_pieces in Hm.
  apply Forall2_app_inv_l in Hm as (ps1 & ps2 & _ & Hm & ->).
  apply Forall2_cons_inv_l in Hm as (piece & ps3 & ->%piece_ok_lit & _ & ->).
  assert (∀ l1 l2, flatten (l1 ++ l2) = flatten l1 +:+ flatten l2) as Happ.
  { intros l1 l2. induction l1 as [|x l1 IH]; [done|].
    rewrite <- app_comm_cons, !flatten_cons, IH. by rewrite append_assoc. }
  rewrite Happ, flatten_cons in Hlacks.
  apply lacks_app in Hlacks as [_ Hlacks].
  apply lacks_app in Hlacks as [Hlacks _].
  unfold lacks in Hlacks. simpl in Hlacks. by rewrite Ascii.eqb_refl in Hlacks.
Qed.

Lemma re_search_data_row_percent line :
  lacks "%" line → re_search data_row_pattern line = None.
Proof.
  intros Hlacks.
  destruct (re_search data_row_pattern line) as [[pre pieces]|] eqn:Hs; [|done].
  exfalso.
  destruct (re_search_decompose _ _ _ _ Hs) as (tail & -> & _ & Hm).
  apply lacks_app in Hlacks as [_ Hlacks].
  apply lacks_app in Hlacks as [Hlacks _].
  by apply (re_match_has_lit [Re.Cls Py.is_digit Re.Plus] "%"
              [Re.Cls Py.is_space Re.Plus; Re.Cls is_missing_char Re.Plus; Re.Eol]
              (flatten pieces +:+ tail) pieces).
Qed.

(** X12: [_strip_gcovr_missing_column] only cuts line ends.  The result
    has as many lines as the text, each a prefix of the line it comes
    from; a line that is neither a header (it contains [Missing] and
    starts, white space aside, with [File]) nor holds a percent sign is
    returned as it is. *)
Theorem strip_gcovr_missing_column_rows text :
  Forall2 is_prefix (lines_of (_strip_gcovr_missing_column text)) (lines_of text)
  ∧ ∀ i line,
      lines_of text !! i = Some line →
      Py.contains line "Missing" && Py.startswith (Py.strip line) "File" = false →
      lacks "%" line →
      lines_of (_strip_gcovr_missing_column text) !! i = Some line.
Proof.
  assert (lines_of (_strip_gcovr_missing_column text)
          = strip_missing_line <$> lines_of text) as ->.
  { unfold _strip_gcovr_missing_column. apply lines_of_join.
    - pose proof (split_nonempty Py.newline text) as Hne. unfold lines_of.
      by destruct (Py.split Py.newline text).
    - apply Forall_fmap. eapply Forall_impl; [apply lines_of_no_newline|].
      intros line Hnl. simpl.
      eapply is_prefix_no_newline; [by apply strip_missing_line_prefix|done]. }
  split.
  - apply Forall2_fmap_l, Forall_Forall2_diag.
    eapply Forall_impl; [apply lines_of_no_newline|].
    intros line Hnl. by apply strip_missing_line_prefix.
  - intros i line Hi Hhdr Hpct. rewrite list_lookup_fmap, Hi. simpl. f_equal.
    unfold strip_missing_line. rewrite Hhdr.
    rewrite re_search_data_row_percent by done.
    by rewrite bool_decide_eq_false_2 by (by intros [? ?]).
Qed.

End SummaryText.

(** ** Group keys and artifact names *)

Section Names.

Implicit Types (s t pre suf : string) (p : ascii → bool).

Lemma endswith_refl s : Py.endswith s s = true.
Proof.
  destruct s as [|c s]; [done|].
  change (Py.endswith (String c s) (String c s))
    with (if String.eqb (String c s) (String c s) then true
          else Py.endswith s (String c s)).
  by rewrite String.eqb_refl.
Qed.

Lemma endswith_app pre suf : Py.endswith (pre +:+ suf) suf = true.
Proof.
  induction pre as [|c pre IH]; [apply endswith_refl|].
  rewrite append_cons.
  change (Py.endswith (String c (pre +:+ suf)) suf)
    with (if String.eqb (String c (pre +:+ suf)) suf then true
          else Py.endswith (pre +:+ suf) suf).
  rewrite IH. by destruct (String.eqb (String c (pre +:+ suf)) suf).
Qed.

Lemma endswith_inv s suf : Py.endswith s suf = true → ∃ pre, s = pre +:+ suf.
Proof.
  induction s as [|c s IH].
  - change (Py.endswith "" suf)
      with (if String.eqb "" suf then true else false).
    destruct (String.eqb "" suf) eqn:He; [|done].
    apply String.eqb_eq in He as <-. by exists "".
  - change (Py.endswith (String c s) suf)
      with (if String.eqb (String c s) suf then true else Py.endswith s suf).
    destruct (String.eqb (String c s) suf) eqn:He.
    + apply String.eqb_eq in He as <-. by exists "".
    + intros [pre ->]%IH. by exists (String c pre).
Qed.

Lemma replace_app old new s t :
  Py.replace old new (s +:+ t) = Py.replace old new s +:+ Py.replace old new t.
Proof.
  induction s as [|c s IH]; [done|].
  rewrite append_cons. simpl. rewrite IH.
  destruct (Ascii.eqb c old); [by rewrite append_assoc|done].
Qed.

Lemma replace_lacks old new s : lacks old s → Py.replace old new s = s.
Proof.
  unfold lacks. induction s as [|c s IH]; [done|]. simpl.
  destruct (Ascii.eqb c old); [done|]. simpl. intros H. by rewrite IH.
Qed.

Lemma rstrip_by_app_keep p s t :
  Py.rstrip_by p t ≠ "" → Py.rstrip_by p (s +:+ t) = s +:+ Py.rstrip_by p t.
Proof.
  intros Ht. induction s as [|c s IH]; [done|].
  rewrite !append_cons. simpl. rewrite IH.
  destruct (s +:+ Py.rstrip_by p t) eqn:He; [|done].
  destruct s; [|done]. by rewrite append_nil_l in He.
Qed.

Lemma lstrip_by_app_keep p s c t :
  p c = false → ∃ s', Py.lstrip_by p (s +:+ String c t) = s' +:+ String c t.
Proof.
  intros Hc. induction s as [|d s IH].
  - exists "". rewrite !append_nil_l. simpl. by rewrite Hc.
  - rewrite append_cons. simpl. destruct (p d); [done|].
    exists (String d s). by rewrite append_cons.
Qed.

(** The key of a report of a C source ends in [.c]. *)
Lemma source_key_c content :
  is_c_source (parse_gcov_source_path content) = true →
  Py.endswith (source_key content) ".c" = true.
Proof.
  unfold source_key, is_c_source.
  destruct (parse_gcov_source_path content) as [[|c s]|]; [done| |done].
  intros [pre Hpre]%endswith_inv. simpl or_else. rewrite Hpre, replace_app.
  change (Py.replace "\" "/" ".c") with ".c".
  unfold Py.strip, Py.strip_by.
  destruct (lstrip_by_app_keep Py.is_space (Py.replace "\" "/" pre) "." "c" eq_refl)
    as [s' ->].
  rewrite rstrip_by_app_keep by done.
  change (Py.rstrip_by Py.is_space ".c") with ".c". apply endswith_app.
Qed.

(** The padded index is what [replace] leaves of the head of a base
    name. *)
Lemma dir_base_eq i name :
  dir_base i name = Py.zfill 4 i +:+ String "_" (Py.replace "-" "_" name).
Proof.
  unfold dir_base. rewrite replace_app, replace_lacks.
  - by rewrite replace_app.
  - unfold lacks. eapply all_chars_weaken; [|apply all_digits_zfill].
    intros c [-> _]%is_digit_not_sign. done.
Qed.

(** Names built on the base names of two indices differ. *)
Lemma dir_base_trace_name_differ i j name1 name2 k l ext1 ext2 :
  trace_name (dir_base i name1) k ext1 = trace_name (dir_base j name2) l ext2 →
  i = j.
Proof.
  unfold trace_name. rewrite !dir_base_eq, !append_assoc. intros Heq.
  apply (span_unique Py.is_digit) in Heq as [Hz _];
    [|apply all_digits_zfill|apply all_digits_zfill|done|done].
  by eapply zfill_inj.
Qed.

End Names.

(** The groups of reports of C sources. *)
Lemma group_keys_c fs paths k ps :
  Forall (λ p, retained fs p = true) paths →
  group_gcov_paths_by_source fs paths !! k = Some ps →
  Py.endswith k ".c" = true.
Proof.
  intros Hall. unfold group_gcov_paths_by_source.
  rewrite foldl_group_step_lookup, lookup_empty.
  destruct (filter (λ p, keyed fs k p = true) paths) as [|p l] eqn:Hf; [done|].
  intros _.
  assert (p ∈ filter (λ p, keyed fs k p = true) paths) as Hp
    by (rewrite Hf; apply list_elem_of_here).
  apply list_elem_of_filter in Hp as [Hk Hp].
  rewrite Forall_forall in Hall. specialize (Hall p Hp).
  unfold keyed in Hk. unfold retained in Hall.
  destruct (fs !! p) as [content|]; [|done].
  apply String.eqb_eq in Hk as <-. by apply source_key_c.
Qed.

Lemma group_members fs paths k ps :
  group_gcov_paths_by_source fs paths !! k = Some ps →
  ps ≠ [] ∧ ∀ p, p ∈ ps → p ∈ paths ∧ is_Some (fs !! p).
Proof.
  unfold group_gcov_paths_by_source.
  rewrite foldl_group_step_lookup, lookup_empty.
  destruct (filter (λ p, keyed fs k p = true) paths) as [|p l] eqn:Hf; [done|].
  intros [= <-]. split; [done|]. simpl. rewrite <- Hf. intros q Hq.
  apply list_elem_of_filter in Hq as [Hk Hq]. split; [done|].
  unfold keyed in Hk. by destruct (fs !! q).
Qed.


(** X13: when every listed report is one of a C source (its [Source:]
    path ends in [.c]), every key of [group_gcov_paths_by_source] ends
    in [.c]: replacing the backslashes and stripping the white space
    keep the suffix.  The groups that [aggregate_directories] builds
    from the reports it retained are therefore all given a directory;
    its test of the key never skips one. *)
Theorem retained_reports_have_c_keys fs paths k ps :
  Forall (λ p, retained fs p = true) paths →
  group_gcov_paths_by_source fs paths !! k = Some ps →
  Py.endswith k ".c" = true.
Proof. apply group_keys_c. Qed.

Lemma retained_reports_have_c_keys_witness :
  let fs : gmap string string :=
    {[ "a.gcov.txt" := "        -:    0:Source: ..\src\cat.c  ";
       "b.gcov.txt" := "        -:    0:Source:../src/cat.c" ]} in
  group_gcov_paths_by_source fs ["a.gcov.txt"; "b.gcov.txt"] !! "..\src\cat.c" = None
  ∧ Py.endswith "../src/cat.c" ".c" = true.
Proof.
  cbv zeta. split; [by vm_compute|].
  apply (retained_reports_have_c_keys
           {[ "a.gcov.txt" := "        -:    0:Source: ..\src\cat.c  ";
              "b.gcov.txt" := "        -:    0:Source:../src/cat.c" ]}
           ["a.gcov.txt"; "b.gcov.txt"] "../src/cat.c"
           ["a.gcov.txt"; "b.gcov.txt"]).
  - repeat constructor; by vm_compute.
  - by vm_compute.
Defined.

(** X14: the artifacts of different directories have different names.
    The base name that [aggregate_directories] gives a directory starts
    with the decimal index of the directory followed by [_], and
    [replace] leaves the digits alone; so the names that
    [convert_dir_to_tracefiles] builds on the base names of two
    different indices differ, whatever the directories are called and
    whatever the report indices and the extensions are. *)
Theorem trace_names_of_directories_differ i j name1 name2 k l ext1 ext2 :
  i ≠ j →
  trace_name (dir_base i name1) k ext1 ≠ trace_name (dir_base j name2) l ext2.
Proof.
  intros Hij Heq. apply Hij. by eapply dir_base_trace_name_differ.
Qed.

Lemma trace_names_of_directories_differ_witness :
  trace_name (dir_base 0 "cat_symbolic_coverage") 3 ".info"
  ≠ trace_name (dir_base 1 "cat_symbolic_coverage") 3 ".info".
Proof.
  apply trace_names_of_directories_differ. lia.
Defined.

(** ** The orchestrator *)

Section OrchestratorProps.

Variable resolve_relative : string → string → option string.
Variable joinpath : string → string → string.
Variable dir_exists : string → bool.
Variable dir_resolve : string → string.
Variable dir_name : string → string.
Variable dir_gcov_files : string → list string.
Variable run : option string → list string → run_outcome.
Variable fs : gmap string string.
Variables workspace_root output_dir : string.

Implicit Types (acc : collected) (e : nat * string) (d p : string).

#[local] Abbreviation collect :=
  (collect_step resolve_relative joinpath dir_exists dir_resolve dir_name
     dir_gcov_files fs workspace_root output_dir).
#[local] Abbreviation reports := (dir_reports dir_resolve dir_gcov_files fs).
#[local] Abbreviation traces :=
  (dir_traces joinpath dir_resolve dir_name dir_gcov_files fs output_dir).
#[local] Abbreviation bad := (unreadable_dir dir_exists dir_resolve dir_gcov_files fs).

Lemma convert_unreadable out_dir base_name wr only st files :
  Exists (λ p, fs !! p = None) files →
  foldM (convert_step resolve_relative joinpath fs out_dir base_name wr only)
    st files = None.
Proof.
  intros Hex. revert st. induction Hex as [p files Hp|p files _ IH]; intros st.
  - rewrite foldM_cons. unfold convert_step. by rewrite Hp.
  - rewrite foldM_cons. destruct (convert_step _ _ _ _ _ _ _ _ _) as [st'|]; [|done].
    apply IH.
Qed.

Lemma readable_or_not files :
  Forall (λ p, is_Some (fs !! p)) files ∨ Exists (λ p, fs !! p = None) files.
Proof.
  destruct (Forall_Exists_dec (λ p, is_Some (fs !! p)) (λ p, fs !! p = None)
              (λ p, match fs !! p as o return {is_Some o} + {o = None} with
                    | Some c => left (ex_intro _ c eq_refl)
                    | None => right eq_refl
                    end) files); auto.
Qed.

Lemma readable_not_unreadable files :
  Forall (λ p, is_Some (fs !! p)) files → ¬ Exists (λ p, fs !! p = None) files.
Proof.
  intros Hall Hex. apply Exists_exists in Hex as (p & Hp & Hn).
  rewrite Forall_forall in Hall. destruct (Hall p Hp) as [c Hc]. congruence.
Qed.

(** One directory of the first loop. *)
Lemma collect_step_skip acc e :
  dir_exists e.2 = false → collect acc e = Some acc.
Proof. destruct e as [i d]. simpl. intros ->. done. Qed.

Lemma collect_step_unreadable acc e :
  bad e.2 → collect acc e = None.
Proof.
  destruct e as [i d]. intros [Hex Hun]. simpl in *. rewrite Hex. simpl.
  unfold convert_dir_to_tracefiles. by rewrite convert_unreadable.
Qed.

Lemma collect_step_readable acc e :
  dir_exists e.2 = true →
  Forall (λ p, is_Some (fs !! p)) (dir_gcov_files (dir_resolve e.2)) →
  ∃ st,
    convert_dir_to_tracefiles resolve_relative joinpath fs
      (dir_gcov_files (dir_resolve e.2)) (artifacts acc) output_dir
      (dir_base e.1 (dir_name (dir_resolve e.2))) (Some workspace_root) true
    = Some st
    ∧ collect acc e =
        Some (Collected (all_info acc ++ traces ".info" e)
                (all_json acc ++ traces ".json" e)
                (all_gcov_paths acc ++ reports e.2)
                (written st))
    ∧ (reports e.2 = [] → written st = artifacts acc).
Proof.
  destruct e as [i d]. simpl. intros Hex Hall.
  destruct (foldM_convert_step resolve_relative joinpath fs output_dir
              (dir_base i (dir_name (dir_resolve d))) (Some workspace_root)
              (dir_gcov_files (dir_resolve d))
              (ConvertState [] [] 0 (artifacts acc)) Hall)
    as (st & H1 & H2 & _ & H4 & H5 & _).
  exists st. unfold convert_dir_to_tracefiles. rewrite H1, Hex. simpl.
  split; [done|]. split; [by rewrite H4, H5|].
  unfold dir_reports. intros Hnil. rewrite Hnil in H2. simpl in H2.
  by injection H2 as <-.
Qed.

Lemma good_dir e :
  ¬ bad e.2 → dir_exists e.2 = true →
  Forall (λ p, is_Some (fs !! p)) (dir_gcov_files (dir_resolve e.2)).
Proof.
  intros Hb Hex. destruct (readable_or_not (dir_gcov_files (dir_resolve e.2)));
    [done|]. destruct Hb. by split.
Qed.

Lemma filter_exists_cons e (entries : list (nat * string)) :
  filter (λ e, dir_exists e.2 = true) (e :: entries) =
    if dir_exists e.2 then e :: filter (λ e, dir_exists e.2 = true) entries
    else filter (λ e, dir_exists e.2 = true) entries.
Proof. rewrite filter_cons. destruct (dir_exists e.2); by case_decide. Qed.

(** The first loop. *)
Lemma foldM_collect_step entries acc :
  Forall (λ e, ¬ bad e.2) entries →
  ∃ acc',
    foldM collect acc entries = Some acc'
    ∧ all_info acc' =
        all_info acc
        ++ mjoin (traces ".info" <$> filter (λ e, dir_exists e.2 = true) entries)
    ∧ all_json acc' =
        all_json acc
        ++ mjoin (traces ".json" <$> filter (λ e, dir_exists e.2 = true) entries)
    ∧ all_gcov_paths acc' =
        all_gcov_paths acc
        ++ mjoin ((λ e, reports e.2) <$> filter (λ e, dir_exists e.2 = true) entries).
Proof.
  intros Hall. revert acc. induction Hall as [|e entries He _ IH]; intros acc.
  - exists acc. simpl. by rewrite !app_nil_r.
  - rewrite foldM_cons, filter_exists_cons.
    destruct (dir_exists e.2) eqn:Hex.
    + destruct (collect_step_readable acc e Hex (good_dir e He Hex))
        as (st & _ & -> & _).
      simpl. destruct (IH (Collected (all_info acc ++ traces ".info" e)
                             (all_json acc ++ traces ".json" e)
                             (all_gcov_paths acc ++ reports e.2) (written st)))
        as (acc' & H1 & H2 & H3 & H4).
      simpl in *. exists acc'. rewrite H1, H2, H3, H4, <- !app_assoc. done.
    + rewrite (collect_step_skip acc e Hex). simpl. apply IH.
Qed.

Lemma foldM_collect_step_unreadable entries acc :
  Exists (λ e, bad e.2) entries → foldM collect acc entries = None.
Proof.
  intros Hex. revert acc. induction Hex as [e entries He|e entries _ IH]; intros acc.
  - by rewrite foldM_cons, (collect_step_unreadable acc e He).
  - rewrite foldM_cons. destruct (collect acc e); [apply IH|done].
Qed.

Lemma bad_or_not (entries : list (nat * string)) :
  Forall (λ e, ¬ bad e.2) entries ∨ Exists (λ e, bad e.2) entries.
Proof.
  induction entries as [|e entries [IH|IH]].
  - left. constructor.
  - destruct (dir_exists e.2) eqn:Hex.
    + destruct (readable_or_not (dir_gcov_files (dir_resolve e.2))) as [Hr|Hu].
      * left. constructor; [|done]. intros [_ Hu].
        by apply (readable_not_unreadable _ Hr).
      * right. constructor. by split.
    + left. constructor; [|done]. intros [Hb _]. congruence.
  - right. by constructor.
Qed.

Lemma entries_snd (dirs : list string) :
  (zip (seq 0 (length dirs)) dirs).*2 = dirs.
Proof. apply snd_zip. by rewrite length_seq. Qed.

Lemma entries_Exists (P : string → Prop) dirs :
  Exists (λ e : nat * string, P e.2) (zip (seq 0 (length dirs)) dirs)
  ↔ Exists P dirs.
Proof.
  rewrite <- (entries_snd dirs) at 3. by rewrite Exists_fmap.
Qed.

Lemma entries_Forall (P : string → Prop) dirs :
  Forall (λ e : nat * string, P e.2) (zip (seq 0 (length dirs)) dirs)
  ↔ Forall P dirs.
Proof.
  rewrite <- (entries_snd dirs) at 3. by rewrite Forall_fmap.
Qed.

Lemma traces_length ext (entries : list (nat * string)) :
  length (mjoin (traces ext <$> entries))
  = length (mjoin ((λ e, reports e.2) <$> entries)).
Proof.
  induction entries as [|e entries IH]; [done|].
  rewrite !fmap_cons. simpl. rewrite !List.length_app, IH.
  unfold dir_traces. by rewrite length_fmap, length_seq.
Qed.

(** The loop over the groups never raises. *)
Lemma foldM_source_step_total items st :
  is_Some (foldM (source_step joinpath output_dir) st items).
Proof.
  revert st. induction items as [|[k ps] items IH]; intros st; [by eexists|].
  rewrite foldM_cons. unfold source_step.
  destruct (negb (Py.endswith k ".c")); [apply IH|].
  rewrite write_cumulative_gcov_spec. simpl.
  destruct (snapshots st.1 ps); apply IH.
Qed.


Lemma lcov_stage_flag use_lcov i infos ok ev :
  let m := run None ("lcov" :: dash_a (i :: infos)
                              ++ ["-o"; joinpath output_dir "merged.info"]) in
  let s := run None ["lcov"; "--summary"; joinpath output_dir "merged.info"] in
  lcov_stage run joinpath use_lcov (i :: infos) output_dir = Some (ok, ev) →
  ok = negb use_lcov || absent m || exit_ok m && exit_ok s.
Proof.
  cbv zeta. unfold lcov_stage, merge_lcov, summary_lcov.
  destruct use_lcov; [|by intros [= <- _]].
  destruct (run None ("lcov" :: dash_a (i :: infos) ++ _)) as [| |rc o err]; simpl;
    [by intros [= <- _]|done|].
  case_bool_decide as Hrc; simpl.
  - rewrite bool_decide_false by done. by intros [= <- _].
  - rewrite bool_decide_true by done. simpl.
    destruct (run None ["lcov"; _; _]) as [| |rc' o' err']; simpl; [done|done|].
    case_bool_decide as Hrc'; simpl.
    + rewrite bool_decide_false by done. by intros [= <- _].
    + rewrite bool_decide_true by done.
      by intros [= <- _].
Qed.


Lemma gcovr_stage_flag use_gcovr j jsons ok ev :
  let g := run (Some output_dir)
             ("gcovr" :: add_tracefile (j :: jsons)
                         ++ ["--root"; workspace_root] ++ ["--txt"; "-"]) in
  gcovr_stage run use_gcovr (j :: jsons) output_dir workspace_root = Some (ok, ev) →
  ok = negb use_gcovr || absent g || exit_ok g.
Proof.
  cbv zeta. unfold gcovr_stage, merge_and_summary_gcovr.
  destruct use_gcovr; [|by intros [= <- _]].
  destruct (run (Some output_dir) ("gcovr" :: _)) as [| |rc o err]; simpl;
    [by intros [= <- _]|done|].
  case_bool_decide as Hrc; simpl.
  - rewrite bool_decide_false by done. by intros [= <- _].
  - rewrite bool_decide_true by done.
    by intros [= <- _].
Qed.

Lemma foldM_collect_step_nothing entries acc :
  Forall (λ e, ¬ bad e.2) entries →
  mjoin ((λ e, reports e.2) <$> filter (λ e, dir_exists e.2 = true) entries) = [] →
  foldM collect acc entries = Some acc.
Proof.
  intros Hall. induction Hall as [|e entries He _ IH]; [done|].
  rewrite foldM_cons, filter_exists_cons.
  destruct (dir_exists e.2) eqn:Hex.
  - rewrite fmap_cons. simpl. intros [Hnil Hrest]%app_eq_nil.
    destruct (collect_step_readable acc e Hex (good_dir e He Hex))
      as (st & _ & -> & Hw).
    unfold dir_traces. rewrite Hnil, (Hw Hnil). simpl. rewrite !app_nil_r.
    destruct acc. by apply IH.
  - rewrite (collect_step_skip acc e Hex). simpl. apply IH.
Qed.

(** *** The artifacts of all directories *)

Section Artifacts.

Hypothesis joinpath_inj : ∀ a b, joinpath output_dir a = joinpath output_dir b → a = b.

#[local] Abbreviation trace :=
  (dir_trace joinpath dir_resolve dir_name output_dir).

Lemma dir_trace_differ e1 e2 j1 j2 ext1 ext2 :
  e1.1 ≠ e2.1 → trace ext1 e1 j1 ≠ trace ext2 e2 j2.
Proof.
  intros Hne Heq%joinpath_inj. by apply dir_base_trace_name_differ in Heq.
Qed.

Lemma foldM_collect_step_artifacts entries acc acc' :
  Forall (λ e, ¬ bad e.2) entries →
  NoDup entries.*1 →
  foldM collect acc entries = Some acc' →
  (∀ e j p, e ∈ entries → dir_exists e.2 = true → reports e.2 !! j = Some p →
            artifacts acc' !! trace ".info" e j = Some (InfoFile (info_of fs p))
            ∧ artifacts acc' !! trace ".json" e j
              = Some (JsonFile (json_of resolve_relative fs (Some workspace_root) p)))
  ∧ (∀ q, (∀ e j, e ∈ entries → dir_exists e.2 = true →
                  (j < length (reports e.2))%nat →
                  q ≠ trace ".info" e j ∧ q ≠ trace ".json" e j) →
          artifacts acc' !! q = artifacts acc !! q).
Proof.
  intros Hall. revert acc. induction Hall as [|e entries He _ IH]; intros acc.
  { intros _ [= <-]. split; [by intros ??? ?%elem_of_nil|done]. }
  rewrite fmap_cons, NoDup_cons, foldM_cons. intros [Hfresh Hnd].
  assert (∀ e', e' ∈ entries → e.1 ≠ e'.1) as Hother.
  { intros e' He' Heq. apply Hfresh. rewrite Heq. by apply list_elem_of_fmap_2. }
  destruct (dir_exists e.2) eqn:Hex.
  - pose proof (good_dir e He Hex) as Hread.
    destruct (collect_step_readable acc e Hex Hread) as (st & Hconv & -> & _).
    destruct (foldM_convert_step_gen resolve_relative joinpath fs output_dir
                (dir_base e.1 (dir_name (dir_resolve e.2))) (Some workspace_root)
                true joinpath_inj (dir_gcov_files (dir_resolve e.2))
                (ConvertState [] [] 0 (artifacts acc)) Hread)
      as (st' & H1 & _ & _ & _ & H5 & H6).
    unfold convert_dir_to_tracefiles in Hconv. rewrite H1 in Hconv.
    injection Hconv as ->. simpl in H5, H6.
    change (converted true fs (dir_gcov_files (dir_resolve e.2)))
      with (reports e.2) in H5, H6.
    simpl. intros Hfold. destruct (IH _ Hnd Hfold) as [IH1 IH2]. simpl in IH2.
    split.
    + intros e' j p [->|He']%elem_of_cons Hex' Hj; [|by apply IH1].
      rewrite !IH2; [by apply H5| |];
        intros e'' j'' He'' _ _; split; apply dir_trace_differ; by apply Hother.
    + intros q Hq. rewrite IH2.
      * apply H6. intros j Hj. apply (Hq e j); [apply list_elem_of_here|done..].
      * intros e' j He'. apply Hq. by apply list_elem_of_further.
  - rewrite (collect_step_skip acc e Hex). simpl. intros Hfold.
    destruct (IH _ Hnd Hfold) as [IH1 IH2]. split.
    + intros e' j p [->|He']%elem_of_cons Hex' Hj; [congruence|by apply IH1].
    + intros q Hq. apply IH2. intros e' j He'. apply Hq.
      by apply list_elem_of_further.
Qed.

End Artifacts.

(** *** The cumulative reports of a run *)

Lemma snapshots_ext (fs1 fs2 : gmap string string) ps :
  (∀ p, p ∈ ps → fs1 !! p = fs2 !! p) → snapshots fs1 ps = snapshots fs2 ps.
Proof.
  unfold snapshots. induction ps as [|p ps IH]; [done|]. intros Hext. csimpl.
  rewrite (Hext p) by apply list_elem_of_here.
  rewrite IH; [done|]. intros q Hq. apply Hext. by apply list_elem_of_further.
Qed.

Lemma snapshots_length ps :
  Forall (λ p, is_Some (fs !! p)) ps → length (snapshots fs ps) = length ps.
Proof.
  unfold snapshots. induction 1 as [|p ps [c Hc] _ IH]; [done|].
  csimpl. rewrite Hc. simpl. by rewrite IH.
Qed.

#[local] Abbreviation report_path := (source_report_path joinpath output_dir).

Lemma source_step_c st k ps :
  Py.endswith k ".c" = true →
  ∃ st',
    source_step joinpath output_dir st (k, ps) = Some st'
    ∧ (∀ q, q ≠ report_path k → st'.1 !! q = st.1 !! q)
    ∧ (∀ c cs, snapshots st.1 ps = c :: cs →
               st'.1 !! report_path k
               = Some (cumulative_text (fold_coverage (coverage_of <$> c :: cs))
                         (records_of c))).
Proof.
  intros Hk. unfold source_step. rewrite Hk. simpl.
  rewrite write_cumulative_gcov_spec. simpl.
  destruct (snapshots st.1 ps) as [|c cs]; simpl; eexists; (split; [done|]); simpl.
  - done.
  - split.
    + intros q Hq. by rewrite lookup_insert_ne.
    + intros c' cs' [= <- <-]. by rewrite lookup_insert_eq.
Qed.

Lemma foldM_source_step_spec items st st' :
  Forall (λ it : string * list string, Py.endswith it.1 ".c" = true) items →
  (∀ it p, it ∈ items → p ∈ it.2 → p ∉ report_path <$> items.*1) →
  foldM (source_step joinpath output_dir) st items = Some st' →
  (∀ q, q ∉ report_path <$> items.*1 → st'.1 !! q = st.1 !! q)
  ∧ (NoDup (report_path <$> items.*1) →
     ∀ it c cs, it ∈ items → snapshots st.1 it.2 = c :: cs →
       st'.1 !! report_path it.1
       = Some (cumulative_text (fold_coverage (coverage_of <$> c :: cs))
                 (records_of c))).
Proof.
  intros Hall. revert st. induction Hall as [|[k ps] items Hk _ IH]; intros st.
  { intros _ [= <-]. split; [done|]. by intros _ ??? ?%elem_of_nil. }
  intros Hin. rewrite foldM_cons.
  destruct (source_step_c st k ps Hk) as (st1 & -> & Hout & Hat).
  intros Hfold. simpl in Hfold.
  assert (∀ it p, it ∈ items → p ∈ it.2 → p ∉ report_path <$> items.*1) as Hin'.
  { intros it p Hit Hp Hq. apply (Hin it p); [by apply list_elem_of_further|done|].
    rewrite !fmap_cons. by apply list_elem_of_further. }
  destruct (IH st1 Hin' Hfold) as [IH1 IH2]. split.
  - intros q Hq. rewrite !fmap_cons in Hq. apply not_elem_of_cons in Hq as [Hq1 Hq2].
    rewrite IH1 by done. by apply Hout.
  - rewrite !fmap_cons, NoDup_cons. intros [Hfresh Hnd] it c cs Hit Hsnap.
    apply elem_of_cons in Hit as [->|Hit].
    + simpl. rewrite IH1 by done. by apply Hat.
    + apply (IH2 Hnd it c cs Hit). rewrite <- Hsnap. apply snapshots_ext.
      intros p Hp. apply Hout. intros ->.
      apply (Hin it (report_path k)); [by apply list_elem_of_further|done|].
      rewrite !fmap_cons. apply list_elem_of_here.
Qed.

Lemma sorted_items_elem (m : gmap string (list string)) k ps :
  (k, ps) ∈ sorted_items m ↔ m !! k = Some ps.
Proof.
  unfold sorted_items. rewrite merge_sort_Permutation.
  apply elem_of_map_to_list.
Qed.

Lemma sorted_items_NoDup (m : gmap string (list string)) :
  NoDup (sorted_items m).*1.
Proof.
  unfold sorted_items. rewrite merge_sort_Permutation.
  apply NoDup_fst_map_to_list.
Qed.

Section Run.

Variable arts : gmap string artifact.
Variable results_dirs : list string.
Variables use_lcov use_gcovr : bool.

#[local] Abbreviation aggregate :=
  (aggregate_directories resolve_relative joinpath dir_exists dir_resolve
     dir_name dir_gcov_files run fs arts results_dirs workspace_root output_dir
     use_lcov use_gcovr).
#[local] Abbreviation the_reports :=
  (all_reports dir_exists dir_resolve dir_gcov_files fs results_dirs).
#[local] Abbreviation the_traces :=
  (λ ext, all_traces joinpath dir_exists dir_resolve dir_name dir_gcov_files fs
            output_dir ext results_dirs).
#[local] Abbreviation entries := (zip (seq 0 (length results_dirs)) results_dirs).

Lemma traces_nil ext : the_traces ext = [] ↔ the_reports = [].
Proof.
  unfold all_traces, all_reports.
  rewrite <- !length_zero_iff_nil, traces_length. done.
Qed.

Lemma aggregate_unreadable : Exists bad results_dirs → aggregate = None.
Proof.
  intros Hex. unfold aggregate_directories.
  rewrite foldM_collect_step_unreadable; [done|]. by apply entries_Exists.
Qed.

Lemma aggregate_collect :
  Forall (λ d, ¬ bad d) results_dirs →
  ∃ acc,
    foldM collect (Collected [] [] [] arts) entries = Some acc
    ∧ all_info acc = the_traces ".info"
    ∧ all_json acc = the_traces ".json"
    ∧ all_gcov_paths acc = the_reports.
Proof.
  intros Hall. apply (entries_Forall (λ d, ¬ bad d)) in Hall.
  destruct (foldM_collect_step entries (Collected [] [] [] arts) Hall)
    as (acc & H1 & H2 & H3 & H4).
  exists acc. by repeat split.
Qed.

(** What a run does once the reports are collected. *)
Lemma aggregate_normal_form :
  Forall (λ d, ¬ bad d) results_dirs →
  the_reports ≠ [] →
  ∃ acc st1 ok_global fs2 i infos j jsons,
    foldM collect (Collected [] [] [] arts) entries = Some acc
    ∧ the_traces ".info" = i :: infos
    ∧ the_traces ".json" = j :: jsons
    ∧ foldM (source_step joinpath output_dir) (fs, [])
        (sorted_items (group_gcov_paths_by_source fs the_reports)) = Some st1
    ∧ write_cumulative_gcov st1.1 the_reports
        (joinpath output_dir "cumulative.gcov.txt") = Some (ok_global, fs2)
    ∧ aggregate =
        ('(ok1, ev3) ← lcov_stage run joinpath use_lcov (i :: infos) output_dir;
         '(ok2, ev4) ← gcovr_stage run use_gcovr (j :: jsons) output_dir
                         workspace_root;
         Some (ok1 && ok2, fs2, artifacts acc,
               st1.2
               ++ (if ok_global : bool
                   then [Out ("Global cumulative: "
                              +:+ joinpath output_dir "cumulative.gcov.txt" +:+ nl)]
                   else [])
               ++ ev3 ++ ev4)).
Proof.
  intros Hall Hne. destruct (aggregate_collect Hall) as (acc & H1 & H2 & H3 & H4).
  destruct (the_traces ".info") as [|i infos] eqn:Hi;
    [by apply traces_nil in Hi|].
  destruct (the_traces ".json") as [|j jsons] eqn:Hj;
    [by apply traces_nil in Hj|].
  destruct (foldM_source_step_total
              (sorted_items (group_gcov_paths_by_source fs the_reports)) (fs, []))
    as [[fs1 ev1] Hst].
  pose proof (write_cumulative_gcov_spec fs1 the_reports
                (joinpath output_dir "cumulative.gcov.txt")) as Hw.
  destruct (match snapshots fs1 the_reports with
            | [] => (false, fs1)
            | content :: _ => _
            end) as [okg fs2] eqn:Hres.
  exists acc, (fs1, ev1), okg, fs2, i, infos, j, jsons.
  repeat (split; [done|]).
  unfold aggregate_directories. rewrite H1. simpl. rewrite H2, H3, H4.
  rewrite Hst. simpl. rewrite Hw. simpl. done.
Qed.

#[local] Abbreviation merge_outcome :=
  (lcov_merge_outcome joinpath dir_exists dir_resolve dir_name dir_gcov_files
     run fs results_dirs output_dir).
#[local] Abbreviation summary_outcome :=
  (lcov_summary_outcome joinpath run output_dir).
#[local] Abbreviation report_outcome :=
  (gcovr_outcome joinpath dir_exists dir_resolve dir_name dir_gcov_files run fs
     results_dirs workspace_root output_dir).


Lemma aggregate_nothing :
  Forall (λ d, ¬ bad d) results_dirs →
  the_reports = [] →
  aggregate = Some (false, fs, arts, [Err ("No .gcov.txt files found." +:+ nl)]).
Proof.
  intros Hall Hnil. apply (entries_Forall (λ d, ¬ bad d)) in Hall.
  unfold aggregate_directories.
  by rewrite (foldM_collect_step_nothing entries _ Hall Hnil).
Qed.


(** X16: the flag of a run that returns.  [aggregate_directories]
    returns [True] exactly when it kept at least one report of a C
    source and neither tool failed: [lcov], when asked for, is absent
    or both its merge and its summary exit with code 0, and [gcovr],
    when asked for, is absent or exits with code 0.  A tool that is not
    installed never makes the run fail; the cumulative reports have no
    part in the flag. *)
Theorem aggregate_directories_flag b fs' arts' ev :
  aggregate = Some (b, fs', arts', ev) →
  b = negb (bool_decide (the_reports = []))
      && (negb use_lcov || absent merge_outcome
          || exit_ok merge_outcome && exit_ok summary_outcome)
      && (negb use_gcovr || absent report_outcome || exit_ok report_outcome).
Proof.
  intros Hagg. destruct (bad_or_not entries) as [Hall|Hex]; cycle 1.
  { apply entries_Exists in Hex. by rewrite aggregate_unreadable in Hagg. }
  apply (entries_Forall (λ d, ¬ bad d)) in Hall.
  case_bool_decide as Hnil.
  { rewrite (aggregate_nothing Hall Hnil) in Hagg. by injection Hagg as <-. }
  destruct (aggregate_normal_form Hall Hnil)
    as (acc & st1 & okg & fs2 & i & infos & j & jsons & _ & Hi & Hj & _ & _ & Heq).
  rewrite Heq in Hagg. clear Heq.
  unfold lcov_merge_outcome, gcovr_outcome, lcov_summary_outcome.
  rewrite Hi, Hj.
  destruct (lcov_stage run joinpath use_lcov (i :: infos) output_dir)
    as [[ok1 ev3]|] eqn:H1; [|done].
  apply lcov_stage_flag in H1. simpl in Hagg.
  destruct (gcovr_stage run use_gcovr (j :: jsons) output_dir workspace_root)
    as [[ok2 ev4]|] eqn:H2; [|done].
  apply gcovr_stage_flag in H2. simpl in Hagg.
  injection Hagg as <- _ _ _. by rewrite H1, H2.
Qed.


Lemma entries_lookup i d : results_dirs !! i = Some d → (i, d) ∈ entries.
Proof.
  intros Hd. apply (list_elem_of_lookup_2 _ i).
  rewrite lookup_zip_with, lookup_seq_lt by (by eapply lookup_lt_Some).
  simpl. by rewrite Hd.
Qed.

Lemma entries_NoDup : NoDup entries.*1.
Proof. rewrite fst_zip by (by rewrite length_seq). apply NoDup_seq. Qed.

Lemma aggregate_collected b fs' arts' ev :
  aggregate = Some (b, fs', arts', ev) →
  Forall (λ e, ¬ bad e.2) entries
  ∧ ∃ acc, foldM collect (Collected [] [] [] arts) entries = Some acc
           ∧ all_gcov_paths acc = the_reports
           ∧ arts' = artifacts acc.
Proof.
  intros Hagg. destruct (bad_or_not entries) as [Hall|Hex]; cycle 1.
  { apply entries_Exists in Hex. by rewrite aggregate_unreadable in Hagg. }
  split; [done|].
  pose proof Hall as Hall'. apply (entries_Forall (λ d, ¬ bad d)) in Hall'.
  destruct (decide (the_reports = [])) as [Hnil|Hnil].
  - rewrite (aggregate_nothing Hall' Hnil) in Hagg. injection Hagg as _ _ <- _.
    exists (Collected [] [] [] arts).
    by rewrite (foldM_collect_step_nothing entries _ Hall Hnil).
  - destruct (aggregate_normal_form Hall' Hnil)
      as (acc & st1 & okg & fs2 & i & infos & j & jsons & Hacc & _ & _ & _ & _ & Heq).
    rewrite Heq in Hagg. clear Heq.
    destruct (lcov_stage _ _ _ _ _) as [[ok1 ev3]|]; [|done]. simpl in Hagg.
    destruct (gcovr_stage _ _ _ _ _) as [[ok2 ev4]|]; [|done]. simpl in Hagg.
    injection Hagg as _ _ <- _. exists acc. split; [done|]. split; [|done].
    by destruct (aggregate_collect Hall') as (acc' & Hacc' & _ & _ & ?); simplify_eq.
Qed.

(** X18: the artifacts of a run.  When [joinpath] gives different names
    different paths in the output directory and the run returns, the
    [j]-th kept report of the directory at position [i] has its line
    trace and its structured trace at the paths built on the base name
    of position [i]: no directory overwrites an artifact of another,
    also when two directories have the same name.  Every path of the
    artifact store that is not one of these is as before the run. *)
Theorem aggregate_directories_artifacts b fs' arts' ev :
  (∀ a b, joinpath output_dir a = joinpath output_dir b → a = b) →
  aggregate = Some (b, fs', arts', ev) →
  (∀ i d j p,
     results_dirs !! i = Some d → dir_exists d = true → reports d !! j = Some p →
     arts' !! dir_trace joinpath dir_resolve dir_name output_dir ".info" (i, d) j
     = Some (InfoFile (info_of fs p))
     ∧ arts' !! dir_trace joinpath dir_resolve dir_name output_dir ".json" (i, d) j
       = Some (JsonFile (json_of resolve_relative fs (Some workspace_root) p)))
  ∧ (∀ q, q ∉ the_traces ".info" ++ the_traces ".json" → arts' !! q = arts !! q).
Proof.
  intros Hinj Hagg.
  destruct (aggregate_collected _ _ _ _ Hagg) as (Hall & acc & Hacc & _ & ->).
  destruct (foldM_collect_step_artifacts Hinj entries _ acc Hall entries_NoDup Hacc)
    as [H1 H2].
  split.
  - intros i d j p Hd Hex Hp. apply (H1 (i, d) j p); [by apply entries_lookup|done..].
  - intros q Hq. rewrite H2; [done|]. intros e j He Hex Hj.
    split; intros ->; apply Hq; apply elem_of_app; [left|right];
      apply list_elem_of_join; eexists; (split; [|apply list_elem_of_fmap_2, list_elem_of_filter; split; [exact Hex|exact He]]);
      unfold dir_traces; apply list_elem_of_fmap_2, elem_of_seq; lia.
Qed.

#[local] Abbreviation by_source := (group_gcov_paths_by_source fs the_reports).
#[local] Abbreviation global_path := (joinpath output_dir "cumulative.gcov.txt").

Lemma reports_retained : Forall (λ p, retained fs p = true) the_reports.
Proof.
  apply Forall_forall. intros p (l & Hp & Hl)%list_elem_of_join.
  apply list_elem_of_fmap in Hl as (e & -> & _).
  by apply list_elem_of_filter in Hp as [Hp _].
Qed.

Lemma reports_exist p : p ∈ the_reports → is_Some (fs !! p).
Proof.
  intros Hp. pose proof reports_retained as Hall. rewrite Forall_forall in Hall.
  specialize (Hall p Hp). unfold retained in Hall. by destruct (fs !! p).
Qed.

Lemma aggregate_written b fs' arts' ev :
  aggregate = Some (b, fs', arts', ev) →
  the_reports ≠ [] →
  ∃ st1 ok_global,
    foldM (source_step joinpath output_dir) (fs, []) (sorted_items by_source)
    = Some st1
    ∧ write_cumulative_gcov st1.1 the_reports global_path = Some (ok_global, fs').
Proof.
  intros Hagg Hnil. destruct (bad_or_not entries) as [Hall|Hex]; cycle 1.
  { apply entries_Exists in Hex. by rewrite aggregate_unreadable in Hagg. }
  apply (entries_Forall (λ d, ¬ bad d)) in Hall.
  destruct (aggregate_normal_form Hall Hnil)
    as (acc & st1 & okg & fs2 & i & infos & j & jsons & _ & _ & _ & Hst & Hw & Heq).
  rewrite Heq in Hagg. clear Heq.
  destruct (lcov_stage _ _ _ _ _) as [[ok1 ev3]|]; [|done]. simpl in Hagg.
  destruct (gcovr_stage _ _ _ _ _) as [[ok2 ev4]|]; [|done]. simpl in Hagg.
  injection Hagg as _ <- _ _. by exists st1, okg.
Qed.

(** The loop over the groups of a run, when no kept report lies at the
    path of a report that the loop writes. *)
Lemma aggregate_source_reports st1 :
  (∀ k, is_Some (by_source !! k) → report_path k ∉ the_reports) →
  foldM (source_step joinpath output_dir) (fs, []) (sorted_items by_source)
  = Some st1 →
  (∀ q, (∀ k, is_Some (by_source !! k) → q ≠ report_path k) →
        st1.1 !! q = fs !! q)
  ∧ ((∀ k k', is_Some (by_source !! k) → is_Some (by_source !! k') →
              report_path k = report_path k' → k = k') →
     ∀ k ps c cs, by_source !! k = Some ps → snapshots fs ps = c :: cs →
       st1.1 !! report_path k
       = Some (cumulative_text (fold_coverage (coverage_of <$> c :: cs))
                 (records_of c))).
Proof.
  intros Hfree Hst.
  assert (∀ k, k ∈ (sorted_items by_source).*1 → is_Some (by_source !! k)) as Hkeys.
  { intros k ([k' ps] & -> & Hit)%list_elem_of_fmap.
    apply sorted_items_elem in Hit. by eexists. }
  destruct (foldM_source_step_spec (sorted_items by_source) (fs, []) st1) as [H1 H2];
    [| |done|].
  - apply Forall_forall. intros [k ps] Hit%sorted_items_elem.
    eapply group_keys_c; [apply reports_retained|done].
  - intros [k ps] p Hit%sorted_items_elem Hp (k' & -> & Hk')%list_elem_of_fmap.
    apply (Hfree k' (Hkeys k' Hk')).
    by apply (group_members _ _ _ _ Hit).
  - split.
    + intros q Hq. apply (H1 q). intros (k & -> & Hk)%list_elem_of_fmap.
      by apply (Hq k (Hkeys k Hk)).
    + intros Hinj k ps c cs Hk Hsnap.
      apply (H2 (NoDup_fmap_2_strong _ _
                   (λ x y Hx Hy, Hinj x y (Hkeys x Hx) (Hkeys y Hy))
                   (sorted_items_NoDup by_source))
               (k, ps) c cs); [by apply sorted_items_elem|done].
Qed.

(** X19: the global cumulative report of a run.  When the run returns,
    kept at least one report and none of the kept reports lies at the
    path of a per-source report, the file [cumulative.gcov.txt] of the
    output directory holds the cumulative report of all kept reports of
    all directories, in the order of the directories, built on the
    first of them; all of them are read.  Besides this file and the
    per-source reports the file system is as before the run. *)
Theorem aggregate_directories_global_report b fs' arts' ev :
  aggregate = Some (b, fs', arts', ev) →
  the_reports ≠ [] →
  (∀ k, is_Some (by_source !! k) → report_path k ∉ the_reports) →
  ∃ c cs,
    snapshots fs the_reports = c :: cs
    ∧ length (c :: cs) = length the_reports
    ∧ fs' !! global_path
      = Some (cumulative_text (fold_coverage (coverage_of <$> c :: cs))
                (records_of c))
    ∧ (∀ q, q ≠ global_path →
            (∀ k, is_Some (by_source !! k) → q ≠ report_path k) →
            fs' !! q = fs !! q).
Proof.
  intros Hagg Hnil Hfree.
  destruct (aggregate_written _ _ _ _ Hagg Hnil) as (st1 & okg & Hst & Hw).
  destruct (aggregate_source_reports st1 Hfree Hst) as [H1 _].
  assert (snapshots st1.1 the_reports = snapshots fs the_reports) as Hsnap.
  { apply snapshots_ext. intros p Hp. apply H1. intros k Hk ->.
    by apply (Hfree k Hk). }
  assert (length (snapshots fs the_reports) = length the_reports) as Hlen.
  { apply snapshots_length, Forall_forall, reports_exist. }
  rewrite write_cumulative_gcov_spec, Hsnap in Hw.
  destruct (snapshots fs the_reports) as [|c cs] eqn:Hs.
  { simpl in Hlen. symmetry in Hlen. by apply length_zero_iff_nil in Hlen. }
  injection Hw as _ <-. exists c, cs. split; [done|]. split; [done|]. split.
  - by rewrite lookup_insert_eq.
  - intros q Hq Hqk. rewrite lookup_insert_ne by done. by apply H1.
Qed.

(** X20: the per-source reports of a run.  When the run returns, the
    paths of the per-source reports are pairwise different, differ from
    the path of the global report and are not paths of kept reports,
    every group gets its own report: the key of the group ends in
    [.c], all reports of the group are read, and the file
    [cumulative.gcov.txt] in the directory named after the key holds
    the cumulative report of exactly the reports of the group, built
    on the first of them. *)
Theorem aggregate_directories_source_reports b fs' arts' ev :
  aggregate = Some (b, fs', arts', ev) →
  (∀ k, is_Some (by_source !! k) →
        (report_path k ∉ the_reports) ∧ (report_path k ≠ global_path)) →
  (∀ k k', is_Some (by_source !! k) → is_Some (by_source !! k') →
           report_path k = report_path k' → k = k') →
  ∀ k ps, by_source !! k = Some ps →
    Py.endswith k ".c" = true
    ∧ ∃ c cs,
        snapshots fs ps = c :: cs
        ∧ length (c :: cs) = length ps
        ∧ fs' !! report_path k
          = Some (cumulative_text (fold_coverage (coverage_of <$> c :: cs))
                    (records_of c)).
Proof.
  intros Hagg Hfree Hinj k ps Hk.
  destruct (group_members _ _ _ _ Hk) as [Hne Hmem].
  assert (the_reports ≠ []) as Hnil.
  { destruct ps as [|p ps']; [done|].
    destruct (Hmem p (list_elem_of_here _ _)) as [Hp _]. intros Heq.
    rewrite Heq in Hp. by apply elem_of_nil in Hp. }
  destruct (aggregate_written _ _ _ _ Hagg Hnil) as (st1 & okg & Hst & Hw).
  destruct (aggregate_source_reports st1 (λ k Hk, proj1 (Hfree k Hk)) Hst)
    as [_ H2].
  split; [eapply group_keys_c; [apply reports_retained|done]|].
  assert (length (snapshots fs ps) = length ps) as Hlen.
  { apply snapshots_length, Forall_forall. intros p Hp. by apply Hmem. }
  destruct (snapshots fs ps) as [|c cs] eqn:Hs.
  { simpl in Hlen. symmetry in Hlen. by apply length_zero_iff_nil in Hlen. }
  exists c, cs. split; [done|]. split; [done|].
  rewrite <- (H2 Hinj k ps c cs Hk Hs).
  rewrite write_cumulative_gcov_spec in Hw.
  destruct (snapshots st1.1 the_reports); injection Hw as _ <-; [done|].
  apply lookup_insert_ne, not_eq_sym, Hfree. by eexists.
Qed.

End Run.

End OrchestratorProps.

(** *** The sample run *)

Ltac by_evaluation := apply (bool_decide_unpack _); vm_compute; exact I.

Lemma sample_join_inj a b : Sample.join "out" a = Sample.join "out" b → a = b.
Proof.
  unfold Sample.join. intros H. apply append_inv_head in H.
  by apply (append_inv_head "/") in H.
Qed.

Lemma sample_returns : is_Some (Sample.aggregate ["r1"; "r4"; "r2"]).
Proof. by_evaluation. Qed.

Lemma sample_keys k :
  is_Some (group_gcov_paths_by_source Sample.files
             (all_reports Sample.exists_ (λ d, d) Sample.listing Sample.files
                ["r1"; "r4"; "r2"]) !! k) →
  k = "../src/cat.c" ∨ k = "../src/ls.c".
Proof.
  intros Hk%elem_of_dom.
  assert (dom (group_gcov_paths_by_source Sample.files
                 (all_reports Sample.exists_ (λ d, d) Sample.listing Sample.files
                    ["r1"; "r4"; "r2"]))
          = ({[ "../src/cat.c"; "../src/ls.c" ]} : gset string)) as Hdom
    by by_evaluation.
  rewrite Hdom in Hk. set_solver.
Qed.


Lemma aggregate_directories_flag_witness :
  ∃ fs' arts' ev, Sample.aggregate ["r1"; "r4"; "r2"] = Some (true, fs', arts', ev).
Proof.
  destruct sample_returns as [[[[b fs'] arts'] ev] H].
  exists fs', arts', ev. rewrite H. do 4 f_equal.
  rewrite (aggregate_directories_flag _ _ _ _ _ _ _ _ _ _ _ _ _ _ _ _ _ _ H).
  by vm_compute.
Defined.

Lemma aggregate_directories_artifacts_witness :
  ∃ b fs' arts' ev,
    Sample.aggregate ["r1"; "r4"; "r2"] = Some (b, fs', arts', ev)
    ∧ arts' !! "out/0000_cov_00000.info"
      = Some (InfoFile ("SF:../src/cat.c" +:+ nl +:+ "DA:5,1" +:+ nl +:+ "end_of_record"))
    ∧ arts' !! "out/0002_cov_00000.info"
      = Some (InfoFile ("SF:../src/ls.c" +:+ nl +:+ "DA:7,0" +:+ nl +:+ "end_of_record")).
Proof.
  destruct sample_returns as [[[[b fs'] arts'] ev] H].
  exists b, fs', arts', ev. split; [exact H|].
  destruct (aggregate_directories_artifacts _ _ _ _ _ _ _ _ _ _ _ _ _ _ _ _ _ _
              sample_join_inj H) as [Hart _].
  split.
  - destruct (Hart 0%nat "r1" 0%nat "r1/a.gcov.txt" eq_refl eq_refl eq_refl)
      as [Hi _].
    vm_compute (dir_trace _ _ _ _ _ _ _) in Hi. vm_compute (info_of _ _) in Hi.
    exact Hi.
  - destruct (Hart 2%nat "r2" 0%nat "r2/a.gcov.txt" eq_refl eq_refl eq_refl)
      as [Hi _].
    vm_compute (dir_trace _ _ _ _ _ _ _) in Hi. vm_compute (info_of _ _) in Hi.
    exact Hi.
Defined.

Lemma aggregate_directories_global_report_witness :
  ∃ b fs' arts' ev c cs,
    Sample.aggregate ["r1"; "r4"; "r2"] = Some (b, fs', arts', ev)
    ∧ snapshots Sample.files ["r1/a.gcov.txt"; "r2/a.gcov.txt"] = c :: cs
    ∧ fs' !! "out/cumulative.gcov.txt"
      = Some (cumulative_text (fold_coverage (coverage_of <$> c :: cs))
                (records_of c)).
Proof.
  destruct sample_returns as [[[[b fs'] arts'] ev] H].
  destruct (aggregate_directories_global_report _ _ _ _ _ _ _ _ _ _ _ _ _ _ _ _ _ _ H)
    as (c & cs & Hs & _ & Hg & _).
  - by_evaluation.
  - intros k [->| ->]%sample_keys; by_evaluation.
  - vm_compute (all_reports _ _ _ _ _) in Hs.
    vm_compute (Sample.join _ _) in Hg.
    exists b, fs', arts', ev, c, cs. split; [exact H|]. split; [exact Hs|exact Hg].
Defined.

Lemma aggregate_directories_source_reports_witness :
  ∃ b fs' arts' ev c cs,
    Sample.aggregate ["r1"; "r4"; "r2"] = Some (b, fs', arts', ev)
    ∧ snapshots Sample.files ["r2/a.gcov.txt"] = c :: cs
    ∧ fs' !! "out/src_ls.c/cumulative.gcov.txt"
      = Some (cumulative_text (fold_coverage (coverage_of <$> c :: cs))
                (records_of c)).
Proof.
  destruct sample_returns as [[[[b fs'] arts'] ev] H].
  destruct (aggregate_directories_source_reports _ _ _ _ _ _ _ _ _ _ _ _ _ _ _ _ _ _
              H) with (k := "../src/ls.c") (ps := ["r2/a.gcov.txt"])
    as (_ & c & cs & Hs & _ & Hg).
  - intros k [->| ->]%sample_keys; split; by_evaluation.
  - intros k k' [->| ->]%sample_keys [->| ->]%sample_keys Heq;
      first [reflexivity | exfalso; revert Heq; by_evaluation].
  - by_evaluation.
  - vm_compute (source_report_path _ _ _) in Hg.
    exists b, fs', arts', ev, c, cs. split; [exact H|]. split; [exact Hs|exact Hg].
Defined.
